(** * gdown: a shallow embedding of the Go package [gdown] and its properties

    The package resolves Google Drive URLs, follows the HTML confirmation
    page of large files, streams the payload to disk (optionally resumed and
    throttled), keeps a cache of finished downloads and walks shared folders.

    Go strings are byte sequences and are embedded as [string] (a list of
    [ascii], one per byte).  Everything the package obtains from outside the
    repository (the network, [net/url], [path], [encoding/json], the HTML
    parser, the digest function, the clock) is collected in a record [Env]
    of oracles; the package's own functions are written over an explicit
    [World] (file system, request log, standard error, clock). *)

From Stdlib Require Import String Ascii List ZArith Lia Bool DecimalString.
From stdpp Require Import base gmap strings list fin_maps.

Local Open Scope string_scope.
Local Open Scope list_scope.
Local Open Scope stdpp_scope.

Set Default Proof Using "Type".
Set Warnings "-register-all".

(** ** Errors and results *)

(** Go's [error] values.  [errors_New] covers [errors.New] and the
    [fmt.Errorf] calls without [%w] (the formatted message is the payload),
    [fmt_Errorf_w] is [fmt.Errorf] with a wrapped cause, and [lib_error]
    stands for an error produced by a library or by the operating system. *)
Inductive error : Type :=
| errors_New (msg : string)
| fmt_Errorf_w (msg : string) (cause : error)
| lib_error (origin detail : string).

(** A Go result pair [(v, err)]: either the value with a nil error, or the
    zero value with an error. *)
Inductive Result (A : Type) : Type :=
| Ok (a : A)
| Err (e : error).
Arguments Ok {A} a.
Arguments Err {A} e.

Definition is_Ok {A} (r : Result A) : bool :=
  match r with Ok _ => true | Err _ => false end.

(** ** The [strings] package, on bytes *)

Module strings.

(** The double quote, written by its code so that source text can be
    quoted inside literals. *)
Definition dq : string := String (ascii_of_nat 34) EmptyString.
(** The line feed; [.] of a regular expression does not match it. *)
Definition lf : ascii := ascii_of_nat 10.

(** [strip_prefix p s] is [Some rest] when [s = p ++ rest]. *)
Fixpoint strip_prefix (p s : string) : option string :=
  match p with
  | EmptyString => Some s
  | String c p' =>
      match s with
      | EmptyString => None
      | String d s' => if Ascii.eqb c d then strip_prefix p' s' else None
      end
  end.

Definition HasPrefix (s p : string) : bool :=
  match strip_prefix p s with Some _ => true | None => false end.

Definition HasSuffix (s suffix : string) : bool :=
  let n := String.length s in
  let m := String.length suffix in
  (m <=? n)%nat && String.eqb (String.substring (n - m) m s) suffix.

(** [Cut s sep] splits [s] around the first occurrence of [sep]. *)
Fixpoint Cut (s sep : string) : option (string * string) :=
  match strip_prefix sep s with
  | Some rest => Some (EmptyString, rest)
  | None =>
      match s with
      | EmptyString => None
      | String c s' =>
          match Cut s' sep with
          | Some (before, after) => Some (String c before, after)
          | None => None
          end
      end
  end.

Definition Contains (s sub : string) : bool :=
  match Cut s sub with Some _ => true | None => false end.

(** At most [cuts] cuts at successive occurrences of [sep], left to
    right; the remainder is the last piece. *)
Fixpoint split_cuts (cuts : nat) (s sep : string) : list string :=
  match cuts with
  | O => [s]
  | S k =>
      match Cut s sep with
      | None => [s]
      | Some (before, after) => before :: split_cuts k after sep
      end
  end.

(** [strings.SplitN] and [strings.Split].  Every call in the package
    passes a non-empty separator; the empty separator (which explodes a
    string into UTF-8 sequences) is outside this embedding and leaves the
    string whole. *)
Definition SplitN (s sep : string) (n : Z) : list string :=
  if String.eqb sep EmptyString then [s]
  else if (n =? 0)%Z then []
  else if (n <? 0)%Z then split_cuts (String.length s) s sep
  else split_cuts (Z.to_nat n - 1) s sep.

Definition Split (s sep : string) : list string := SplitN s sep (-1).

Fixpoint Join (elems : list string) (sep : string) : string :=
  match elems with
  | [] => EmptyString
  | [a] => a
  | a :: rest => a +:+ sep +:+ Join rest sep
  end.

(** Replace the non-overlapping occurrences of [old], left to right. *)
Fixpoint replace_cuts (cuts : nat) (s old new : string) : string :=
  match cuts with
  | O => s
  | S k =>
      match Cut s old with
      | None => s
      | Some (before, after) => before +:+ new +:+ replace_cuts k after old new
      end
  end.

(** [strings.ReplaceAll]; as for [SplitN], the empty [old] does not occur
    in the package and is left alone here. *)
Definition ReplaceAll (s old new : string) : string :=
  if String.eqb old EmptyString then s
  else replace_cuts (String.length s) s old new.

(** [strings.NewReplacer(pairs...).Replace]: at every position the first
    pair, in argument order, whose old string starts there is applied and
    the scan resumes behind it; [skip] counts the bytes of a match that
    are still to be dropped. *)
Fixpoint first_match (pairs : list (string * string)) (s : string)
  : option (string * string) :=
  match pairs with
  | [] => None
  | (old, new) :: rest =>
      if HasPrefix s old && negb (String.eqb old EmptyString)
      then Some (old, new) else first_match rest s
  end.

Fixpoint Replacer_go (pairs : list (string * string)) (skip : nat) (s : string)
  : string :=
  match s with
  | EmptyString => EmptyString
  | String c s' =>
      match skip with
      | S k => Replacer_go pairs k s'
      | O =>
          match first_match pairs s with
          | Some (old, new) => new +:+ Replacer_go pairs (String.length old - 1) s'
          | None => String c (Replacer_go pairs 0 s')
          end
      end
  end.

Definition Replacer_Replace (pairs : list (string * string)) (s : string) : string :=
  Replacer_go pairs 0 s.

(** The maximal run of bytes satisfying [keep] at the head of [s], and
    what follows it. *)
Fixpoint span (keep : ascii -> bool) (s : string) : string * string :=
  match s with
  | EmptyString => (EmptyString, EmptyString)
  | String c s' =>
      if keep c then let '(run, rest) := span keep s' in (String c run, rest)
      else (EmptyString, s)
  end.

(** Every byte of [s] satisfies [keep]. *)
Fixpoint all_bytes (keep : ascii -> bool) (s : string) : bool :=
  match s with
  | EmptyString => true
  | String c s' => keep c && all_bytes keep s'
  end.

(** [f] applied to every byte. *)
Fixpoint map_bytes (f : ascii -> ascii) (s : string) : string :=
  match s with
  | EmptyString => EmptyString
  | String c s' => String (f c) (map_bytes f s')
  end.

(** No byte of [s] is [c]. *)
Fixpoint free_of (c : ascii) (s : string) : bool :=
  match s with
  | EmptyString => true
  | String d s' => negb (Ascii.eqb c d) && free_of c s'
  end.

End strings.

(** ** The outside world *)

(** What the package reads off a parsed [*url.URL]: [u.Hostname()],
    [u.Path] and [u.Query()], the latter a [url.Values] map from a key to
    the values it carries, in order of appearance. *)
Record URL : Type := {
  Hostname : string;
  Path : string;
  Query : gmap string (list string)
}.

Module Values.
(** [url.Values.Has]: the key is present. *)
Definition Has (v : gmap string (list string)) (key : string) : bool :=
  match v !! key with Some _ => true | None => false end.
(** [url.Values.Get]: the first value of the key, or the empty string. *)
Definition Get (v : gmap string (list string)) (key : string) : string :=
  match v !! key with
  | Some (x :: _) => x
  | _ => EmptyString
  end.
End Values.

(** A decoded JSON document ([interface{}] after [json.Unmarshal]). *)
Inductive JSON : Type :=
| JNull
| JBool (b : bool)
| JNumber (text : string)
| JString (s : string)
| JArray (items : list JSON)
| JObject (fields : list (string * JSON)).

(** What the package reads off a parsed HTML document: the inner HTML of
    every [script] element in document order, and the text of the first
    [title] element (empty when there is none). *)
Record HtmlDoc : Type := {
  doc_scripts : list string;
  doc_title : string
}.

(** The [*http.Client] built by [newHTTPClient]. *)
Record http_Client : Type := {
  client_Proxy : option URL;
  client_InsecureSkipVerify : bool;
  client_Jar : bool
}.

Record Request : Type := {
  req_client : http_Client;
  req_url : string;
  req_header : list (string * string)
}.

(** An HTTP response.  The body is the sequence of chunks that successive
    reads deliver, optionally cut short by a transport error. *)
Record Response : Type := {
  StatusCode : Z;
  Status : string;
  Header : gmap string string;
  Body : list string;
  BodyErr : option error
}.

Definition Header_Get (h : gmap string string) (key : string) : string :=
  default EmptyString (h !! key).

(** A file-system entry: a regular file with its bytes, or a directory. *)
Inductive node : Type :=
| File (content : string)
| Dir.

(** The state the package acts on: the file system (a map from a path to
    its entry), the requests sent so far (latest first), the lines written
    to standard error (latest first) and the monotonic clock, in
    nanoseconds. *)
Record World : Type := {
  fs : gmap string node;
  requests : list Request;
  stderr : list string;
  now : Z
}.

Definition set_fs (w : World) (f : gmap string node) : World :=
  {| fs := f; requests := requests w; stderr := stderr w; now := now w |}.
Definition log_request (w : World) (r : Request) : World :=
  {| fs := fs w; requests := r :: requests w; stderr := stderr w; now := now w |}.
Definition eprint (line : string) (w : World) : World :=
  {| fs := fs w; requests := requests w; stderr := line :: stderr w; now := now w |}.
Definition set_now (w : World) (t : Z) : World :=
  {| fs := fs w; requests := requests w; stderr := stderr w; now := t |}.

(** Everything that lives outside the repository. *)
Record Env : Type := {
  (** [net/url] *)
  url_Parse : string -> Result URL;
  url_QueryUnescape : string -> Result string;
  (** [path] and [path/filepath] *)
  path_Base : string -> string;
  filepath_Join : list string -> string;
  os_PathSeparator : ascii;
  (** the process: home directory of the current user, working directory *)
  user_Current : Result string;
  os_Getwd : string;
  (** the network: the answer to a request, given the requests before it *)
  http_RoundTrip : list Request -> Request -> Result Response;
  (** [crypto/md5] followed by [hex.EncodeToString] *)
  md5_hex : string -> string;
  (** goquery, [html] and [encoding/json] *)
  goquery_NewDocument : string -> Result HtmlDoc;
  html_UnescapeString : string -> string;
  json_Unmarshal : string -> Result JSON;
  (** the operating system: a reason to refuse an operation on a path
      (permissions, a read-only volume, ...), and the name chosen by
      [os.MkdirTemp] *)
  os_fault : string -> string -> option error;
  temp_name : gmap string node -> string -> string -> string;
  (** the clock after [time.Sleep d] called at [t] *)
  time_Sleep : Z -> Z -> Z
}.

(** ** Computations over the world

    A computation either runs out of fuel ([None]: the Go code is still
    looping) or ends in a world with a value or an error. *)
Definition M (A : Type) : Type := World -> option (Result A * World).

Definition ret {A} (a : A) : M A := fun w => Some (Ok a, w).
Definition fail {A} (e : error) : M A := fun w => Some (Err e, w).
Definition diverge {A} : M A := fun _ => None.
Definition bind {A B} (c : M A) (k : A -> M B) : M B :=
  fun w =>
    match c w with
    | None => None
    | Some (Err e, w') => Some (Err e, w')
    | Some (Ok a, w') => k a w'
    end.
(** [catch c] runs [c] and hands its result over as a value: the Go code
    inspects or ignores the error instead of returning it. *)
Definition catch {A} (c : M A) : M (Result A) :=
  fun w =>
    match c w with
    | None => None
    | Some (r, w') => Some (Ok r, w')
    end.
(** [defer cleanup] around [body]: [cleanup] runs when [body] returns,
    whatever it returns. *)
Definition with_defer {A} (cleanup : World -> World) (body : M A) : M A :=
  fun w =>
    match body w with
    | None => None
    | Some (r, w') => Some (r, cleanup w')
    end.
Definition lift {A} (r : Result A) : M A := fun w => Some (r, w).
Definition get_world : M World := fun w => Some (Ok w, w).
Definition modify (f : World -> World) : M unit := fun w => Some (Ok tt, f w).

Declare Scope go_scope.
Delimit Scope go_scope with go.
Notation "x <- c ;; k" := (bind c (fun x => k))
  (at level 100, c at next level, right associativity) : go_scope.
Notation "c ;;; k" := (bind c (fun _ => k))
  (at level 100, right associativity) : go_scope.
Local Open Scope go_scope.

(** [fmt.Fprintf(os.Stderr, ...)], unless [quiet]. *)
Definition log_unless (quiet : bool) (line : string) : M unit :=
  modify (fun w => if quiet then w else eprint line w).

(** [%d] of an integer. *)
Definition itoa (n : Z) : string := DecimalString.NilZero.string_of_int (Z.to_int n).

(** ** The [os] package over the world

    Paths are the keys of the file-system map, taken as the package passes
    them.  Every operation first asks [os_fault] whether the system refuses
    it; what is written out here is the behaviour on the package's own
    paths. *)
Section OS.
Context (E : Env).

(** [os.FileInfo], as far as the package looks at it. *)
Record os_FileInfo : Type := { IsDir : bool; Size : Z }.

Definition sep : string := String (os_PathSeparator E) EmptyString.

Definition no_such_file (op path : string) : error :=
  lib_error op (path +:+ ": no such file or directory").
Definition is_a_directory (op path : string) : error :=
  lib_error op (path +:+ ": is a directory").
Definition not_a_directory (op path : string) : error :=
  lib_error op (path +:+ ": not a directory").
Definition file_exists (op path : string) : error :=
  lib_error op (path +:+ ": file exists").

(** [os.Stat] *)
Definition os_Stat (w : World) (path : string) : Result os_FileInfo :=
  match os_fault E "stat" path with
  | Some e => Err e
  | None =>
      match fs w !! path with
      | Some (File c) => Ok {| IsDir := false; Size := Z.of_nat (String.length c) |}
      | Some Dir => Ok {| IsDir := true; Size := 0%Z |}
      | None => Err (no_such_file "stat" path)
      end
  end.

(** [os.Create]: create or truncate. *)
Definition os_Create (path : string) : M unit :=
  fun w =>
    match os_fault E "open" path with
    | Some e => Some (Err e, w)
    | None =>
        match fs w !! path with
        | Some Dir => Some (Err (is_a_directory "open" path), w)
        | _ => Some (Ok tt, set_fs w (<[path := File EmptyString]> (fs w)))
        end
    end.

(** [os.OpenFile(path, O_CREATE|O_WRONLY|O_APPEND, 0644)] *)
Definition os_OpenFile_append (path : string) : M unit :=
  fun w =>
    match os_fault E "open" path with
    | Some e => Some (Err e, w)
    | None =>
        match fs w !! path with
        | Some Dir => Some (Err (is_a_directory "open" path), w)
        | Some (File _) => Some (Ok tt, w)
        | None => Some (Ok tt, set_fs w (<[path := File EmptyString]> (fs w)))
        end
    end.

(** [Write] of an [os.File] on a file opened by one of the two calls above:
    the bytes go to the end of the file (a created file starts empty).
    The result is Go's [(n, err)]. *)
Definition file_Write (path : string) (p : string) (w : World)
  : (Z * option error) * World :=
  match os_fault E "write" path with
  | Some e => ((0%Z, Some e), w)
  | None =>
      match fs w !! path with
      | Some (File c) =>
          ((Z.of_nat (String.length p), None),
           set_fs w (<[path := File (c +:+ p)]> (fs w)))
      | _ => ((0%Z, Some (lib_error "write" (path +:+ ": file already closed"))), w)
      end
  end.

(** The proper ancestors of a path, outermost first: the non-empty
    prefixes that end just before a separator. *)
Fixpoint ancestors_from (seen : string) (rest : string) : list string :=
  match rest with
  | EmptyString => []
  | String c rest' =>
      let here :=
        if Ascii.eqb c (os_PathSeparator E) && negb (String.eqb seen EmptyString)
        then [seen] else [] in
      here ++ ancestors_from (seen +:+ String c EmptyString) rest'
  end.
Definition ancestors (path : string) : list string :=
  ancestors_from EmptyString path.

(** Create the directories of [dirs] in turn; stop at a regular file. *)
Fixpoint mkdirs (dirs : list string) (f : gmap string node)
  : option error * gmap string node :=
  match dirs with
  | [] => (None, f)
  | d :: rest =>
      match f !! d with
      | Some (File _) => (Some (not_a_directory "mkdir" d), f)
      | Some Dir => mkdirs rest f
      | None => mkdirs rest (<[d := Dir]> f)
      end
  end.

(** [os.MkdirAll] *)
Definition os_MkdirAll (path : string) : M unit :=
  fun w =>
    match os_fault E "mkdir" path with
    | Some e => Some (Err e, w)
    | None =>
        match mkdirs (ancestors path ++ [path]) (fs w) with
        | (Some e, f) => Some (Err e, set_fs w f)
        | (None, f) => Some (Ok tt, set_fs w f)
        end
    end.

(** [os.MkdirTemp(dir, pattern)]: a new directory under [dir], named by
    the system. *)
Definition os_MkdirTemp (dir pattern : string) : M string :=
  fun w =>
    match os_fault E "mkdirtemp" dir with
    | Some e => Some (Err e, w)
    | None =>
        match fs w !! dir with
        | Some Dir =>
            let name := temp_name E (fs w) dir pattern in
            match fs w !! name with
            | Some _ => Some (Err (file_exists "mkdirtemp" name), w)
            | None => Some (Ok name, set_fs w (<[name := Dir]> (fs w)))
            end
        | Some (File _) => Some (Err (not_a_directory "mkdirtemp" dir), w)
        | None => Some (Err (no_such_file "mkdirtemp" dir), w)
        end
    end.

(** [path] is [root] or lies below it. *)
Definition within (root path : string) : bool :=
  String.eqb path root || strings.HasPrefix path (root +:+ sep).

(** [os.RemoveAll]: the entry and everything below it; the empty path is
    ignored; errors are not looked at by the package. *)
Definition os_RemoveAll (path : string) (w : World) : World :=
  if String.eqb path EmptyString then w
  else
    match os_fault E "remove" path with
    | Some _ => w
    | None => set_fs w (filter (fun kv => within path kv.1 = false) (fs w))
    end.

(** [os.Rename] of a regular file; the package renames nothing else, and
    renaming a directory is refused here. *)
Definition os_Rename (oldpath newpath : string) : M unit :=
  fun w =>
    match os_fault E "rename" oldpath with
    | Some e => Some (Err e, w)
    | None =>
        match fs w !! oldpath with
        | None => Some (Err (no_such_file "rename" oldpath), w)
        | Some Dir => Some (Err (is_a_directory "rename" oldpath), w)
        | Some (File c) =>
            match fs w !! newpath with
            | Some Dir => Some (Err (file_exists "rename" newpath), w)
            | _ =>
                if String.eqb oldpath newpath then Some (Ok tt, w)
                else Some (Ok tt,
                           set_fs w (<[newpath := File c]> (delete oldpath (fs w))))
            end
        end
    end.

(** [os.Open] followed by reading the whole file. *)
Definition read_file (w : World) (path : string) : Result string :=
  match os_fault E "open" path with
  | Some e => Err e
  | None =>
      match fs w !! path with
      | Some (File c) => Ok c
      | Some Dir => Err (is_a_directory "read" path)
      | None => Err (no_such_file "open" path)
      end
  end.

End OS.

(** ** The package [gdown] *)

(** *** Constants, errors and options *)

Definition CHUNK_SIZE : Z := (512 * 1024)%Z.
Definition MAX_NUMBER_FILES : nat := 50.

(** [ErrFileURLRetrieval] is returned when a file's public URL cannot be
    determined. *)
Definition ErrFileURLRetrieval : error := errors_New "failed to retrieve file URL".

Record DownloadOptions : Type := {
  Quiet : bool;
  Proxy : string;
  Speed : Z;
  UseCookies : bool;
  Verify : bool;
  Resume : bool;
  Fuzzy : bool;
  Format : string;
  UserAgent : string
}.

Record FolderOptions : Type := {
  Options : DownloadOptions;
  RemainingOk : bool
}.

Definition with_UserAgent (opts : DownloadOptions) (ua : string) : DownloadOptions :=
  {| Quiet := Quiet opts; Proxy := Proxy opts; Speed := Speed opts;
     UseCookies := UseCookies opts; Verify := Verify opts; Resume := Resume opts;
     Fuzzy := Fuzzy opts; Format := Format opts; UserAgent := ua |}.

Definition default_UserAgent : string := "Mozilla/5.0 (compatible; gdown-go)".

(** *** Regular expressions of the package

    Each expression of the source is written out as the scan that Go's
    leftmost-first matching performs for it; [FindStringSubmatch] gives the
    whole match followed by the groups, and nothing when there is no
    match. *)
Module Regexp.
Import strings.

(** The leftmost position of [s] at which [here] matches: the search of
    an expression that is not anchored. *)
Fixpoint find_first {A} (here : string -> option A) (s : string) : option A :=
  match here s with
  | Some r => Some r
  | None => match s with EmptyString => None | String _ s' => find_first here s' end
  end.

Definition not_quote (c : ascii) : bool := negb (Ascii.eqb c (ascii_of_nat 34)).
Definition not_lf (c : ascii) : bool := negb (Ascii.eqb c lf).

(** [href=Q(\/uc\?export=download[^Q]+)Q], where Q stands for the double
    quote, tried at the head of [s]. *)
Definition confirm_prefix : string := "/uc?export=download".
Definition confirm_literal : string := "href=" +:+ dq +:+ confirm_prefix.
Definition confirm_here (s : string) : option (list string) :=
  match strip_prefix confirm_literal s with
  | None => None
  | Some rest =>
      match span not_quote rest with
      | (EmptyString, _) => None
      | (run, String _ _) =>
          Some [confirm_literal +:+ run +:+ dq; confirm_prefix +:+ run]
      | (_, EmptyString) => None
      end
  end.
Definition confirm_find (s : string) : option (list string) :=
  find_first confirm_here s.
Definition confirm_FindStringSubmatch (s : string) : list string :=
  default [] (confirm_find s).

(** An anchor of a confirmation page, as text: [html] holds, after
    [pre], an [href] attribute in double quotes whose value is the
    export-download prefix followed by [rest], and [post] follows the
    closing quote. *)
Definition confirmation_anchor (html pre rest post : string) : Prop :=
  html = pre +:+ "href=" +:+ dq +:+ confirm_prefix +:+ rest +:+ dq +:+ post
  /\ all_bytes not_quote rest = true.

(** [filename\*=UTF-8''(.+)] *)
Definition ext_literal : string := "filename*=UTF-8''".
Definition ext_here (s : string) : option (list string) :=
  match strip_prefix ext_literal s with
  | None => None
  | Some rest =>
      match span not_lf rest with
      | (EmptyString, _) => None
      | (run, _) => Some [ext_literal +:+ run; run]
      end
  end.
Definition ext_find (s : string) : option (list string) :=
  find_first ext_here s.
Definition ext_FindStringSubmatch (s : string) : list string :=
  default [] (ext_find s).

(** [attachment; filename=Q(.*?)Q], where Q stands for the double quote. *)
Definition basic_literal : string := "attachment; filename=" +:+ dq.
Definition basic_here (s : string) : option (list string) :=
  match strip_prefix basic_literal s with
  | None => None
  | Some rest =>
      match span (fun c => not_quote c && not_lf c) rest with
      | (run, String c _) =>
          if not_quote c then None
          else Some [basic_literal +:+ run +:+ dq; run]
      | (_, EmptyString) => None
      end
  end.
Definition basic_find (s : string) : option (list string) :=
  find_first basic_here s.
Definition basic_FindStringSubmatch (s : string) : list string :=
  default [] (basic_find s).


(** The path patterns of [ParseUrl],
    [^/KIND/d/(.*?)/(ACTIONS)$] and [^/KIND/u/[0-9]+/d/(.*?)/(ACTIONS)$]. *)
Record path_pattern : Type := {
  pat_kind : string;
  pat_user : bool;
  pat_actions : list string
}.

Definition is_digit (c : ascii) : bool :=
  let n := nat_of_ascii c in (48 <=? n)%nat && (n <=? 57)%nat.

(** The first action [a], in the order of the alternation, with
    [s = "/" ++ a]. *)
Fixpoint action_at_end (actions : list string) (s : string) : option string :=
  match actions with
  | [] => None
  | a :: rest =>
      if String.eqb s ("/" +:+ a) then Some a else action_at_end rest s
  end.

(** [(.*?)/(ACTIONS)$]: the shortest identifier, free of line feeds,
    after which an action ends the text. *)
Fixpoint lazy_id (actions : list string) (s : string) : option (string * string) :=
  match action_at_end actions s with
  | Some a => Some (EmptyString, a)
  | None =>
      match s with
      | EmptyString => None
      | String c s' =>
          if not_lf c then
            match lazy_id actions s' with
            | Some (id, a) => Some (String c id, a)
            | None => None
            end
          else None
      end
  end.

Definition path_FindStringSubmatch (p : path_pattern) (path : string) : list string :=
  match strip_prefix ("/" +:+ pat_kind p +:+ "/") path with
  | None => []
  | Some r1 =>
      let after_user :=
        if pat_user p then
          match strip_prefix "u/" r1 with
          | None => None
          | Some r2 =>
              match span is_digit r2 with
              | (EmptyString, _) => None
              | (_, r3) => strip_prefix "/" r3
              end
          end
        else Some r1 in
      match after_user with
      | None => []
      | Some r4 =>
          match strip_prefix "d/" r4 with
          | None => []
          | Some r5 =>
              match lazy_id (pat_actions p) r5 with
              | Some (id, a) => [path; id; a]
              | None => []
              end
          end
      end
  end.

(** A single-quoted literal: an opening quote, then any number of bytes
    that are neither a quote nor a backslash, or of backslashes followed
    by a byte other than a line feed, in a capturing group, then the
    closing quote.  [quoted_body] reads the literal after its opening
    quote and gives the group and what follows the closing quote. *)
Definition quote : ascii := ascii_of_nat 39.
Definition backslash : ascii := ascii_of_nat 92.
Fixpoint quoted_body (s : string) : option (string * string) :=
  match s with
  | EmptyString => None
  | String c s' =>
      if Ascii.eqb c quote then Some (EmptyString, s')
      else if Ascii.eqb c backslash then
        match s' with
        | EmptyString => None
        | String d s'' =>
            if not_lf d then
              match quoted_body s'' with
              | Some (body, rest) => Some (String c (String d body), rest)
              | None => None
              end
            else None
        end
      else
        match quoted_body s' with
        | Some (body, rest) => Some (String c body, rest)
        | None => None
        end
  end.

(** [FindAllStringSubmatch(s, -1)] for that expression: the first groups
    of the successive matches. *)
Fixpoint quoted_all (fuel : nat) (s : string) : list string :=
  match fuel with
  | O => []
  | S fuel' =>
      match s with
      | EmptyString => []
      | String c s' =>
          if Ascii.eqb c quote then
            match quoted_body s' with
            | Some (body, rest) => body :: quoted_all fuel' rest
            | None => quoted_all fuel' s'
            end
          else quoted_all fuel' s'
      end
  end.
Definition quoted_FindAllStringSubmatch (s : string) : list string :=
  quoted_all (String.length s) s.

(** [ReplaceAllString] of [\\x([0-9A-Fa-f]{2})] by [\u00$1]. *)
Definition is_hex (c : ascii) : bool :=
  let n := nat_of_ascii c in
  is_digit c || ((65 <=? n)%nat && (n <=? 70)%nat) || ((97 <=? n)%nat && (n <=? 102)%nat).
Definition hex_escape_here (s : string) : bool :=
  match s with
  | String b (String x (String h1 (String h2 _))) =>
      Ascii.eqb b backslash && Ascii.eqb x "x"%char && is_hex h1 && is_hex h2
  | _ => false
  end.
(** On a match the backslash is kept, [u00] is written, the [x] is
    dropped ([drop] counts it) and the two digits are copied by the scan
    that goes on: no match can start at a digit. *)
Fixpoint hex_escapes_go (drop : nat) (s : string) : string :=
  match s with
  | EmptyString => EmptyString
  | String c s' =>
      match drop with
      | S k => hex_escapes_go k s'
      | O =>
          if hex_escape_here s
          then String backslash ("u00" +:+ hex_escapes_go 1 s')
          else String c (hex_escapes_go 0 s')
      end
  end.
Definition hex_escapes (s : string) : string := hex_escapes_go 0 s.

End Regexp.

Section Package.
Context (E : Env).

(** *** ThrottledWriter *)

(** An [io.Writer]: [Write p] gives Go's [(n, err)] and acts on the
    world. *)
Definition io_Writer : Type := string -> World -> (Z * option error) * World.

Record ThrottledWriter : Type := {
  writer : io_Writer;
  speed : Z;       (* bytes per second *)
  start : Z;       (* time.Time of the creation, on the world's clock *)
  written : Z
}.

(** Arithmetic of [int64] and of [time.Duration]. *)
Definition wrap64 (z : Z) : Z := ((z + 2 ^ 63) mod 2 ^ 64 - 2 ^ 63)%Z.
Definition Second : Z := 1000000000%Z.

(** [time.Duration(float64(a) / float64(b))]: the quotient of the two
    floats, truncated towards zero.  Below 2^53 both conversions are
    exact and the rounded quotient of two such integers truncates to
    their integer quotient, which is what is written here; larger
    values and a zero [b] are outside the embedding. *)
Definition Duration_of_quotient (a b : Z) : Z := Z.quot a b.

Definition NewThrottledWriter (w : io_Writer) (speed : Z) (world : World)
  : ThrottledWriter :=
  {| writer := w; speed := speed; start := now world; written := 0%Z |}.

Definition ThrottledWriter_Write (tw : ThrottledWriter) (p : string) (w : World)
  : ((Z * option error) * ThrottledWriter) * World :=
  let '((n, err), w1) := writer tw p w in
  let written' := wrap64 (written tw + n)%Z in
  let elapsed := (now w1 - start tw)%Z in
  (* Calculate expected elapsed time *)
  let expected := wrap64 (Duration_of_quotient written' (speed tw) * Second)%Z in
  let w2 :=
    if (expected >? elapsed)%Z
    then set_now w1 (time_Sleep E (now w1) (wrap64 (expected - elapsed)%Z))
    else w1 in
  (((n, err),
    {| writer := writer tw; speed := speed tw; start := start tw;
       written := written' |}),
   w2).

(** What holds between two writes: the time since the start covers the
    whole seconds that the bytes written so far take at the configured
    rate. *)
Definition paced (tw : ThrottledWriter) (w : World) : Prop :=
  (Z.quot (written tw) (speed tw) * Second <= now w - start tw)%Z.

(** *** Helper functions *)

(** [fileExists] returns true if filename exists and is not a directory. *)
Definition fileExists (w : World) (filename : string) : bool :=
  match os_Stat E w filename with
  | Ok info => negb (IsDir info)
  | Err _ => false
  end.

(** [sanitizeFilename] replaces OS path separator characters with
    underscores. *)
Definition sanitizeFilename (name : string) : string :=
  strings.ReplaceAll name (sep E) "_".

(** [getCacheRoot] returns the cache directory for downloads. *)
Definition getCacheRoot : string :=
  match user_Current E with
  | Err _ => "."
  | Ok home => filepath_Join E [home; ".cache"; "gdown"]
  end.

(** *** HTTP client creation; [cookiejar.New(nil)] has no failing path. *)
Definition newHTTPClient (opts : DownloadOptions) : Result http_Client :=
  let make proxy :=
    Ok {| client_Proxy := proxy;
          client_InsecureSkipVerify := negb (Verify opts);
          client_Jar := UseCookies opts |} in
  if String.eqb (Proxy opts) EmptyString then make None
  else
    match url_Parse E (Proxy opts) with
    | Err e => Err e
    | Ok proxyURL => make (Some proxyURL)
    end.

(** [http.NewRequest("GET", url, nil)] parses the URL; [client.Do] sends
    the request and logs it. *)
Definition http_NewRequest (client : http_Client) (urlStr : string)
    (header : list (string * string)) : Result Request :=
  match url_Parse E urlStr with
  | Err e => Err e
  | Ok _ => Ok {| req_client := client; req_url := urlStr; req_header := header |}
  end.
Definition client_Do (req : Request) : M Response :=
  fun w => Some (http_RoundTrip E (requests w) req, log_request w req).
Definition client_Get (client : http_Client) (urlStr : string) : M Response :=
  req <- lift (http_NewRequest client urlStr []);;
  client_Do req.

(** [io.ReadAll(resp.Body)] *)
Definition io_ReadAll (resp : Response) : Result string :=
  match BodyErr resp with
  | Some e => Err e
  | None => Ok (String.concat EmptyString (Body resp))
  end.

(** [io.CopyBuffer(dst, resp.Body, buf)]: every chunk read is written
    to [dst]; a failed or short write stops the copy, and so does the
    error that ends the body. *)
Definition ErrShortWrite : error := lib_error "io" "short write".
Fixpoint io_Copy {W : Type}
    (write : W -> string -> World -> ((Z * option error) * W) * World)
    (dst : W) (chunks : list string) (body_err : option error) : M unit :=
  match chunks with
  | [] => match body_err with Some e => fail e | None => ret tt end
  | chunk :: rest =>
      if String.eqb chunk EmptyString then io_Copy write dst rest body_err
      else
        fun w =>
          let '(((nw, ew), dst'), w') := write dst chunk w in
          match ew with
          | Some e => Some (Err e, w')
          | None =>
              if (nw =? Z.of_nat (String.length chunk))%Z
              then io_Copy write dst' rest body_err w'
              else Some (Err ErrShortWrite, w')
          end
  end.

(** *** MD5 hash functions *)

Definition MD5Sum (w : World) (filename : string) : Result string :=
  match read_file E w filename with
  | Err e => Err e
  | Ok content => Ok (md5_hex E content)
  end.

(** The three errors of [assertFileHash]. *)
Definition invalid_hash_format (expectedHash : string) : error :=
  errors_New ("invalid hash format: " +:+ expectedHash).
Definition unsupported_hash_algorithm (algo : string) : error :=
  errors_New ("unsupported hash algorithm: " +:+ algo).
Definition hash_mismatch (actual expected : string) : error :=
  errors_New ("hash mismatch: actual " +:+ actual +:+ ", expected " +:+ expected).

Definition assertFileHash (filename expectedHash : string) (quiet : bool) : M bool :=
  match strings.SplitN expectedHash ":" 2 with
  | [algo; expected] =>
      if String.eqb algo "md5" then
        w <- get_world;;
        actual <- lift (MD5Sum w filename);;
        if String.eqb actual expected then
          log_unless quiet ("Hash matches: " +:+ actual +:+ " == " +:+ expected);;;
          ret true
        else fail (hash_mismatch actual expected)
      else fail (unsupported_hash_algorithm algo)
  | _ => fail (invalid_hash_format expectedHash)
  end.


(** *** Download *)

(** [getFilenameFromResponse] extracts a filename from the
    Content-Disposition header. *)
Definition getFilenameFromResponse (resp : Response) : string :=
  let cd := Header_Get (Header resp) "Content-Disposition" in
  let basic :=
    match Regexp.basic_FindStringSubmatch cd with
    | [_; name] => sanitizeFilename name
    | _ => "downloaded_file"
    end in
  if String.eqb cd EmptyString then "downloaded_file"
  else
    match Regexp.ext_FindStringSubmatch cd with
    | [_; escaped] =>
        match url_QueryUnescape E escaped with
        | Ok filename => sanitizeFilename filename
        | Err _ => basic
        end
    | _ => basic
    end.


(** [getUrlFromGDriveConfirmation] scans HTML for a confirmation download
    link. *)
Definition getUrlFromGDriveConfirmation (html : string) : Result string :=
  match Regexp.confirm_FindStringSubmatch html with
  | [_; href] =>
      let urlStr := "https://docs.google.com" +:+ href in
      Ok (strings.ReplaceAll urlStr "&amp;" "&")
  | _ => Err ErrFileURLRetrieval
  end.

(** [path] is an existing directory ([os.Stat] succeeds and says so). *)
Definition is_directory (w : World) (path : string) : bool :=
  match os_Stat E w path with
  | Ok fi => IsDir fi
  | Err _ => false
  end.

(** The destination of the payload (the two [if]s on [output] before the
    file is opened). *)
Definition destination (urlStr output : string) (resp : Response) : M string :=
  output1 <- (if String.eqb output EmptyString then
                u <- lift (url_Parse E urlStr);;
                ret (path_Base E (Path u))
              else ret output);;
  w <- get_world;;
  match os_Stat E w output1 with
  | Ok fi =>
      if IsDir fi
      then ret (filepath_Join E [output1; getFilenameFromResponse resp])
      else ret output1
  | Err _ => ret output1
  end.


(** The size to resume from. *)
Definition resume_offset (opts : DownloadOptions) (w : World) (output : string) : Z :=
  if Resume opts && fileExists w output then
    match os_Stat E w output with
    | Ok fi => Size fi
    | Err _ => 0%Z
    end
  else 0%Z.

Definition throttled_write (tw : ThrottledWriter) (p : string) (w : World) :=
  ThrottledWriter_Write tw p w.
Definition plain_write (path : string) (p : string) (w : World)
  : ((Z * option error) * string) * World :=
  let '(r, w') := file_Write E path p w in ((r, path), w').

(** The headers of a request: the user agent and, when there is something
    to resume from, the byte range. *)
Definition request_header (opts : DownloadOptions) (w : World) (output : string)
  : list (string * string) :=
  let startSize := resume_offset opts w output in
  let range :=
    if (startSize >? 0)%Z
    then [("Range", "bytes=" +:+ itoa startSize +:+ "-")] else [] in
  ("User-Agent", UserAgent opts) :: range.

(** One pass of the [for] loop of [Download] per unit of fuel. *)
Fixpoint Download_loop (fuel : nat) (client : http_Client) (opts : DownloadOptions)
    (origUrl urlStr output : string) : M string :=
  match fuel with
  | O => diverge
  | S fuel' =>
      w <- get_world;;
      req <- lift (http_NewRequest client urlStr (request_header opts w output));;
      resp <- client_Do req;;
      (* If HTML, try to extract a confirmation download URL. *)
      let ct := Header_Get (Header resp) "Content-Type" in
      if strings.HasPrefix ct "text/html" then
        bodyBytes <- lift (io_ReadAll resp);;
        newUrl <- lift (getUrlFromGDriveConfirmation bodyBytes);;
        if String.eqb origUrl newUrl then ret output
        else Download_loop fuel' client opts origUrl newUrl output
      else if (StatusCode resp >=? 400)%Z then
        fail (errors_New ("HTTP error: " +:+ Status resp))
      else
        out <- destination urlStr output resp;;
        (* Open file (append if resuming). *)
        (if Resume opts then os_OpenFile_append E out else os_Create E out);;;
        w <- get_world;;
        log_unless (Quiet opts) ("Downloading " +:+ urlStr +:+ " to " +:+ out);;;
        (if (Speed opts >? 0)%Z
         then io_Copy throttled_write
                (NewThrottledWriter (file_Write E out) (Speed opts) w)
                (Body resp) (BodyErr resp)
         else io_Copy plain_write out (Body resp) (BodyErr resp));;;
        ret out
  end.

Definition effective_options (opts : DownloadOptions) : DownloadOptions :=
  if String.eqb (UserAgent opts) EmptyString
  then with_UserAgent opts default_UserAgent else opts.

Definition Download (fuel : nat) (urlStr output : string) (opts : DownloadOptions)
  : M string :=
  let opts := effective_options opts in
  client <- lift (newHTTPClient opts);;
  Download_loop fuel client opts urlStr urlStr output.

(** **** The confirmation loop, pass by pass

    [confirmation_page client opts urlStr output w next w'] : in the world
    [w] the request for [urlStr] is answered by an HTML page whose
    confirmation link is [next]; [w'] is the world after the request. *)
Definition confirmation_page (client : http_Client) (opts : DownloadOptions)
    (urlStr output : string) (w : World) (next : string) (w' : World) : Prop :=
  exists req resp bodyBytes,
    http_NewRequest client urlStr (request_header opts w output) = Ok req
    /\ http_RoundTrip E (requests w) req = Ok resp
    /\ strings.HasPrefix (Header_Get (Header resp) "Content-Type") "text/html" = true
    /\ io_ReadAll resp = Ok bodyBytes
    /\ getUrlFromGDriveConfirmation bodyBytes = Ok next
    /\ w' = log_request w req.



(** *** CachedDownload *)

Definition cache_key (urlStr : string) : string :=
  strings.Replacer_Replace
    [("/", "-SLASH-"); (":", "-COLON-"); ("=", "-EQUAL-"); ("?", "-QUESTION-")]
    urlStr.

Definition cache_path (urlStr outputPath : string) : string :=
  if String.eqb outputPath EmptyString
  then filepath_Join E [getCacheRoot; cache_key urlStr]
  else outputPath.

(** The world once the cache root has been made (the [os.MkdirAll] that
    opens [CachedDownload]). *)
Definition cache_ready (w : World) : World :=
  match os_MkdirAll E getCacheRoot w with
  | Some (_, w') => w'
  | None => w
  end.

(** The second half of [CachedDownload], from [os.MkdirTemp] on: download
    into a private temporary directory, rename into place, verify,
    post-process.  [outputPath] is the cache path already settled. *)
Definition download_into_cache (fuel : nat) (urlStr outputPath hash : string)
    (quiet : bool) (postprocess : option (string -> M unit))
    (opts : DownloadOptions) : M string :=
  tmpDir <- os_MkdirTemp E getCacheRoot "dl";;
  with_defer (os_RemoveAll E tmpDir)
    (let tempPath := filepath_Join E [tmpDir; "dl"] in
     downloadedPath <- Download fuel urlStr tempPath opts;;
     os_Rename E downloadedPath outputPath;;;
     (if String.eqb hash EmptyString then ret tt
      else
        checked <- catch (assertFileHash outputPath hash quiet);;
        match checked with
        | Ok true => ret tt
        | _ => fail (errors_New ("hash mismatch for file " +:+ outputPath))
        end);;;
     match postprocess with
     | Some f => f outputPath
     | None => ret tt
     end;;;
     ret outputPath).

Definition CachedDownload (fuel : nat) (urlStr outputPath hash : string)
    (quiet : bool) (postprocess : option (string -> M unit))
    (opts : DownloadOptions) : M string :=
  _ <- catch (os_MkdirAll E getCacheRoot);;
  let outputPath := cache_path urlStr outputPath in
  w <- get_world;;
  if fileExists w outputPath && String.eqb hash EmptyString then
    log_unless quiet ("File exists: " +:+ outputPath);;;
    ret outputPath
  else if fileExists w outputPath && negb (String.eqb hash EmptyString) then
    checked <- catch (assertFileHash outputPath hash quiet);;
    match checked with
    | Ok true => ret outputPath
    | _ =>
        modify (eprint ("Hash mismatch, redownloading: " +:+ outputPath));;;
        download_into_cache fuel urlStr outputPath hash quiet postprocess opts
    end
  else download_into_cache fuel urlStr outputPath hash quiet postprocess opts.

(** *** URL parsing helpers *)

Definition IsGoogleDriveUrl (urlStr : string) : bool :=
  match url_Parse E urlStr with
  | Err _ => false
  | Ok u =>
      let host := Hostname u in
      String.eqb host "drive.google.com" || String.eqb host "docs.google.com"
  end.

Definition patterns : list Regexp.path_pattern :=
  let doc := ["edit"; "htmlview"; "view"] in
  [ {| Regexp.pat_kind := "file"; Regexp.pat_user := false;
       Regexp.pat_actions := ["edit"; "view"] |};
    {| Regexp.pat_kind := "file"; Regexp.pat_user := true;
       Regexp.pat_actions := ["edit"; "view"] |};
    {| Regexp.pat_kind := "document"; Regexp.pat_user := false;
       Regexp.pat_actions := doc |};
    {| Regexp.pat_kind := "document"; Regexp.pat_user := true;
       Regexp.pat_actions := doc |};
    {| Regexp.pat_kind := "presentation"; Regexp.pat_user := false;
       Regexp.pat_actions := doc |};
    {| Regexp.pat_kind := "presentation"; Regexp.pat_user := true;
       Regexp.pat_actions := doc |};
    {| Regexp.pat_kind := "spreadsheets"; Regexp.pat_user := false;
       Regexp.pat_actions := doc |};
    {| Regexp.pat_kind := "spreadsheets"; Regexp.pat_user := true;
       Regexp.pat_actions := doc |} ].

(** The [for] over the patterns: the first group of the first pattern
    that matches, or the empty string. *)
Fixpoint first_capture (pats : list Regexp.path_pattern) (path : string) : string :=
  match pats with
  | [] => EmptyString
  | pattern :: rest =>
      match Regexp.path_FindStringSubmatch pattern path with
      | _ :: fileId :: _ => fileId
      | _ => first_capture rest path
      end
  end.

Definition direct_link_warning : string :=
  "Warning: You specified a Google Drive link that is not a direct download link. Consider using fuzzy matching.".

(** [ParseUrl] extracts a Google Drive file ID (if any) from the URL.  The
    result is Go's [(fileId, isDownloadLink, err)]. *)
Definition ParseUrl (urlStr : string) (warn : bool) (w : World)
  : (string * bool * option error) * World :=
  match url_Parse E urlStr with
  | Err err => ((EmptyString, false, Some err), w)
  | Ok parsed =>
      let queryParams := Query parsed in
      let isGDrive := IsGoogleDriveUrl urlStr in
      let isDownloadLink := strings.HasSuffix (Path parsed) "/uc" in
      if negb isGDrive then ((EmptyString, false, None), w)
      else if Values.Has queryParams "id" then
        ((Values.Get queryParams "id", isDownloadLink, None), w)
      else
        let fileId := first_capture patterns (Path parsed) in
        let w' :=
          if warn && negb (String.eqb fileId EmptyString) && negb isDownloadLink
          then eprint direct_link_warning w else w in
        ((fileId, isDownloadLink, None), w')
  end.

End Package.

(** *** Google Drive folder download support *)

(** [GoogleDriveFile] represents a file or folder on Google Drive. *)
Inductive GoogleDriveFile : Type :=
| Build_GoogleDriveFile (ID Name Type_ : string) (Children : list GoogleDriveFile).

Definition ID (f : GoogleDriveFile) : string :=
  match f with Build_GoogleDriveFile id _ _ _ => id end.
Definition Name (f : GoogleDriveFile) : string :=
  match f with Build_GoogleDriveFile _ name _ _ => name end.
Definition Type_ (f : GoogleDriveFile) : string :=
  match f with Build_GoogleDriveFile _ _ type _ => type end.
Definition Children (f : GoogleDriveFile) : list GoogleDriveFile :=
  match f with Build_GoogleDriveFile _ _ _ children => children end.

Definition folder_type : string := "application/vnd.google-apps.folder".

Definition IsFolder (f : GoogleDriveFile) : bool := String.eqb (Type_ f) folder_type.

(** [gfile.Children = append(gfile.Children, child)] *)
Definition append_child (gfile child : GoogleDriveFile) : GoogleDriveFile :=
  Build_GoogleDriveFile (ID gfile) (Name gfile) (Type_ gfile) (Children gfile ++ [child]).

(** A row of the folder manifest. *)
Record child_row : Type := { row_ID : string; row_Name : string; row_Type : string }.

(** [FileToDownload] holds information for a file (or folder) within a
    folder. *)
Record FileToDownload : Type := {
  ftd_ID : string;
  ftd_Path : string;       (* relative path within the folder *)
  ftd_LocalPath : string
}.

(** [FileInfo] holds details about a file or folder within a Google Drive
    folder. *)
Record FileInfo : Type := {
  info_ID : string;
  info_Path : string;
  info_DownloadURL : string;   (* non-empty for files; empty for folders *)
  info_IsFolder : bool
}.

Section Folders.
Context (E : Env).

(** [decodeUnicodeEscapes] converts any \xHH sequences into \u00HH
    sequences and then decodes the result as a JSON string literal. *)
Definition decodeUnicodeEscapes (s : string) : Result string :=
  let s := Regexp.hex_escapes s in
  let quoted := strings.dq +:+ s +:+ strings.dq in
  match json_Unmarshal E quoted with
  | Err e => Err e
  | Ok (JString decoded) => Ok decoded
  | Ok JNull => Ok EmptyString
  | Ok _ => Err (lib_error "json" "cannot unmarshal into Go value of type string")
  end.

(** The [EachWithBreak] over the script elements: the second quoted
    literal of the first script that holds the marker and has two. *)
Fixpoint find_encodedData (scripts : list string) : string :=
  match scripts with
  | [] => EmptyString
  | rawHTML :: rest =>
      let htmlContent := html_UnescapeString E rawHTML in
      if strings.Contains htmlContent "_DRIVE_ivd" then
        match Regexp.quoted_FindAllStringSubmatch htmlContent with
        | _ :: second :: _ => second
        | _ => find_encodedData rest
        end
      else find_encodedData rest
  end.

Definition as_string (j : JSON) : string :=
  match j with JString s => s | _ => EmptyString end.

(** The rows of at least four elements. *)
Fixpoint manifest_rows (items : list JSON) : list child_row :=
  match items with
  | [] => []
  | JArray (id :: second :: name :: typ :: _) :: rest =>
      {| row_ID := as_string id; row_Name := as_string name; row_Type := as_string typ |}
        :: manifest_rows rest
  | _ :: rest => manifest_rows rest
  end.

(** [parseGoogleDriveFile] parses HTML content to extract folder
    information. *)
Definition parseGoogleDriveFile (urlStr content : string)
  : Result (GoogleDriveFile * list child_row) :=
  match goquery_NewDocument E content with
  | Err e => Err e
  | Ok doc =>
      let encodedData := find_encodedData (doc_scripts doc) in
      if String.eqb encodedData EmptyString then
        Err (errors_New "could not find the folder encoded JS string")
      else
        match decodeUnicodeEscapes encodedData with
        | Err e => Err (fmt_Errorf_w "couldn't decode unicode escapes: " e)
        | Ok decoded =>
            let unmarshalled :=
              match json_Unmarshal E decoded with
              | Err e => Err e
              | Ok (JArray items) => Ok items
              | Ok JNull => Ok []
              | Ok _ => Err (lib_error "json" "cannot unmarshal into Go value of type []interface {}")
              end in
            match unmarshalled with
            | Err e => Err e
            | Ok folderArr =>
                let folderContents :=
                  match folderArr with
                  | JArray arr :: _ => arr
                  | _ => []
                  end in
                let title := doc_title doc in
                let parts := strings.Split title " - " in
                if (length parts <? 2)%nat then
                  Err (errors_New ("folder name cannot be extracted from title: " +:+ title))
                else
                  let name := strings.Join (removelast parts) " - " in
                  Ok (Build_GoogleDriveFile (path_Base E urlStr) name folder_type [],
                      manifest_rows folderContents)
            end
        end
  end.

(** The node attached for a row that is not a folder. *)
Definition leaf_of_row (child : child_row) : GoogleDriveFile :=
  Build_GoogleDriveFile (row_ID child) (row_Name child) (row_Type child) [].

(** What a row contributes to its folder: its leaf, or what [resolve]
    returned for its sub-folder. *)
Definition child_of_row (resolve : string -> M GoogleDriveFile)
    (child : child_row) (node : GoogleDriveFile) : Prop :=
  if String.eqb (row_Type child) folder_type
  then exists w w',
      resolve ("https://drive.google.com/drive/folders/" +:+ row_ID child) w
      = Some (Ok node, w')
  else node = leaf_of_row child.

(** The [for] over the children of a folder page; [resolve] is the
    recursive call for a sub-folder. *)
Fixpoint attach_children (resolve : string -> M GoogleDriveFile) (quiet : bool)
    (children : list child_row) (gfile : GoogleDriveFile) : M GoogleDriveFile :=
  match children with
  | [] => ret gfile
  | child :: rest =>
      if negb (String.eqb (row_Type child) folder_type) then
        log_unless quiet ("Processing file " +:+ row_ID child +:+ " " +:+ row_Name child);;;
        let childFile := leaf_of_row child in
        attach_children resolve quiet rest (append_child gfile childFile)
      else
        log_unless quiet ("Retrieving folder " +:+ row_ID child +:+ " " +:+ row_Name child);;;
        let subUrl := "https://drive.google.com/drive/folders/" +:+ row_ID child in
        subFolder <- resolve subUrl;;
        attach_children resolve quiet rest (append_child gfile subFolder)
  end.

(** The URL that is fetched for a folder: with the language hint. *)
Definition with_language_hint (urlStr : string) : string :=
  if IsGoogleDriveUrl E urlStr then
    if strings.Contains urlStr "?" then urlStr +:+ "&hl=en" else urlStr +:+ "?hl=en"
  else urlStr.

(** [folder_page client urlStr w gfile children w'] : in the world [w] the
    page of the folder at [urlStr] is fetched with status 200 and parses
    into the node [gfile] and the rows [children]; [w'] is the world after
    the request. *)
Definition folder_page (client : http_Client) (urlStr : string) (w : World)
    (gfile : GoogleDriveFile) (children : list child_row) (w' : World) : Prop :=
  exists resp bodyStr,
    client_Get E client (with_language_hint urlStr) w = Some (Ok resp, w')
    /\ StatusCode resp = 200%Z
    /\ io_ReadAll resp = Ok bodyStr
    /\ parseGoogleDriveFile (with_language_hint urlStr) bodyStr = Ok (gfile, children).

(** [downloadAndParseGoogleDriveLink] retrieves and parses a folder page;
    one unit of fuel per level of nesting. *)
Fixpoint downloadAndParseGoogleDriveLink (fuel : nat) (client : http_Client)
    (quiet remainingOk verify : bool) (urlStr : string) : M GoogleDriveFile :=
  match fuel with
  | O => diverge
  | S fuel' =>
      let urlStr := with_language_hint urlStr in
      resp <- client_Get E client urlStr;;
      if negb (StatusCode resp =? 200)%Z then
        fail (errors_New ("failed to retrieve folder contents, status: " +:+ Status resp))
      else
        bodyStr <- lift (io_ReadAll resp);;
        parsed <- lift (parseGoogleDriveFile urlStr bodyStr);;
        let '(gfile, children) := parsed in
        gfile <- attach_children
                   (downloadAndParseGoogleDriveLink fuel' client quiet remainingOk verify)
                   quiet children gfile;;
        if (length (Children gfile) =? MAX_NUMBER_FILES)%nat && negb remainingOk then
          fail (errors_New ("folder has more than " +:+ itoa (Z.of_nat MAX_NUMBER_FILES) +:+ " files"))
        else ret gfile
  end.

Fixpoint getDirectoryStructure (gfile : GoogleDriveFile) (prevPath : string)
  : list FileToDownload :=
  match gfile with
  | Build_GoogleDriveFile _ _ _ children =>
      flat_map
        (fun child =>
           let safeName := strings.ReplaceAll (Name child) (sep E) "_" in
           if IsFolder child then
             let newPath := filepath_Join E [prevPath; safeName] in
             (* Directory entry (ID empty) *)
             {| ftd_ID := EmptyString; ftd_Path := newPath; ftd_LocalPath := newPath |}
               :: getDirectoryStructure child newPath
           else
             let filePath := filepath_Join E [prevPath; safeName] in
             [{| ftd_ID := ID child; ftd_Path := filePath; ftd_LocalPath := EmptyString |}])
        children
  end.

(** **** The shape of the flattened list

    A node below the root is named by its address, the positions of the
    children passed on the way down.  The walk leaves the root through any
    child and goes below folders only. *)
Fixpoint node_at (g : GoogleDriveFile) (addr : list nat) : option GoogleDriveFile :=
  match addr with
  | [] => Some g
  | i :: rest =>
      match Children g !! i with
      | None => None
      | Some c =>
          match rest with
          | [] => Some c
          | _ => if IsFolder c then node_at c rest else None
          end
      end
  end.

Definition safe_name (child : GoogleDriveFile) : string :=
  strings.ReplaceAll (Name child) (sep E) "_".

(** The relative path accumulated on the way to an address. *)
Fixpoint path_at (g : GoogleDriveFile) (prevPath : string) (addr : list nat) : string :=
  match addr with
  | [] => prevPath
  | i :: rest =>
      match Children g !! i with
      | None => prevPath
      | Some c => path_at c (filepath_Join E [prevPath; safe_name c]) rest
      end
  end.

(** The entry of a node that sits at [path]. *)
Definition entry_of (path : string) (node : GoogleDriveFile) : FileToDownload :=
  if IsFolder node
  then {| ftd_ID := EmptyString; ftd_Path := path; ftd_LocalPath := path |}
  else {| ftd_ID := ID node; ftd_Path := path; ftd_LocalPath := EmptyString |}.

(** What one child contributes: the body of the [for] loop. *)
Definition child_entries (prevPath : string) (child : GoogleDriveFile)
  : list FileToDownload :=
  let path := filepath_Join E [prevPath; safe_name child] in
  if IsFolder child
  then entry_of path child :: getDirectoryStructure child path
  else [entry_of path child].

(** The position, in the flattened list, of the entry of the node at an
    address: behind everything the earlier siblings contribute and, below a
    folder, behind the folder's own entry. *)
Fixpoint entry_index (g : GoogleDriveFile) (prevPath : string) (addr : list nat)
  : option nat :=
  match addr with
  | [] => None
  | i :: rest =>
      match Children g !! i with
      | None => None
      | Some c =>
          let before := length (flat_map (child_entries prevPath) (take i (Children g))) in
          match rest with
          | [] => Some before
          | _ =>
              if IsFolder c then
                match entry_index c (filepath_Join E [prevPath; safe_name c]) rest with
                | Some k => Some (before + 1 + k)%nat
                | None => None
                end
              else None
          end
      end
  end.

Definition folder_url (id : string) : string :=
  "https://drive.google.com/drive/folders/" +:+ id.
Definition file_url (id : string) : string :=
  "https://drive.google.com/uc?id=" +:+ id.

Definition with_folder_UserAgent (opts : FolderOptions) : FolderOptions :=
  if String.eqb (UserAgent (Options opts)) EmptyString
  then {| Options := with_UserAgent (Options opts) default_UserAgent;
          RemainingOk := RemainingOk opts |}
  else opts.

Definition to_info (f : FileToDownload) : FileInfo :=
  if String.eqb (ftd_ID f) EmptyString then
    {| info_ID := ftd_ID f; info_Path := ftd_Path f;
       info_DownloadURL := EmptyString; info_IsFolder := true |}
  else
    {| info_ID := ftd_ID f; info_Path := ftd_Path f;
       info_DownloadURL := file_url (ftd_ID f); info_IsFolder := false |}.

(** [ListFolder] retrieves a folder's structure and returns a list of
    entries.  Either [urlStr] or [id] must be specified (but not
    both). *)
Definition ListFolder (fuel : nat) (urlStr id : string) (opts : FolderOptions)
  : M (list FileInfo) :=
  if (String.eqb id EmptyString && String.eqb urlStr EmptyString)
     || (negb (String.eqb id EmptyString) && negb (String.eqb urlStr EmptyString))
  then fail (errors_New "either url or id must be specified")
  else
    let urlStr := if negb (String.eqb id EmptyString) then folder_url id else urlStr in
    let opts := with_folder_UserAgent opts in
    client <- lift (newHTTPClient E (Options opts));;
    log_unless (Quiet (Options opts)) "Retrieving folder contents";;;
    gfile <- downloadAndParseGoogleDriveLink fuel client (Quiet (Options opts))
               (RemainingOk opts) (Verify (Options opts)) urlStr;;
    let filesToDownload := getDirectoryStructure gfile EmptyString in
    ret (map to_info filesToDownload).

(** The [for] over the flattened entries in [DownloadFolder]. *)
Fixpoint download_entries (fuel : nat) (opts : FolderOptions) (rootDir : string)
    (files : list FileToDownload) (downloadedFiles : list string) : M (list string) :=
  match files with
  | [] => ret downloadedFiles
  | f :: rest =>
      let localPath := filepath_Join E [rootDir; ftd_Path f] in
      if String.eqb (ftd_ID f) EmptyString then (* folder *)
        _ <- catch (os_MkdirAll E localPath);;
        download_entries fuel opts rootDir rest downloadedFiles
      else
        w <- get_world;;
        if Resume (Options opts) && fileExists E w localPath then
          log_unless (Quiet (Options opts))
            ("Skipping already downloaded file " +:+ localPath);;;
          download_entries fuel opts rootDir rest (downloadedFiles ++ [localPath])
        else
          let fileUrl := file_url (ftd_ID f) in
          downloaded <- Download E fuel fileUrl localPath (Options opts);;
          download_entries fuel opts rootDir rest (downloadedFiles ++ [downloaded])
  end.

Definition DownloadFolder (fuel : nat) (urlStr id output : string)
    (opts : FolderOptions) : M (list string) :=
  if (String.eqb id EmptyString && String.eqb urlStr EmptyString)
     || (negb (String.eqb id EmptyString) && negb (String.eqb urlStr EmptyString))
  then fail (errors_New "either url or id must be specified")
  else
    let urlStr := if negb (String.eqb id EmptyString) then folder_url id else urlStr in
    let opts := with_folder_UserAgent opts in
    let quiet := Quiet (Options opts) in
    client <- lift (newHTTPClient E (Options opts));;
    log_unless quiet "Retrieving folder contents";;;
    resolved <- catch (downloadAndParseGoogleDriveLink fuel client quiet
                         (RemainingOk opts) (Verify (Options opts)) urlStr);;
    match resolved with
    | Err err =>
        modify (eprint "Failed to retrieve folder contents");;;
        fail err
    | Ok gfile =>
        log_unless quiet "Building directory structure";;;
        let filesToDownload := getDirectoryStructure gfile EmptyString in
        let output :=
          if String.eqb output EmptyString then os_Getwd E +:+ sep E else output in
        let rootDir :=
          if strings.HasSuffix output (sep E)
          then filepath_Join E [output; Name gfile] else output in
        log_unless quiet ("Creating directory " +:+ rootDir);;;
        _ <- catch (os_MkdirAll E rootDir);;
        downloadedFiles <- download_entries fuel opts rootDir filesToDownload [];;
        log_unless quiet "Download completed";;;
        ret downloadedFiles
    end.

End Folders.


(** *** Archive extraction *)

(** An entry of an opened zip archive: its name, whether its file info
    says it is a directory, and what opening and reading it gives (an
    error at opening, or the chunks of the content, optionally cut short by
    an error). *)
Record zip_File : Type := {
  zf_Name : string;
  zf_IsDir : bool;
  zf_Open : Result (list string * option error)
}.

(** What [Next] of a tar reader yields, with what reading the entry then
    gives. *)
Record tar_Header : Type := {
  th_Name : string;
  th_Typeflag : ascii;
  th_Body : list string;
  th_BodyErr : option error
}.

Definition tar_TypeReg : ascii := "0"%char.
Definition tar_TypeDir : ascii := "5"%char.

(** What a tar reader reads from: the bytes of the archive, or those
    bytes through a gzip reader. *)
Inductive tar_source : Type :=
| plain_tar (bytes : string)
| gzipped_tar (bytes : string).

(** The archive libraries and [filepath.Dir].  An archive is read as the
    bytes it holds when it is opened: [zip_NewReader] gives the entries of
    the central directory, [gzip_NewReader] the error of a bad gzip header,
    and [tar_NewReader] the headers that the successive calls of [Next]
    yield, ended by [io.EOF] (no error) or by an error. *)
Record Archives : Type := {
  filepath_Dir : string -> string;
  zip_NewReader : string -> Result (list zip_File);
  gzip_NewReader : string -> option error;
  tar_NewReader : tar_source -> list tar_Header * option error
}.

Section Extraction.
Context (E : Env) (A : Archives).

(** The [for] over the entries of a zip archive.  The file is opened with
    [O_WRONLY|O_CREATE|O_TRUNC], which creates or truncates as [os.Create]
    does (permission bits are not part of the world). *)
Fixpoint extract_zip (to : string) (files : list zip_File) (extractedFiles : list string)
  : M (list string) :=
  match files with
  | [] => ret extractedFiles
  | f :: rest =>
      let fpath := filepath_Join E [to; zf_Name f] in
      if zf_IsDir f then
        _ <- catch (os_MkdirAll E fpath);;
        extract_zip to rest extractedFiles
      else
        _ <- catch (os_MkdirAll E (filepath_Dir A fpath));;
        os_Create E fpath;;;
        rc <- lift (zf_Open f);;
        io_Copy (plain_write E) fpath (fst rc) (snd rc);;;
        extract_zip to rest (extractedFiles ++ [fpath])
  end.

(** The [for] over the headers of a tar archive; [stop] is what ends the
    headers. *)
Fixpoint extract_tar (to : string) (headers : list tar_Header) (stop : option error)
    (extractedFiles : list string) : M (list string) :=
  match headers with
  | [] =>
      match stop with
      | None => ret extractedFiles
      | Some err => fail err
      end
  | header :: rest =>
      let fpath := filepath_Join E [to; th_Name header] in
      if Ascii.eqb (th_Typeflag header) tar_TypeDir then
        _ <- catch (os_MkdirAll E fpath);;
        extract_tar to rest stop extractedFiles
      else if Ascii.eqb (th_Typeflag header) tar_TypeReg then
        _ <- catch (os_MkdirAll E (filepath_Dir A fpath));;
        os_Create E fpath;;;
        io_Copy (plain_write E) fpath (th_Body header) (th_BodyErr header);;;
        extract_tar to rest stop (extractedFiles ++ [fpath])
      else extract_tar to rest stop extractedFiles
  end.

Definition unsupported_archive_format (archivePath : string) : error :=
  errors_New ("unsupported archive format: " +:+ archivePath).

Definition ExtractAll (archivePath to : string) : M (list string) :=
  let to := if String.eqb to EmptyString then filepath_Dir A archivePath else to in
  if strings.HasSuffix archivePath ".zip" then
    w <- get_world;;
    content <- lift (read_file E w archivePath);;
    files <- lift (zip_NewReader A content);;
    extract_zip to files []
  else if strings.HasSuffix archivePath ".tar"
          || strings.HasSuffix archivePath ".tar.gz"
          || strings.HasSuffix archivePath ".tgz" then
    w <- get_world;;
    content <- lift (read_file E w archivePath);;
    source <- (if strings.HasSuffix archivePath ".tar" then ret (plain_tar content)
               else
                 match gzip_NewReader A content with
                 | Some err => fail err
                 | None => ret (gzipped_tar content)
                 end);;
    let '(headers, stop) := tar_NewReader A source in
    extract_tar to headers stop []
  else fail (unsupported_archive_format archivePath).

End Extraction.


(** ** A sample environment

    Simple stand-ins for the oracles, to run the package on concrete
    inputs: URLs of the form [scheme://host/path?query], slash-separated
    paths, a system that refuses nothing and a clock on which a sleep
    takes exactly its duration.  The network, the HTML parser and the JSON
    decoder are given as tables. *)
Module Sample.
Import strings.

Definition add_value (m : gmap string (list string)) (piece : string)
  : gmap string (list string) :=
  let '(k, v) := match Cut piece "=" with
                 | Some (k, v) => (k, v)
                 | None => (piece, EmptyString)
                 end in
  <[k := default [] (m !! k) ++ [v]]> m.

Definition query (raw : string) : gmap string (list string) :=
  if String.eqb raw EmptyString then ∅
  else fold_left add_value (Split raw "&") ∅.

Definition parse (s : string) : Result URL :=
  match Cut s "://" with
  | None => Err (lib_error "net/url" ("parse " +:+ s +:+ ": unsupported by the sample"))
  | Some (_, rest) =>
      let '(hostpath, raw) := match Cut rest "?" with
                              | Some (a, b) => (a, b)
                              | None => (rest, EmptyString)
                              end in
      match Cut hostpath "/" with
      | Some (host, p) =>
          Ok {| Hostname := host; Path := "/" +:+ p; Query := query raw |}
      | None => Ok {| Hostname := hostpath; Path := EmptyString; Query := query raw |}
      end
  end.

Definition unescape (s : string) : Result string :=
  if Contains s "%" then Err (lib_error "net/url" "invalid URL escape")
  else Ok (ReplaceAll s "+" " ").

Definition base (s : string) : string :=
  if String.eqb s EmptyString then "." else List.last (Split s "/") EmptyString.

Definition join (elems : list string) : string :=
  Join (List.filter (fun e => negb (String.eqb e EmptyString)) elems) "/".

Definition env
    (server : list Request -> Request -> Result Response)
    (pages : string -> Result HtmlDoc)
    (json : string -> Result JSON) : Env :=
  {| url_Parse := parse;
     url_QueryUnescape := unescape;
     path_Base := base;
     filepath_Join := join;
     os_PathSeparator := "/"%char;
     user_Current := Ok "/home/user";
     os_Getwd := "/work";
     http_RoundTrip := server;
     md5_hex := fun content => "digest-of-" +:+ content;
     goquery_NewDocument := pages;
     html_UnescapeString := fun s => s;
     json_Unmarshal := json;
     os_fault := fun _ _ => None;
     temp_name := fun f dir pattern =>
                    join [dir; pattern +:+ itoa (Z.of_nat (size f))];
     time_Sleep := fun t d => (t + d)%Z |}.

Definition unreachable : list Request -> Request -> Result Response :=
  fun _ _ => Err (lib_error "net/http" "no route to host").
Definition no_pages : string -> Result HtmlDoc :=
  fun _ => Err (lib_error "goquery" "no document").
Definition no_json : string -> Result JSON :=
  fun _ => Err (lib_error "json" "unexpected end of JSON input").

(** A server that answers every request with the same payload. *)
Definition octets (chunks : list string) : Response :=
  {| StatusCode := 200; Status := "200 OK";
     Header := {[ "Content-Type" := "application/octet-stream" ]};
     Body := chunks; BodyErr := None |}.
Definition file_server (chunks : list string)
  : list Request -> Request -> Result Response :=
  fun _ _ => Ok (octets chunks).
Definition serving (chunks : list string) : Env :=
  env (file_server chunks) no_pages no_json.

Definition plain_options : DownloadOptions :=
  {| Quiet := true; Proxy := EmptyString; Speed := 0%Z; UseCookies := true;
     Verify := true; Resume := false; Fuzzy := false; Format := EmptyString;
     UserAgent := EmptyString |}.

(** A server that keeps answering with confirmation pages: the first
    links somewhere else, the later ones link to [uc?export=download&id=0]. *)
Definition confirmation (id : string) : Response :=
  {| StatusCode := 200; Status := "200 OK";
     Header := {[ "Content-Type" := "text/html; charset=utf-8" ]};
     Body := ["<html><a href=" +:+ dq +:+ "/uc?export=download&amp;id=" +:+ id
              +:+ dq +:+ ">Download anyway</a></html>"];
     BodyErr := None |}.

(** A server whose answer names the file both ways. *)
Definition attachment : Response :=
  {| StatusCode := 200; Status := "200 OK";
     Header := {[ "Content-Type" := "application/pdf";
                  "Content-Disposition" :=
                    "attachment; filename=" +:+ dq +:+ "plain.pdf" +:+ dq
                    +:+ "; filename*=UTF-8''my/re+port.pdf" ]};
     Body := ["%PDF"]; BodyErr := None |}.
Definition attaching : Env := env (fun _ _ => Ok attachment) no_pages no_json.

(** A shared folder of [n] plain files: the page is one script with the
    marker and the manifest, the manifest is a JSON string that decodes to
    the rows. *)
Definition folder_script : string :=
  "window['_DRIVE_ivd'] = 'MANIFEST';".
Definition folder_document (body : string) : Result HtmlDoc :=
  Ok {| doc_scripts := ["var ignored = 1;"; folder_script];
        doc_title := "shared - Google Drive" |}.
Definition manifest_row : JSON :=
  JArray [JString "id1"; JNull; JString "report.txt"; JString "text/plain"].
Definition folder_json (n : nat) (text : string) : Result JSON :=
  if String.eqb text (dq +:+ "MANIFEST" +:+ dq) then Ok (JString "ROWS")
  else if String.eqb text "ROWS" then Ok (JArray [JArray (List.repeat manifest_row n)])
  else Err (lib_error "json" "invalid character").
Definition folder_of (n : nat) : Env :=
  env (file_server ["<html>"]) folder_document (folder_json n).
Definition plain_client : http_Client :=
  {| client_Proxy := None; client_InsecureSkipVerify := false; client_Jar := true |}.
Definition folder_options (remainingOk : bool) : FolderOptions :=
  {| Options := plain_options; RemainingOk := remainingOk |}.

(** A server whose answer names the file in the basic form only. *)
Definition quoted_attachment : Response :=
  {| StatusCode := 200; Status := "200 OK";
     Header := {[ "Content-Type" := "application/pdf";
                  "Content-Disposition" :=
                    "attachment; filename=" +:+ dq +:+ "a/b.pdf" +:+ dq ]};
     Body := ["%PDF"]; BodyErr := None |}.

(** A world whose cache already holds the download of [http://host/a]. *)
Definition cached_world : World :=
  {| fs := {[ "/home/user/.cache/gdown/http-COLON--SLASH--SLASH-host-SLASH-a"
              := File "cached" ]};
     requests := []; stderr := []; now := 0%Z |}.

(** A server all of whose confirmation pages link to
    [uc?export=download&id=1]. *)
Definition elsewhere : Env := env (fun _ _ => Ok (confirmation "1")) no_pages no_json.

Definition payload (n : nat) : string :=
  String.concat EmptyString (List.repeat "x" n).
Definition throttled (bytes_per_second : Z) : DownloadOptions :=
  {| Quiet := true; Proxy := EmptyString; Speed := bytes_per_second;
     UseCookies := true; Verify := true; Resume := false; Fuzzy := false;
     Format := EmptyString; UserAgent := EmptyString |}.

(** An environment without network. *)
Definition offline : Env := env unreachable no_pages no_json.

Definition empty_world : World :=
  {| fs := ∅; requests := []; stderr := []; now := 0%Z |}.

(** A shared folder: a sub-folder with one file, and a file next to it. *)
Definition leaf (id name : string) : GoogleDriveFile :=
  Build_GoogleDriveFile id name "text/plain" [].
Definition tree : GoogleDriveFile :=
  Build_GoogleDriveFile "root" "shared" folder_type
    [ Build_GoogleDriveFile "d1" "docs" folder_type [leaf "f1" "a/b.txt"];
      leaf "f2" "report.txt" ].

End Sample.

(** ** Further notions used by the properties below *)

(** The path templates of [ParseUrl]: [/KIND/d/ID/ACTION], or
    [/KIND/u/N/d/ID/ACTION] with a user index [N]. *)
Definition template_kinds : list string :=
  ["file"; "document"; "presentation"; "spreadsheets"].
Definition template_actions (kind : string) : list string :=
  if String.eqb kind "file" then ["edit"; "view"] else ["edit"; "htmlview"; "view"].
Definition template_path (kind : string) (user : option string) (id action : string)
  : string :=
  "/" +:+ kind
  +:+ match user with Some n => "/u/" +:+ n | None => EmptyString end
  +:+ "/d/" +:+ id +:+ "/" +:+ action.

(** What [cache_key] writes for one byte of the URL. *)
Definition key_bytes (c : ascii) : string :=
  if Ascii.eqb c "/" then "-SLASH-"
  else if Ascii.eqb c ":" then "-COLON-"
  else if Ascii.eqb c "=" then "-EQUAL-"
  else if Ascii.eqb c "?" then "-QUESTION-"
  else String c EmptyString.

(** A computation that, whenever it returns, leaves the world related by
    [R] to the world it started in. *)
Definition preserves {A} (R : World -> World -> Prop) (c : M A) : Prop :=
  forall w r w', c w = Some (r, w') -> R w w'.

(** Worlds with the same request log; with the same file system. *)
Definition same_requests (w w' : World) : Prop := requests w' = requests w.
Definition same_fs (w w' : World) : Prop := fs w' = fs w.



(** The part of a pass of [Download] that follows an answer which is
    neither an HTML page nor an error: the destination is settled, the file
    is opened and the body is copied into it. *)
Definition write_payload (E : Env) (opts : DownloadOptions) (urlStr output : string)
    (resp : Response) : M string :=
  out <- destination E urlStr output resp;;
  (if Resume opts then os_OpenFile_append E out else os_Create E out);;;
  w <- get_world;;
  log_unless (Quiet opts) ("Downloading " +:+ urlStr +:+ " to " +:+ out);;;
  (if (Speed opts >? 0)%Z
   then io_Copy (throttled_write E)
          (NewThrottledWriter (file_Write E out) (Speed opts) w)
          (Body resp) (BodyErr resp)
   else io_Copy (plain_write E) out (Body resp) (BodyErr resp));;;
  ret out.

(** The request that [Download] sends for [urlStr] in the world [w]. *)
Definition sent_request (E : Env) (client : http_Client) (opts : DownloadOptions)
    (w : World) (urlStr output : string) : Request :=
  {| req_client := client; req_url := urlStr;
     req_header := request_header E opts w output |}.

(** Worlds of which the second has everything the first has: the same
    requests, output and time, and every entry of the file system still
    there and of the same kind (a file may have new content). *)
Definition is_dir (x : node) : bool :=
  match x with
  | Dir => true
  | File _ => false
  end.
Definition only_adds (w w' : World) : Prop :=
  requests w' = requests w /\ stderr w' = stderr w /\ now w' = now w
  /\ forall p x, fs w !! p = Some x -> exists y, fs w' !! p = Some y /\ is_dir y = is_dir x.

(** Where an archive is extracted, and the paths of its regular entries
    there, in the order of the archive. *)
Definition extraction_root (A : Archives) (archivePath to : string) : string :=
  if String.eqb to EmptyString then filepath_Dir A archivePath else to.
Definition zip_members (E : Env) (to : string) (files : list zip_File) : list string :=
  map (fun f => filepath_Join E [to; zf_Name f])
    (List.filter (fun f => negb (zf_IsDir f)) files).
Definition tar_members (E : Env) (to : string) (headers : list tar_Header) : list string :=
  map (fun h => filepath_Join E [to; th_Name h])
    (List.filter (fun h => Ascii.eqb (th_Typeflag h) tar_TypeReg) headers).

(** The extensions that [ExtractAll] knows. *)
Definition known_archive (archivePath : string) : bool :=
  strings.HasSuffix archivePath ".zip"
  || strings.HasSuffix archivePath ".tar"
  || strings.HasSuffix archivePath ".tar.gz"
  || strings.HasSuffix archivePath ".tgz".

(** More sample answers. *)
Module Cases.

Definition not_found : Response :=
  {| StatusCode := 404; Status := "404 Not Found";
     Header := {[ "Content-Type" := "text/plain" ]};
     Body := ["gone"]; BodyErr := None |}.

Definition error_page : Response :=
  {| StatusCode := 500; Status := "500 Internal Server Error";
     Header := {[ "Content-Type" := "text/html" ]};
     Body := ["<html><body>Sorry</body></html>"]; BodyErr := None |}.

Definition answering (resp : Response) : Env :=
  Sample.env (fun _ _ => Ok resp) Sample.no_pages Sample.no_json.

Definition request (urlStr : string) (header : list (string * string)) : Request :=
  {| req_client := Sample.plain_client; req_url := urlStr; req_header := header |}.

Definition resuming : DownloadOptions :=
  {| Quiet := true; Proxy := EmptyString; Speed := 0%Z; UseCookies := true;
     Verify := true; Resume := true; Fuzzy := false; Format := EmptyString;
     UserAgent := "curl/8" |}.


Definition with_file (path content : string) : World :=
  {| fs := {[ path := File content ]}; requests := []; stderr := []; now := 0%Z |}.

(** A folder page with a title of one's choice. *)
Definition titled (title : string) : Env :=
  Sample.env (Sample.file_server ["<html>"])
    (fun _ => Ok {| doc_scripts := [Sample.folder_script]; doc_title := title |})
    (Sample.folder_json 1).

Definition reports_folder : GoogleDriveFile :=
  Build_GoogleDriveFile "folders" "Q3 - reports" folder_type [].

(** A shared folder with a sub-folder: the server answers a request by
    the URL asked for, the page of a URL carries that URL as its manifest,
    and the manifest of a URL is looked up in a table. *)
Definition row (id name type : string) : JSON :=
  JArray [JString id; JNull; JString name; JString type].
Definition nested_json (text : string) : Result JSON :=
  match strings.strip_prefix strings.dq text with
  | Some rest => Ok (JString (String.substring 0 (String.length rest - 1) rest))
  | None =>
      if String.eqb text "https://host/folders/root" then
        Ok (JArray [JArray [row "sub" "docs" folder_type;
                            row "f2" "report.txt" "text/plain"]])
      else if String.eqb text "https://drive.google.com/drive/folders/sub?hl=en" then
        Ok (JArray [JArray [row "f1" "a.txt" "text/plain"]])
      else Err (lib_error "json" "invalid character")
  end.
Definition nested : Env :=
  Sample.env (fun _ req => Ok (Sample.octets [req_url req]))
    (fun body => Ok {| doc_scripts := ["window['_DRIVE_ivd'] = '" +:+ body +:+ "';"];
                       doc_title := "shared - Google Drive" |})
    nested_json.

(** The tree of that folder. *)
Definition nested_tree : GoogleDriveFile :=
  Build_GoogleDriveFile "root" "shared" folder_type
    [ Build_GoogleDriveFile "sub?hl=en" "shared" folder_type
        [Build_GoogleDriveFile "f1" "a.txt" "text/plain" []];
      Build_GoogleDriveFile "f2" "report.txt" "text/plain" [] ].

(** Resuming the download of that folder into [out], where its two files
    already are. *)
Definition resuming_folder : FolderOptions :=
  {| Options := resuming; RemainingOk := false |}.
Definition downloaded : World :=
  {| fs := {[ "out" := Dir; "out/shared" := Dir;
              "out/shared/a.txt" := File "A"; "out/report.txt" := File "R" ]};
     requests := []; stderr := []; now := 0%Z |}.

(** Archives: [filepath.Dir] for slash-separated paths, one zip archive
    and one tar archive, the latter also behind a gzip header. *)
Definition dir (s : string) : string :=
  match removelast (strings.Split s "/") with
  | [] => "."
  | parts =>
      let d := strings.Join parts "/" in
      if String.eqb d EmptyString then "/" else d
  end.
Definition zipped : list zip_File :=
  [ {| zf_Name := "docs/"; zf_IsDir := true; zf_Open := Ok ([], None) |};
    {| zf_Name := "docs/a.txt"; zf_IsDir := false; zf_Open := Ok (["al"; "pha"], None) |};
    {| zf_Name := "b.txt"; zf_IsDir := false; zf_Open := Ok (["beta"], None) |} ].
Definition tarred : list tar_Header :=
  [ {| th_Name := "docs/"; th_Typeflag := tar_TypeDir; th_Body := []; th_BodyErr := None |};
    {| th_Name := "docs/a.txt"; th_Typeflag := tar_TypeReg; th_Body := ["alpha"];
       th_BodyErr := None |};
    {| th_Name := "latest"; th_Typeflag := "2"%char; th_Body := []; th_BodyErr := None |};
    {| th_Name := "b.txt"; th_Typeflag := tar_TypeReg; th_Body := ["beta"];
       th_BodyErr := None |} ].
Definition gzip_magic : string :=
  String (ascii_of_nat 31) (String (ascii_of_nat 139) EmptyString).
Definition unpacking : Archives :=
  {| filepath_Dir := dir;
     zip_NewReader := fun bytes =>
       if String.eqb bytes "PK-sample" then Ok zipped
       else Err (lib_error "zip" "not a valid zip file");
     gzip_NewReader := fun bytes =>
       if strings.HasPrefix bytes gzip_magic then None
       else Some (lib_error "gzip" "invalid header");
     tar_NewReader := fun source =>
       match source with
       | plain_tar bytes =>
           if String.eqb bytes "ustar-sample" then (tarred, None)
           else ([], Some (lib_error "tar" "invalid tar header"))
       | gzipped_tar bytes =>
           if String.eqb bytes (gzip_magic +:+ "ustar-sample") then (tarred, None)
           else ([], Some (lib_error "tar" "invalid tar header"))
       end |}.

(** A server that answers the first request by a confirmation page and
    the next by the payload. *)
Definition confirm_then_serve : Env :=
  Sample.env
    (fun history _ =>
       match history with
       | [] => Ok (Sample.confirmation "1")
       | _ => Ok (Sample.octets ["data"])
       end)
    Sample.no_pages Sample.no_json.

(** Options with a proxy that is not a URL. *)
Definition bad_proxy : DownloadOptions :=
  {| Quiet := true; Proxy := "not a url"; Speed := 0%Z; UseCookies := true;
     Verify := true; Resume := false; Fuzzy := false; Format := EmptyString;
     UserAgent := EmptyString |}.

(** A world with the two archives. *)
Definition archive_world : World :=
  {| fs := {[ "pack" := Dir; "pack/a.zip" := File "PK-sample";
              "pack/b.tgz" := File (gzip_magic +:+ "ustar-sample") ]};
     requests := []; stderr := []; now := 0%Z |}.

End Cases.

(** The size a resumed download starts from: that of the destination
    when resuming is asked for and the destination is an existing file that
    is not empty. *)
Definition resumed_from (E : Env) (opts : DownloadOptions) (w : World) (output : string)
  : option Z :=
  if Resume opts then
    match os_fault E "stat" output, fs w !! output with
    | None, Some (File (String c s)) => Some (Z.of_nat (String.length (String c s)))
    | _, _ => None
    end
  else None.

(** The headers of the requests of a download. *)
Definition expected_header (E : Env) (opts : DownloadOptions) (w : World) (output : string)
  : list (string * string) :=
  ("User-Agent",
   if String.eqb (UserAgent opts) EmptyString then default_UserAgent else UserAgent opts)
    :: match resumed_from E opts w output with
       | Some size => [("Range", "bytes=" +:+ itoa size +:+ "-")]
       | None => []
       end.

(** A server behind which every request, whatever was sent before, is
    answered by a confirmation page whose link is a URL that parses and
    differs from [origUrl]. *)
Definition always_confirming (E : Env) (origUrl : string) : Prop :=
  forall history req,
  exists resp body next,
    http_RoundTrip E history req = Ok resp
    /\ strings.HasPrefix (Header_Get (Header resp) "Content-Type") "text/html" = true
    /\ io_ReadAll resp = Ok body
    /\ getUrlFromGDriveConfirmation body = Ok next
    /\ next <> origUrl
    /\ is_Ok (url_Parse E next) = true.


(** The folders of a tree: its nodes of the folder type. *)
Fixpoint folder_count (g : GoogleDriveFile) : nat :=
  match g with
  | Build_GoogleDriveFile _ _ type children =>
      (if String.eqb type folder_type then 1 else 0)
      + list_sum (map folder_count children)
  end.

(** A tree as the resolver builds it: a node that is not a folder has no
    children, and the number of children of every folder passes [ok]. *)
Fixpoint well_resolved (ok : nat -> bool) (g : GoogleDriveFile) : bool :=
  match g with
  | Build_GoogleDriveFile _ _ type children =>
      if String.eqb type folder_type
      then ok (length children) && forallb (well_resolved ok) children
      else match children with [] => true | _ => false end
  end.

(** The number of children that the resolver accepts for a folder. *)
Definition accepted_size (remainingOk : bool) (n : nat) : bool :=
  negb (n =? MAX_NUMBER_FILES)%nat || remainingOk.

(** The entries of files in a flattened tree: those with an identifier. *)
Definition file_entries (files : list FileToDownload) : list FileToDownload :=
  List.filter (fun f => negb (String.eqb (ftd_ID f) EmptyString)) files.

(** The world after a line that [quiet] suppresses. *)
Definition announce (quiet : bool) (line : string) (w : World) : World :=
  if quiet then w else eprint line w.

(** The URL that the two folder entry points resolve. *)
Definition folder_address (urlStr id : string) : string :=
  if negb (String.eqb id EmptyString) then folder_url id else urlStr.

(** The directory into which [DownloadFolder] puts a folder: [output], or
    the name of the folder under [output] when that ends in a separator;
    the working directory stands in for an empty [output]. *)
Definition folder_root (E : Env) (output : string) (gfile : GoogleDriveFile) : string :=
  let output := if String.eqb output EmptyString then os_Getwd E +:+ sep E else output in
  if strings.HasSuffix output (sep E)
  then filepath_Join E [output; Name gfile] else output.

(** The resolution that the two folder entry points start with. *)
Definition resolve_folder (E : Env) (fuel : nat) (client : http_Client)
    (opts : FolderOptions) (urlStr id : string) : M GoogleDriveFile :=
  downloadAndParseGoogleDriveLink E fuel client
    (Quiet (Options (with_folder_UserAgent opts)))
    (RemainingOk (with_folder_UserAgent opts))
    (Verify (Options (with_folder_UserAgent opts)))
    (folder_address urlStr id).

(** The world after an [os.MkdirAll] whose error is not looked at. *)
Definition made (E : Env) (path : string) (w : World) : World :=
  match os_MkdirAll E path w with
  | Some (_, w') => w'
  | None => w
  end.

(** Where [DownloadFolder] puts the file of an entry. *)
Definition local_path (E : Env) (rootDir : string) (f : FileToDownload) : string :=
  filepath_Join E [rootDir; ftd_Path f].

(** The form of every URL that a confirmation page can yield. *)
Definition provider_link (urlStr : string) : bool :=
  strings.HasPrefix urlStr "https://docs.google.com/uc?export=download".

(** The nodes of a tree. *)
Fixpoint node_count (g : GoogleDriveFile) : nat :=
  match g with
  | Build_GoogleDriveFile _ _ _ children => S (list_sum (map node_count children))
  end.

(** A JSON string literal decoded into a Go string: the end of
    [decodeUnicodeEscapes]. *)
Definition json_string (E : Env) (literal : string) : Result string :=
  match json_Unmarshal E (strings.dq +:+ literal +:+ strings.dq) with
  | Err e => Err e
  | Ok (JString decoded) => Ok decoded
  | Ok JNull => Ok EmptyString
  | Ok _ => Err (lib_error "json" "cannot unmarshal into Go value of type string")
  end.

(** A byte that a single-quoted literal holds as it is. *)
Definition plain_byte (c : ascii) : bool :=
  negb (Ascii.eqb c Regexp.quote) && negb (Ascii.eqb c Regexp.backslash).

(** A script with two single-quoted literals [a] and [b] of plain bytes,
    the first ones of the script. *)
Definition two_literals (script pre a mid b post : string) : Prop :=
  script
  = pre +:+ String Regexp.quote (a +:+ String Regexp.quote
              (mid +:+ String Regexp.quote (b +:+ String Regexp.quote post)))
  /\ strings.free_of Regexp.quote pre = true
  /\ strings.free_of Regexp.quote mid = true
  /\ strings.all_bytes plain_byte a = true
  /\ strings.all_bytes plain_byte b = true.
(** * Properties *)

(** ** Facts about byte strings *)
#[local] Arguments String.append !_ _ / : simpl nomatch.

Section StringFacts.
Import strings.

Lemma append_nil_r (s : string) : s +:+ EmptyString = s.
Proof. induction s as [|c s IH]; simpl; [reflexivity | now rewrite IH]. Qed.

Lemma append_assoc (a b c : string) : (a +:+ b) +:+ c = a +:+ (b +:+ c).
Proof. induction a as [|x a IH]; simpl; [reflexivity | now rewrite IH]. Qed.

Lemma length_append (a b : string) :
  String.length (a +:+ b) = (String.length a + String.length b)%nat.
Proof. induction a as [|x a IH]; simpl; [reflexivity | now rewrite IH]. Qed.

Lemma strip_prefix_Some (p s r : string) :
  strip_prefix p s = Some r <-> s = p +:+ r.
Proof.
  revert s. induction p as [|c p IH]; intros s; simpl.
  - split; [now intros [= ->] | now intros ->].
  - destruct s as [|d s]; [split; discriminate|].
    destruct (Ascii.eqb_spec c d) as [->|Hne].
    + rewrite IH. split; [now intros -> | now intros [= ->]].
    + split; [discriminate | intros [= Hcd _]; congruence].
Qed.

Lemma strip_prefix_append (p r : string) : strip_prefix p (p +:+ r) = Some r.
Proof. now apply strip_prefix_Some. Qed.

Lemma span_append (keep : ascii -> bool) (s run rest : string) :
  span keep s = (run, rest) -> s = run +:+ rest.
Proof.
  revert run rest. induction s as [|c s IH]; intros run rest; simpl.
  - now intros [= <- <-].
  - destruct (keep c).
    + destruct (span keep s) as [run' rest'] eqn:Hs. intros [= <- <-].
      simpl. f_equal. now apply IH.
    + now intros [= <- <-].
Qed.

Lemma span_run (keep : ascii -> bool) (s run rest : string) :
  span keep s = (run, rest) -> all_bytes keep run = true.
Proof.
  revert run rest. induction s as [|c s IH]; intros run rest; simpl.
  - now intros [= <- <-].
  - destruct (keep c) eqn:Hc.
    + destruct (span keep s) as [run' rest'] eqn:Hs. intros [= <- <-].
      simpl. rewrite Hc. simpl. eapply IH; eauto.
    + now intros [= <- <-].
Qed.

Lemma span_stop (keep : ascii -> bool) (s run : string) (c : ascii) (rest : string) :
  span keep s = (run, String c rest) -> keep c = false.
Proof.
  revert run. induction s as [|d s IH]; intros run; simpl.
  - discriminate.
  - destruct (keep d) eqn:Hd.
    + destruct (span keep s) as [run' rest'] eqn:Hs. intros [= <- ->].
      eapply IH; eauto.
    + now intros [= <- <- <-].
Qed.

(** The run of [span] is the only way to split [s] into bytes that pass
    followed by a byte that does not. *)
Lemma span_unique (keep : ascii -> bool) (run : string) (c : ascii) (rest : string) :
  all_bytes keep run = true -> keep c = false ->
  span keep (run +:+ String c rest) = (run, String c rest).
Proof.
  intros Hrun Hc. induction run as [|d run IH]; simpl in *.
  - now rewrite Hc.
  - apply andb_true_iff in Hrun as [Hd Hrun]. rewrite Hd, IH by assumption.
    reflexivity.
Qed.

Lemma Cut_Some (s sep before after : string) :
  Cut s sep = Some (before, after) -> s = before +:+ sep +:+ after.
Proof.
  revert before after. induction s as [|c s IH]; intros before after.
  - simpl. destruct (strip_prefix sep EmptyString) as [r|] eqn:Hp; [|discriminate].
    intros [= <- <-]. now apply strip_prefix_Some in Hp.
  - cbn [Cut]. destruct (strip_prefix sep (String c s)) as [r|] eqn:Hp.
    + intros [= <- <-]. now apply strip_prefix_Some in Hp.
    + destruct (Cut s sep) as [[b a]|] eqn:Hcut; [|discriminate].
      intros [= <- <-]. simpl. f_equal. now apply IH.
Qed.

Lemma Cut_empty (sep : string) :
  sep <> EmptyString -> Cut EmptyString sep = None.
Proof. destruct sep; [congruence | reflexivity]. Qed.

(** A prefix free of the first byte of [sep] is stepped over. *)
Lemma Cut_free_prefix (p s : string) (c : ascii) (sep' : string) :
  free_of c p = true ->
  Cut (p +:+ s) (String c sep')
  = match Cut s (String c sep') with
    | Some (before, after) => Some (p +:+ before, after)
    | None => None
    end.
Proof.
  intros Hfree. induction p as [|d p IH].
  - simpl. now destruct (Cut s (String c sep')) as [[b a]|].
  - simpl in Hfree. apply andb_true_iff in Hfree as [Hd Hfree].
    change (String d p +:+ s) with (String d (p +:+ s)).
    cbn [Cut strip_prefix].
    apply negb_true_iff in Hd. rewrite Hd, (IH Hfree).
    now destruct (Cut s (String c sep')) as [[b a]|].
Qed.

(** More cuts than bytes change nothing. *)
Lemma replace_cuts_enough (old new : string) (n m : nat) (s : string) :
  old <> EmptyString ->
  (String.length s <= n)%nat -> (String.length s <= m)%nat ->
  replace_cuts n s old new = replace_cuts m s old new.
Proof.
  intros Hold. revert m s. induction n as [|n IH]; intros m s Hn Hm.
  - destruct s; [|simpl in Hn; lia].
    destruct m; [reflexivity|]. cbn [replace_cuts]. now rewrite Cut_empty.
  - destruct m as [|m].
    + destruct s; [|simpl in Hm; lia]. cbn [replace_cuts]. now rewrite Cut_empty.
    + cbn [replace_cuts]. destruct (Cut s old) as [[b a]|] eqn:Hcut; [|reflexivity].
      apply Cut_Some in Hcut. subst s. rewrite !length_append in Hn, Hm.
      assert (0 < String.length old)%nat by (destruct old; [congruence | simpl; lia]).
      do 2 f_equal. apply IH; lia.
Qed.

Lemma replace_cuts_free_prefix (p s : string) (c : ascii) (old' new : string) (n : nat) :
  free_of c p = true ->
  replace_cuts n (p +:+ s) (String c old') new
  = p +:+ replace_cuts n s (String c old') new.
Proof.
  intros Hfree. destruct n as [|n]; [reflexivity|].
  cbn [replace_cuts]. rewrite Cut_free_prefix by assumption.
  destruct (Cut s (String c old')) as [[b a]|]; [|reflexivity].
  now rewrite append_assoc.
Qed.

Lemma ReplaceAll_free_prefix (p s : string) (c : ascii) (old' new : string) :
  free_of c p = true ->
  ReplaceAll (p +:+ s) (String c old') new = p +:+ ReplaceAll s (String c old') new.
Proof.
  intros Hfree. unfold ReplaceAll. simpl String.eqb.
  rewrite replace_cuts_free_prefix by assumption. f_equal.
  apply replace_cuts_enough; [discriminate | rewrite length_append; lia | lia].
Qed.


(** Two ways to cut a string at the same length are the same. *)
Lemma append_same_length (a b c d : string) :
  a +:+ b = c +:+ d -> String.length a = String.length c -> a = c /\ b = d.
Proof.
  revert c. induction a as [|x a IH]; intros [|y c] Heq Hlen; simpl in *;
    try discriminate; [auto|].
  injection Heq as -> Heq. destruct (IH c Heq) as [-> ->]; [lia | auto].
Qed.

(** The search finds the leftmost position where [here] matches. *)
Lemma find_first_Some {A} (here : string -> option A) (s : string) (r : A) :
  Regexp.find_first here s = Some r ->
  exists pre t,
    s = pre +:+ t /\ here t = Some r
    /\ forall pre' t',
        s = pre' +:+ t' -> here t' <> None ->
        (String.length pre <= String.length pre')%nat.
Proof.
  induction s as [|c s IH]; cbn [Regexp.find_first].
  - destruct (here EmptyString) eqn:Hhere; [|discriminate].
    intros [= ->]. exists EmptyString, EmptyString.
    split; [reflexivity|]. split; [assumption|]. intros; simpl; lia.
  - destruct (here (String c s)) eqn:Hhere.
    + intros [= ->]. exists EmptyString, (String c s).
      split; [reflexivity|]. split; [assumption|]. intros; simpl; lia.
    + intros Hfind. destruct (IH Hfind) as (pre & t & -> & Ht & Hmin).
      exists (String c pre), t. split; [reflexivity|]. split; [assumption|].
      intros [|d pre'] t' Heq Hsome.
      * simpl in Heq. subst t'. congruence.
      * injection Heq as _ Heq. simpl. specialize (Hmin pre' t' Heq Hsome). lia.
Qed.

Lemma find_first_None {A} (here : string -> option A) (s : string) :
  Regexp.find_first here s = None ->
  forall pre t, s = pre +:+ t -> here t = None.
Proof.
  intros Hnone pre. revert s Hnone.
  induction pre as [|c pre IH]; intros s Hnone t Hs.
  - simpl in Hs. subst t. destruct s; cbn [Regexp.find_first] in Hnone;
      destruct (here _); congruence.
  - destruct s as [|d s]; [discriminate Hs|]. injection Hs as _ Hs.
    cbn [Regexp.find_first] in Hnone. destruct (here (String d s)); [discriminate|].
    eapply IH; eassumption.
Qed.

End StringFacts.

(** ** The confirmation page *)
Section Confirmation.
Import strings Regexp.

(** The expression matches at the head of [s] exactly when [s] opens
    with an anchor whose value goes on after the prefix. *)
Lemma confirm_here_intro (rest post : string) :
  rest <> EmptyString -> all_bytes not_quote rest = true ->
  confirm_here (confirm_literal +:+ rest +:+ dq +:+ post)
  = Some [confirm_literal +:+ rest +:+ dq; confirm_prefix +:+ rest].
Proof.
  intros Hne Hall. unfold confirm_here.
  rewrite strip_prefix_append.
  change (dq +:+ post) with (String (ascii_of_nat 34) post).
  rewrite span_unique by (assumption || reflexivity).
  destruct rest; [congruence | reflexivity].
Qed.

Lemma confirm_here_elim (s : string) (l : list string) :
  confirm_here s = Some l ->
  exists rest post,
    rest <> EmptyString /\ all_bytes not_quote rest = true
    /\ s = confirm_literal +:+ rest +:+ dq +:+ post
    /\ l = [confirm_literal +:+ rest +:+ dq; confirm_prefix +:+ rest].
Proof.
  unfold confirm_here.
  destruct (strip_prefix confirm_literal s) as [r|] eqn:Hp; [|discriminate].
  apply strip_prefix_Some in Hp.
  destruct (span not_quote r) as [run after] eqn:Hspan.
  destruct run as [|c run]; [discriminate|].
  destruct after as [|q after]; [discriminate|].
  intros [= <-]. exists (String c run), after.
  pose proof (span_run _ _ _ _ Hspan) as Hall.
  pose proof (span_stop _ _ _ _ _ Hspan) as Hq.
  pose proof (span_append _ _ _ _ Hspan) as Hr.
  assert (q = ascii_of_nat 34) as ->.
  { unfold not_quote in Hq. apply negb_false_iff in Hq.
    now apply Ascii.eqb_eq in Hq. }
  repeat split; try congruence. subst s r. reflexivity.
Qed.

(** An anchor with a value that goes on after the prefix is a position
    where the expression matches. *)
Lemma confirmation_anchor_here (s pre rest post : string) :
  confirmation_anchor s pre rest post -> rest <> EmptyString ->
  s = pre +:+ (confirm_literal +:+ rest +:+ dq +:+ post)
  /\ confirm_here (confirm_literal +:+ rest +:+ dq +:+ post) <> None.
Proof.
  intros [Hs Hall] Hne. split; [exact Hs|].
  rewrite confirm_here_intro by assumption. discriminate.
Qed.

(** The match is the leftmost anchor. *)
Lemma confirm_find_leftmost (s : string) (l : list string) :
  confirm_find s = Some l ->
  exists pre rest post,
    confirmation_anchor s pre rest post /\ rest <> EmptyString
    /\ l = [confirm_literal +:+ rest +:+ dq; confirm_prefix +:+ rest]
    /\ forall pre' rest' post',
         confirmation_anchor s pre' rest' post' -> rest' <> EmptyString ->
         (String.length pre <= String.length pre')%nat.
Proof.
  intros Hfind. apply find_first_Some in Hfind as (pre & t & Hs & Hhere & Hmin).
  apply confirm_here_elim in Hhere as (rest & post & Hne & Hall & -> & ->).
  exists pre, rest, post. split; [split; assumption|]. split; [assumption|].
  split; [reflexivity|].
  intros pre' rest' post' Hanchor Hne'.
  destruct (confirmation_anchor_here _ _ _ _ Hanchor Hne') as [Hs' Hsome].
  exact (Hmin _ _ Hs' Hsome).
Qed.

Lemma confirm_find_none (s : string) :
  confirm_find s = None ->
  forall pre rest post,
    confirmation_anchor s pre rest post -> rest = EmptyString.
Proof.
  intros Hnone pre rest post Hanchor.
  destruct rest as [|x rest]; [reflexivity|]. exfalso.
  destruct (confirmation_anchor_here _ _ _ _ Hanchor ltac:(discriminate)) as [Hs Hsome].
  apply Hsome. eapply find_first_None; eassumption.
Qed.

End Confirmation.

(** C3 (as amended).  Given an HTML body, [getUrlFromGDriveConfirmation]
    returns the provider host followed by the value of the leftmost anchor
    whose [href] is the export-download prefix followed by at least one more
    byte, with every [&amp;] replaced by [&]; when the body has no such
    anchor it fails with [ErrFileURLRetrieval]. *)
Theorem getUrlFromGDriveConfirmation_spec (html : string) :
  (forall pre rest post,
      Regexp.confirmation_anchor html pre rest post -> rest <> EmptyString ->
      exists pre0 rest0 post0,
        Regexp.confirmation_anchor html pre0 rest0 post0 /\ rest0 <> EmptyString
        /\ (forall pre' rest' post',
              Regexp.confirmation_anchor html pre' rest' post' ->
              rest' <> EmptyString ->
              (String.length pre0 <= String.length pre')%nat)
        /\ getUrlFromGDriveConfirmation html
           = Ok ("https://docs.google.com"
                 +:+ strings.ReplaceAll (Regexp.confirm_prefix +:+ rest0) "&amp;" "&"))
  /\ ((forall pre rest post,
         Regexp.confirmation_anchor html pre rest post -> rest = EmptyString) ->
      getUrlFromGDriveConfirmation html = Err ErrFileURLRetrieval).
Proof.
  unfold getUrlFromGDriveConfirmation, Regexp.confirm_FindStringSubmatch.
  split.
  - intros pre rest post Hanchor Hne.
    destruct (Regexp.confirm_find html) as [l|] eqn:Hfind.
    + apply confirm_find_leftmost in Hfind
        as (pre0 & rest0 & post0 & Ha & Hne0 & -> & Hmin).
      exists pre0, rest0, post0. repeat split; try assumption; try apply Ha.
      simpl default. cbv iota. f_equal.
      now apply ReplaceAll_free_prefix.
    + exfalso. apply Hne. eapply confirm_find_none; eassumption.
  - intros Hnone.
    destruct (Regexp.confirm_find html) as [l|] eqn:Hfind; [|reflexivity].
    apply confirm_find_leftmost in Hfind as (pre & rest & post & Ha & Hne & _).
    exfalso. apply Hne. eapply Hnone; eassumption.
Qed.

(** The amended statement at work: a page with one confirmation link, and
    a page without any. *)
Lemma getUrlFromGDriveConfirmation_spec_witness :
  (exists pre0 rest0 post0,
      Regexp.confirmation_anchor
        ("<a href=" +:+ strings.dq +:+ "/uc?export=download&amp;id=X" +:+ strings.dq +:+ ">")
        pre0 rest0 post0 /\ rest0 <> EmptyString
      /\ (forall pre' rest' post',
            Regexp.confirmation_anchor
              ("<a href=" +:+ strings.dq +:+ "/uc?export=download&amp;id=X" +:+ strings.dq +:+ ">")
              pre' rest' post' ->
            rest' <> EmptyString ->
            (String.length pre0 <= String.length pre')%nat)
      /\ getUrlFromGDriveConfirmation
           ("<a href=" +:+ strings.dq +:+ "/uc?export=download&amp;id=X" +:+ strings.dq +:+ ">")
         = Ok ("https://docs.google.com"
               +:+ strings.ReplaceAll (Regexp.confirm_prefix +:+ rest0) "&amp;" "&"))
  /\ getUrlFromGDriveConfirmation "<html><body>Quota exceeded</body></html>"
     = Err ErrFileURLRetrieval.
Proof.
  split.
  - apply (proj1 (getUrlFromGDriveConfirmation_spec _) "<a " "&amp;id=X" ">").
    + split; reflexivity.
    + discriminate.
  - apply (proj2 (getUrlFromGDriveConfirmation_spec _)).
    intros pre rest post Hanchor.
    apply (confirm_find_none "<html><body>Quota exceeded</body></html>" eq_refl
             pre rest post Hanchor).
Defined.

(** C3, counterexample to the claim as stated: the body holds an anchor
    whose [href] begins with (is) the export-download prefix, and the
    resolver fails. *)
Lemma getUrlFromGDriveConfirmation_bare_prefix :
  (exists pre rest post,
      Regexp.confirmation_anchor
        ("<a href=" +:+ strings.dq +:+ "/uc?export=download" +:+ strings.dq +:+ ">Download</a>")
        pre rest post)
  /\ getUrlFromGDriveConfirmation
       ("<a href=" +:+ strings.dq +:+ "/uc?export=download" +:+ strings.dq +:+ ">Download</a>")
     = Err ErrFileURLRetrieval.
Proof.
  split.
  - exists "<a ", EmptyString, ">Download</a>". split; reflexivity.
  - reflexivity.
Qed.

Example getUrlFromGDriveConfirmation_example :
  getUrlFromGDriveConfirmation
    ("<a href=" +:+ strings.dq +:+ "/uc?export=download&amp;id=X&amp;confirm=t" +:+ strings.dq +:+ ">")
  = Ok "https://docs.google.com/uc?export=download&id=X&confirm=t".
Proof. reflexivity. Qed.


(** ** The directory flattener *)
Section Flatten.
Context (E : Env).

(** Induction over a tree of Drive nodes, children included. *)
Lemma GoogleDriveFile_nested_ind (P : GoogleDriveFile -> Prop) :
  (forall id name type children,
      Forall P children -> P (Build_GoogleDriveFile id name type children)) ->
  forall g, P g.
Proof.
  intros step.
  exact (fix IH (g : GoogleDriveFile) : P g :=
           match g with
           | Build_GoogleDriveFile id name type children =>
               step id name type children
                 ((fix all (l : list GoogleDriveFile) : Forall P l :=
                     match l with
                     | [] => List.Forall_nil P
                     | c :: l0 => @List.Forall_cons _ P c l0 (IH c) (all l0)
                     end) children)
           end).
Qed.

Lemma getDirectoryStructure_unfold (g : GoogleDriveFile) (prevPath : string) :
  getDirectoryStructure E g prevPath
  = flat_map (child_entries E prevPath) (Children g).
Proof.
  destruct g as [id name type children]. simpl.
  apply flat_map_ext. intros c. unfold child_entries, entry_of, safe_name.
  destruct (IsFolder c); reflexivity.
Qed.

Lemma flat_map_middle {A B} (f : A -> list B) (l : list A) (i : nat) (x : A) :
  l !! i = Some x ->
  flat_map f l = flat_map f (take i l) ++ f x ++ flat_map f (drop (S i) l).
Proof.
  intros Hi. rewrite <- (take_drop_middle l i x Hi) at 1.
  rewrite flat_map_app. reflexivity.
Qed.

(** An element of a flattened list sits in the block of one child. *)
Lemma flat_map_lookup_block {A B} (f : A -> list B) (l : list A) (i : nat) (y : B) :
  flat_map f l !! i = Some y ->
  exists idx x k,
    l !! idx = Some x /\ f x !! k = Some y
    /\ i = (length (flat_map f (take idx l)) + k)%nat.
Proof.
  revert i. induction l as [|x l IH]; intros i Hi; [discriminate|].
  simpl in Hi. destruct (decide (i < length (f x))%nat) as [Hlt|Hge].
  - rewrite lookup_app_l in Hi by assumption.
    exists 0%nat, x, i. repeat split; assumption.
  - rewrite lookup_app_r in Hi by lia.
    destruct (IH _ Hi) as (idx & x' & k & Hx & Hk & Heq).
    exists (S idx), x', k. repeat split; try assumption.
    simpl. rewrite length_app. lia.
Qed.

Lemma child_entries_head (prevPath : string) (c : GoogleDriveFile) :
  child_entries E prevPath c !! 0%nat
  = Some (entry_of (filepath_Join E [prevPath; safe_name E c]) c).
Proof. unfold child_entries. destruct (IsFolder c); reflexivity. Qed.

(** Every node below the root has its entry at its index. *)
Lemma entry_at_index (addr : list nat) :
  forall (g : GoogleDriveFile) (prevPath : string) (n : GoogleDriveFile),
    addr <> [] -> node_at g addr = Some n ->
    exists i,
      entry_index E g prevPath addr = Some i
      /\ getDirectoryStructure E g prevPath !! i
         = Some (entry_of (path_at E g prevPath addr) n).
Proof.
  induction addr as [|i rest IH]; intros g prevPath n Hne Hnode; [congruence|].
  cbn [node_at entry_index path_at] in *.
  destruct (Children g !! i) as [c|] eqn:Hc; [|discriminate].
  rewrite getDirectoryStructure_unfold, (flat_map_middle _ _ _ _ Hc).
  destruct rest as [|j rest].
  - injection Hnode as <-. eexists. split; [reflexivity|].
    rewrite lookup_app_r by lia. rewrite Nat.sub_diag.
    rewrite lookup_app_l.
    + apply child_entries_head.
    + unfold child_entries. destruct (IsFolder c); simpl; lia.
  - destruct (IsFolder c) eqn:Hfolder; [|discriminate].
    destruct (IH c (filepath_Join E [prevPath; safe_name E c]) n ltac:(discriminate) Hnode)
      as (k & Hk & Hentry).
    rewrite Hk. eexists. split; [reflexivity|].
    rewrite lookup_app_r by lia.
    replace (_ + 1 + k - _)%nat with (S k) by lia.
    unfold child_entries at 1. rewrite Hfolder.
    cbn [app]. rewrite lookup_cons_ne_0 by lia. simpl Nat.pred.
    apply lookup_app_l_Some. exact Hentry.
Qed.

(** The entry of an ancestor comes strictly first. *)
Lemma ancestor_before (up : list nat) :
  forall (down : list nat) (g : GoogleDriveFile) (prevPath : string) (n : GoogleDriveFile),
    up <> [] -> down <> [] -> node_at g (up ++ down) = Some n ->
    exists j i dir,
      entry_index E g prevPath up = Some j
      /\ entry_index E g prevPath (up ++ down) = Some i
      /\ (j < i)%nat
      /\ node_at g up = Some dir /\ IsFolder dir = true.
Proof.
  induction up as [|a up IH]; intros down g prevPath n Hup Hdown Hnode; [congruence|].
  cbn [app node_at entry_index] in *.
  destruct (Children g !! a) as [c|] eqn:Hc; [|discriminate].
  destruct up as [|b up].
  - cbn [app] in *. destruct down as [|d down]; [congruence|].
    destruct (IsFolder c) eqn:Hfolder; [|discriminate].
    destruct (entry_at_index (d :: down) c (filepath_Join E [prevPath; safe_name E c]) n
                ltac:(discriminate) Hnode) as (k & Hk & _).
    rewrite Hk. do 3 eexists. repeat split; try reflexivity; [lia | assumption].
  - cbn [app] in *. destruct (IsFolder c) eqn:Hfolder; [|discriminate].
    destruct (IH down c (filepath_Join E [prevPath; safe_name E c]) n
                ltac:(discriminate) Hdown Hnode)
      as (j & i & dir & Hj & Hi & Hlt & Hdir & Hisdir).
    cbn [app] in Hi. rewrite Hj, Hi. do 2 eexists. exists dir.
    repeat split; try reflexivity; try assumption. lia.
Qed.

(** Every entry is the entry of a node below the root. *)
Lemma entry_has_address (g : GoogleDriveFile) :
  forall (prevPath : string) (i : nat) (f : FileToDownload),
    getDirectoryStructure E g prevPath !! i = Some f ->
    exists addr n,
      addr <> [] /\ node_at g addr = Some n
      /\ entry_index E g prevPath addr = Some i
      /\ f = entry_of (path_at E g prevPath addr) n.
Proof.
  induction g as [id name type children IH] using GoogleDriveFile_nested_ind.
  intros prevPath i f Hi. rewrite getDirectoryStructure_unfold in Hi.
  cbn [Children] in Hi.
  apply flat_map_lookup_block in Hi as (idx & c & k & Hc & Hk & ->).
  rewrite Forall_forall in IH.
  assert (c ∈ children) as Hin by (apply list_elem_of_lookup; eauto).
  specialize (IH c Hin (filepath_Join E [prevPath; safe_name E c])).
  destruct k as [|k].
  - rewrite child_entries_head in Hk. injection Hk as <-.
    exists [idx], c. cbn [node_at entry_index path_at Children]. rewrite Hc.
    repeat split; try reflexivity; try discriminate. f_equal. lia.
  - unfold child_entries in Hk. destruct (IsFolder c) eqn:Hfolder; [|discriminate].
    cbn in Hk. destruct (IH k f Hk) as (addr & n & Hne & Hnode & Hidx & ->).
    exists (idx :: addr), n. cbn [node_at entry_index path_at Children]. rewrite Hc, Hfolder, Hidx.
    destruct addr as [|a addr]; [congruence|].
    repeat split; try reflexivity; try discriminate; try assumption.
    f_equal; lia.
Qed.

End Flatten.

(** C7.  The flattened list of a tree of Drive nodes is its depth-first
    pre-order: every entry belongs to a node strictly below the root (none
    to the root), the entry of a folder has the empty identifier and the
    entry of a file has the identifier of its node, and the entries of all
    the ancestors of a node are those of folders and come strictly before
    the entry of the node. *)
Theorem getDirectoryStructure_preorder
    (E : Env) (gfile : GoogleDriveFile) (prevPath : string) :
  let files := getDirectoryStructure E gfile prevPath in
  (forall i f,
      files !! i = Some f ->
      exists addr node,
        addr <> [] /\ node_at gfile addr = Some node
        /\ entry_index E gfile prevPath addr = Some i
        /\ f = entry_of (path_at E gfile prevPath addr) node
        /\ ftd_ID f = (if IsFolder node then EmptyString else ID node))
  /\ (forall addr node,
         addr <> [] -> node_at gfile addr = Some node ->
         exists i,
           entry_index E gfile prevPath addr = Some i
           /\ files !! i = Some (entry_of (path_at E gfile prevPath addr) node)
           /\ forall up down,
               addr = up ++ down -> up <> [] -> down <> [] ->
               exists j dir,
                 (j < i)%nat
                 /\ node_at gfile up = Some dir /\ IsFolder dir = true
                 /\ entry_index E gfile prevPath up = Some j
                 /\ files !! j = Some (entry_of (path_at E gfile prevPath up) dir)
                 /\ ftd_ID (entry_of (path_at E gfile prevPath up) dir) = EmptyString).
Proof.
  cbv zeta. split.
  - intros i f Hi.
    destruct (entry_has_address E gfile prevPath i f Hi)
      as (addr & node & Hne & Hnode & Hidx & ->).
    exists addr, node. repeat split; try assumption.
    unfold entry_of. destruct (IsFolder node); reflexivity.
  - intros addr node Hne Hnode.
    destruct (entry_at_index E addr gfile prevPath node Hne Hnode) as (i & Hidx & Hi).
    exists i. repeat split; try assumption.
    intros up down -> Hup Hdown.
    destruct (ancestor_before E up down gfile prevPath node Hup Hdown Hnode)
      as (j & i' & dir & Hj & Hi' & Hlt & Hdir & Hfolder).
    assert (i' = i) as -> by congruence.
    destruct (entry_at_index E up gfile prevPath dir Hup Hdir) as (j' & Hj' & Hentry).
    assert (j' = j) as -> by congruence.
    exists j, dir. repeat split; try assumption.
    unfold entry_of. now rewrite Hfolder.
Qed.

(** The theorem on the sample tree: the second entry of the flattened list
    is the entry of the file inside the sub-folder, and the entry of that
    file comes after the entry of the sub-folder. *)
Lemma getDirectoryStructure_preorder_witness :
  (exists addr node,
      addr <> [] /\ node_at Sample.tree addr = Some node
      /\ entry_index Sample.offline Sample.tree EmptyString addr = Some 1%nat
      /\ {| ftd_ID := "f1"; ftd_Path := "docs/a_b.txt"; ftd_LocalPath := "" |}
         = entry_of (path_at Sample.offline Sample.tree EmptyString addr) node
      /\ ftd_ID {| ftd_ID := "f1"; ftd_Path := "docs/a_b.txt"; ftd_LocalPath := "" |}
         = (if IsFolder node then EmptyString else ID node))
  /\ exists i,
      entry_index Sample.offline Sample.tree EmptyString [0; 0]%nat = Some i
      /\ getDirectoryStructure Sample.offline Sample.tree EmptyString !! i
         = Some (entry_of (path_at Sample.offline Sample.tree EmptyString [0; 0]%nat)
                   (Sample.leaf "f1" "a/b.txt"))
      /\ forall up down,
          [0; 0]%nat = up ++ down -> up <> [] -> down <> [] ->
          exists j dir,
            (j < i)%nat
            /\ node_at Sample.tree up = Some dir /\ IsFolder dir = true
            /\ entry_index Sample.offline Sample.tree EmptyString up = Some j
            /\ getDirectoryStructure Sample.offline Sample.tree EmptyString !! j
               = Some (entry_of (path_at Sample.offline Sample.tree EmptyString up) dir)
            /\ ftd_ID (entry_of (path_at Sample.offline Sample.tree EmptyString up) dir)
               = EmptyString.
Proof.
  split.
  - apply (proj1 (getDirectoryStructure_preorder Sample.offline Sample.tree EmptyString)
             1%nat). reflexivity.
  - apply (proj2 (getDirectoryStructure_preorder Sample.offline Sample.tree EmptyString)
             [0; 0]%nat (Sample.leaf "f1" "a/b.txt")).
    + discriminate.
    + reflexivity.
Defined.

Example getDirectoryStructure_sample :
  getDirectoryStructure Sample.offline Sample.tree EmptyString
  = [ {| ftd_ID := ""; ftd_Path := "docs"; ftd_LocalPath := "docs" |};
      {| ftd_ID := "f1"; ftd_Path := "docs/a_b.txt"; ftd_LocalPath := "" |};
      {| ftd_ID := "f2"; ftd_Path := "report.txt"; ftd_LocalPath := "" |} ].
Proof. reflexivity. Qed.

(** ** Hash verification *)
Section Hash.
Context (E : Env).
Import strings.

Lemma Cut_None_Contains (s sub : string) : Contains s sub = false <-> Cut s sub = None.
Proof. unfold Contains. destruct (Cut s sub); split; congruence. Qed.


Lemma SplitN_2_sep (s sub before after : string) :
  sub <> EmptyString -> Cut s sub = Some (before, after) ->
  SplitN s sub 2 = [before; after].
Proof.
  intros Hsub Hcut. unfold SplitN.
  apply String.eqb_neq in Hsub. rewrite Hsub. simpl. now rewrite Hcut.
Qed.

Lemma SplitN_2_pair (s sub a b : string) :
  sub <> EmptyString -> SplitN s sub 2 = [a; b] -> s = a +:+ sub +:+ b.
Proof.
  intros Hsub. unfold SplitN.
  apply String.eqb_neq in Hsub. rewrite Hsub. simpl.
  destruct (Cut s sub) as [[x y]|] eqn:Hcut; [|discriminate].
  intros [= <- <-]. now apply Cut_Some.
Qed.






End Hash.

(** ** The file system *)
Section FileSystem.
Context (E : Env).

Lemma fileExists_true (w : World) (p : string) :
  fileExists E w p = true
  <-> os_fault E "stat" p = None /\ exists c, fs w !! p = Some (File c).
Proof.
  unfold fileExists, os_Stat.
  destruct (os_fault E "stat" p); [split; [discriminate | intros [[=] _]]|].
  destruct (fs w !! p) as [[c|]|]; simpl; split;
    try discriminate; try (intros [_ [c' [=]]]; fail); eauto.
Qed.

(** [fileExists] looks at the entry of the path only. *)
Lemma fileExists_same_entry (w w' : World) (p : string) :
  fs w' !! p = fs w !! p -> fileExists E w' p = fileExists E w p.
Proof. intros H. unfold fileExists, os_Stat. now rewrite H. Qed.

Lemma mkdirs_keeps (dirs : list string) :
  forall (f f' : gmap string node) (e : option error),
    mkdirs dirs f = (e, f') ->
    forall p x, f !! p = Some x -> f' !! p = Some x.
Proof.
  induction dirs as [|d dirs IH]; intros f f' e; simpl.
  - now intros [= _ <-].
  - destruct (f !! d) as [[c|]|] eqn:Hd.
    + now intros [= _ <-].
    + apply IH.
    + intros Hm p x Hp. eapply IH; [exact Hm|].
      rewrite lookup_insert_ne; [assumption | congruence].
Qed.

Lemma mkdirs_adds_dirs (dirs : list string) :
  forall (f f' : gmap string node) (e : option error),
    mkdirs dirs f = (e, f') ->
    forall p x, f' !! p = Some x -> f !! p = Some x \/ (f !! p = None /\ x = Dir).
Proof.
  induction dirs as [|d dirs IH]; intros f f' e; simpl.
  - intros [= _ <-]. auto.
  - destruct (f !! d) as [[c|]|] eqn:Hd.
    + intros [= _ <-]. auto.
    + apply IH.
    + intros Hm p x Hp. destruct (IH _ _ _ Hm p x Hp) as [H|[H ->]].
      * destruct (decide (d = p)) as [->|Hne].
        -- rewrite lookup_insert_eq in H. injection H as <-. auto.
        -- rewrite lookup_insert_ne in H by assumption. auto.
      * destruct (decide (d = p)) as [->|Hne].
        -- rewrite lookup_insert_eq in H. discriminate.
        -- rewrite lookup_insert_ne in H by assumption. auto.
Qed.

(** [os.MkdirAll] always returns, sends nothing and leaves every existing
    entry as it is. *)
Lemma os_MkdirAll_effect (path : string) (w : World) :
  exists r w',
    os_MkdirAll E path w = Some (r, w')
    /\ requests w' = requests w /\ stderr w' = stderr w /\ now w' = now w
    /\ (forall p x, fs w !! p = Some x -> fs w' !! p = Some x)
    /\ (forall p c, fs w' !! p = Some (File c) -> fs w !! p = Some (File c)).
Proof.
  unfold os_MkdirAll. destruct (os_fault E "mkdir" path).
  - exists (Err e), w. repeat split; auto.
  - destruct (mkdirs (ancestors E path ++ [path]) (fs w)) as [[e|] f] eqn:Hm;
      eexists _, _; (split; [reflexivity|]); simpl; repeat split;
      try (intros p x; eapply mkdirs_keeps; eassumption);
      intros p c Hp; destruct (mkdirs_adds_dirs _ _ _ _ Hm p _ Hp) as [H|[_ [=]]];
      exact H.
Qed.

Lemma os_MkdirAll_fileExists (path : string) (w w' : World) (r : Result unit) (p : string) :
  os_MkdirAll E path w = Some (r, w') -> fileExists E w' p = fileExists E w p.
Proof.
  intros Hm. destruct (os_MkdirAll_effect path w) as (r0 & w0 & H0 & _ & _ & _ & Hkeep & Hfile).
  rewrite H0 in Hm. injection Hm as <- <-.
  destruct (fileExists E w p) eqn:Hw.
  - apply fileExists_true in Hw as [Hf [c Hc]]. apply fileExists_true. eauto.
  - destruct (fileExists E w0 p) eqn:Hw0; [|reflexivity].
    apply fileExists_true in Hw0 as [Hf [c Hc]].
    assert (fileExists E w p = true) by (apply fileExists_true; eauto). congruence.
Qed.

(** What is left after [os.RemoveAll]: the entries outside the removed
    tree. *)
Lemma os_RemoveAll_outside (root : string) (w : World) (p : string) :
  within E root p = false -> fs (os_RemoveAll E root w) !! p = fs w !! p.
Proof.
  intros Hout. unfold os_RemoveAll.
  destruct (String.eqb root EmptyString); [reflexivity|].
  destruct (os_fault E "remove" root); [reflexivity|]. simpl.
  destruct (fs w !! p) as [x|] eqn:Hp.
  - apply map_lookup_filter_Some. split; assumption.
  - apply map_lookup_filter_None. left. assumption.
Qed.

Lemma os_RemoveAll_requests (root : string) (w : World) :
  requests (os_RemoveAll E root w) = requests w.
Proof.
  unfold os_RemoveAll.
  destruct (String.eqb root EmptyString); [reflexivity|].
  destruct (os_fault E "remove" root); reflexivity.
Qed.

(** After a successful [os.Rename] the new path is a regular file. *)
Lemma os_Rename_Ok (oldpath newpath : string) (w w' : World) :
  os_Rename E oldpath newpath w = Some (Ok tt, w') ->
  requests w' = requests w
  /\ exists c, fs w !! oldpath = Some (File c) /\ fs w' !! newpath = Some (File c).
Proof.
  unfold os_Rename. destruct (os_fault E "rename" oldpath); [discriminate|].
  destruct (fs w !! oldpath) as [[c|]|] eqn:Hold; try discriminate.
  destruct (fs w !! newpath) as [[c'|]|] eqn:Hnew; try discriminate;
    (destruct (String.eqb_spec oldpath newpath) as [->|Hne]; intros [= <-];
     (split; [reflexivity|]); exists c; (split; [reflexivity|]);
     [congruence | simpl; apply lookup_insert_eq]).
Qed.

End FileSystem.

(** ** The cache *)
Section Cache.
Context (E : Env).

Lemma cache_ready_run (w : World) :
  exists r, os_MkdirAll E (getCacheRoot E) w = Some (r, cache_ready E w).
Proof.
  unfold cache_ready.
  destruct (os_MkdirAll_effect E (getCacheRoot E) w) as (r & w' & H & _).
  rewrite H. eauto.
Qed.

Lemma cache_ready_fileExists (w : World) (p : string) :
  fileExists E (cache_ready E w) p = fileExists E w p.
Proof.
  destruct (cache_ready_run w) as [r H]. eapply os_MkdirAll_fileExists; eassumption.
Qed.

Lemma cache_ready_requests (w : World) : requests (cache_ready E w) = requests w.
Proof.
  unfold cache_ready.
  destruct (os_MkdirAll_effect E (getCacheRoot E) w) as (r & w' & H & Hr & _).
  now rewrite H.
Qed.

(** The first exit of [CachedDownload]: the file is there and no hash is
    asked for. *)
Lemma CachedDownload_hit (fuel : nat) (urlStr outputPath : string) (quiet : bool)
    (postprocess : option (string -> M unit)) (opts : DownloadOptions) (w : World) :
  fileExists E w (cache_path E urlStr outputPath) = true ->
  CachedDownload E fuel urlStr outputPath EmptyString quiet postprocess opts w
  = Some (Ok (cache_path E urlStr outputPath),
          if quiet then cache_ready E w
          else eprint ("File exists: " +:+ cache_path E urlStr outputPath)
                 (cache_ready E w)).
Proof.
  intros Hfile. rewrite <- cache_ready_fileExists in Hfile.
  destruct (cache_ready_run w) as [r Hrun].
  unfold CachedDownload, bind, catch, get_world. rewrite Hrun, Hfile.
  simpl. unfold log_unless, modify, ret. reflexivity.
Qed.

(** [assertFileHash] always returns, and touches standard error only. *)
Lemma assertFileHash_effect (filename hash : string) (quiet : bool) (w : World) :
  exists r w',
    assertFileHash E filename hash quiet w = Some (r, w')
    /\ fs w' = fs w /\ requests w' = requests w.
Proof.
  unfold assertFileHash.
  destruct (strings.SplitN hash ":" 2) as [|algo [|expected [|]]];
    try (eexists _, _; split; [reflexivity | split; reflexivity]).
  destruct (String.eqb algo "md5");
    [|eexists _, _; split; [reflexivity | split; reflexivity]].
  unfold bind, get_world, lift. destruct (MD5Sum E w filename) as [actual|e];
    [|eexists _, _; split; [reflexivity | split; reflexivity]].
  destruct (String.eqb actual expected);
    [|eexists _, _; split; [reflexivity | split; reflexivity]].
  unfold log_unless, modify, ret. eexists _, _. split; [reflexivity|].
  destruct quiet; split; reflexivity.
Qed.

(** A successful run of the second half, step by step. *)
Lemma download_into_cache_Ok (fuel : nat) (urlStr outputPath hash : string)
    (quiet : bool) (postprocess : option (string -> M unit))
    (opts : DownloadOptions) (w w' : World) (r : string) :
  download_into_cache E fuel urlStr outputPath hash quiet postprocess opts w
  = Some (Ok r, w') ->
  r = outputPath
  /\ exists tmpDir wb downloadedPath wc wd we wf,
      os_MkdirTemp E (getCacheRoot E) "dl" w = Some (Ok tmpDir, wb)
      /\ Download E fuel urlStr (filepath_Join E [tmpDir; "dl"]) opts wb
         = Some (Ok downloadedPath, wc)
      /\ os_Rename E downloadedPath outputPath wc = Some (Ok tt, wd)
      /\ (if String.eqb hash EmptyString then we = wd
          else assertFileHash E outputPath hash quiet wd = Some (Ok true, we))
      /\ match postprocess with
         | None => wf = we
         | Some f => f outputPath we = Some (Ok tt, wf)
         end
      /\ w' = os_RemoveAll E tmpDir wf.
Proof.
  unfold download_into_cache. unfold bind at 1.
  destruct (os_MkdirTemp E (getCacheRoot E) "dl" w) as [[[tmpDir|e] wb]|] eqn:Htmp;
    try discriminate.
  unfold with_defer. unfold bind at 1.
  destruct (Download E fuel urlStr (filepath_Join E [tmpDir; "dl"]) opts wb)
    as [[[dp|e] wc]|] eqn:Hdl; try discriminate.
  unfold bind at 1.
  destruct (os_Rename E dp outputPath wc) as [[[[]|e] wd]|] eqn:Hren; try discriminate.
  unfold bind at 1.
  destruct (String.eqb hash EmptyString) eqn:Hhash.
  - unfold ret at 1. unfold bind at 1.
    destruct postprocess as [f|].
    + destruct (f outputPath wd) as [[[[]|e] wf]|] eqn:Hpp; try discriminate.
      unfold ret. intros [= <- <-]. split; [reflexivity|].
      exists tmpDir, wb, dp, wc, wd, wd, wf. repeat split; assumption.
    + unfold ret. intros [= <- <-]. split; [reflexivity|].
      exists tmpDir, wb, dp, wc, wd, wd, wd. repeat split; assumption.
  - unfold bind at 1. unfold catch.
    destruct (assertFileHash E outputPath hash quiet wd) as [[[[|]|e] we]|] eqn:Hcheck;
      try discriminate.
    unfold ret at 1. unfold bind at 1.
    destruct postprocess as [f|].
    + destruct (f outputPath we) as [[[[]|e] wf]|] eqn:Hpp; try discriminate.
      unfold ret. intros [= <- <-]. split; [reflexivity|].
      exists tmpDir, wb, dp, wc, wd, we, wf. repeat split; assumption.
    + unfold ret. intros [= <- <-]. split; [reflexivity|].
      exists tmpDir, wb, dp, wc, wd, we, we. repeat split; assumption.
Qed.

(** A failed verification after the download fails the whole run. *)
Lemma download_into_cache_mismatch (fuel : nat) (urlStr outputPath hash : string)
    (quiet : bool) (postprocess : option (string -> M unit))
    (opts : DownloadOptions) (w wb wc wd we : World)
    (tmpDir downloadedPath : string) (e : error) :
  hash <> EmptyString ->
  os_MkdirTemp E (getCacheRoot E) "dl" w = Some (Ok tmpDir, wb) ->
  Download E fuel urlStr (filepath_Join E [tmpDir; "dl"]) opts wb
  = Some (Ok downloadedPath, wc) ->
  os_Rename E downloadedPath outputPath wc = Some (Ok tt, wd) ->
  assertFileHash E outputPath hash quiet wd = Some (Err e, we) ->
  download_into_cache E fuel urlStr outputPath hash quiet postprocess opts w
  = Some (Err (errors_New ("hash mismatch for file " +:+ outputPath)),
          os_RemoveAll E tmpDir we).
Proof.
  intros Hhash Htmp Hdl Hren Hcheck. apply String.eqb_neq in Hhash.
  unfold download_into_cache, with_defer, bind, catch.
  rewrite Htmp, Hdl, Hren, Hhash, Hcheck. reflexivity.
Qed.


End Cache.

(** C5.  Cached download without a hash is idempotent.  If the cache path
    (derived from the URL, or given) is a regular file, [CachedDownload]
    returns it at once, whatever the fuel: no request is sent and no entry
    of the file system is touched.  Hence, after a call that returned a
    path, a second call with the same arguments returns the same path and
    sends no request, as long as the file is still where the first call put
    it (the system lets the path be examined, the path is not inside the
    temporary directory that the first call removes, and the post-processing
    callback keeps the file). *)
Theorem CachedDownload_idempotent (E : Env) :
  (forall fuel urlStr outputPath quiet postprocess opts w,
      fileExists E w (cache_path E urlStr outputPath) = true ->
      exists w',
        CachedDownload E fuel urlStr outputPath EmptyString quiet postprocess opts w
        = Some (Ok (cache_path E urlStr outputPath), w')
        /\ requests w' = requests w
        /\ forall q x, fs w !! q = Some x -> fs w' !! q = Some x)
  /\ (forall fuel fuel' urlStr outputPath quiet postprocess opts w p w1,
         CachedDownload E fuel urlStr outputPath EmptyString quiet postprocess opts w
         = Some (Ok p, w1) ->
         os_fault E "stat" p = None ->
         within E (temp_name E (fs (cache_ready E w)) (getCacheRoot E) "dl") p = false ->
         (forall f wa r wb,
             postprocess = Some f -> f p wa = Some (r, wb) ->
             fileExists E wa p = true -> fileExists E wb p = true) ->
         exists w2,
           CachedDownload E fuel' urlStr outputPath EmptyString quiet postprocess opts w1
           = Some (Ok p, w2)
           /\ requests w2 = requests w1).
Proof.
  assert (forall fuel urlStr outputPath quiet postprocess opts w,
             fileExists E w (cache_path E urlStr outputPath) = true ->
             exists w',
               CachedDownload E fuel urlStr outputPath EmptyString quiet postprocess opts w
               = Some (Ok (cache_path E urlStr outputPath), w')
               /\ requests w' = requests w
               /\ forall q x, fs w !! q = Some x -> fs w' !! q = Some x) as Hhit.
  { intros fuel urlStr outputPath quiet postprocess opts w Hfile.
    eexists. split; [now apply CachedDownload_hit|].
    unfold cache_ready.
    destruct (os_MkdirAll_effect E (getCacheRoot E) w)
      as (r & w' & -> & Hreq & _ & _ & Hkeep & _).
    destruct quiet; simpl; auto. }
  split; [exact Hhit|].
  intros fuel fuel' urlStr outputPath quiet postprocess opts w p w1 Hfirst Hstat Hout Hpp.
  assert (p = cache_path E urlStr outputPath /\ fileExists E w1 p = true) as [-> Hfile].
  { revert Hfirst. destruct (cache_ready_run E w) as [r Hrun].
    unfold CachedDownload. unfold bind at 1. unfold catch at 1. rewrite Hrun.
    unfold bind at 1. unfold get_world at 1. simpl String.eqb.
    rewrite andb_true_r, andb_false_r.
    destruct (fileExists E (cache_ready E w) (cache_path E urlStr outputPath)) eqn:Hthere.
    - unfold bind, log_unless, modify, ret. intros [= <- <-]. split; [reflexivity|].
      rewrite (fileExists_same_entry E (cache_ready E w)); [exact Hthere|].
      now destruct quiet.
    - intros Hagain. apply download_into_cache_Ok in Hagain
        as (-> & tmpDir & wb & dp & wc & wd & we & wf & Htmp & _ & Hren & Hwe & Hwf & ->).
      split; [reflexivity|]. simpl in Hwe. subst we.
      assert (tmpDir = temp_name E (fs (cache_ready E w)) (getCacheRoot E) "dl") as ->.
      { revert Htmp. unfold os_MkdirTemp.
        destruct (os_fault E "mkdirtemp" (getCacheRoot E)); [discriminate|].
        destruct (fs (cache_ready E w) !! getCacheRoot E) as [[c|]|]; try discriminate.
        destruct (fs (cache_ready E w) !! temp_name _ _ _ _); [discriminate|].
        now intros [= <- _]. }
      apply os_Rename_Ok in Hren as [_ [c [_ Hnew]]].
      assert (fileExists E wd (cache_path E urlStr outputPath) = true) as Hwd
          by (apply fileExists_true; eauto).
      assert (fileExists E wf (cache_path E urlStr outputPath) = true) as Hfile.
      { destruct postprocess as [f|]; [|now subst wf].
        eapply Hpp; [reflexivity | exact Hwf | exact Hwd]. }
      rewrite (fileExists_same_entry E wf); [exact Hfile|].
      now apply os_RemoveAll_outside. }
  destruct (Hhit fuel' urlStr outputPath quiet postprocess opts w1 Hfile)
    as (w2 & Hsecond & Hreq & _).
  eauto.
Qed.

(** The theorem at work: a call that finds the file, and a first call
    that downloads followed by a second call that does not. *)
Lemma CachedDownload_idempotent_witness :
  (exists w',
      CachedDownload Sample.offline 0 "http://host/a" EmptyString EmptyString true None
        Sample.plain_options Sample.cached_world
      = Some (Ok (cache_path Sample.offline "http://host/a" EmptyString), w')
      /\ requests w' = requests Sample.cached_world
      /\ forall q x, fs Sample.cached_world !! q = Some x -> fs w' !! q = Some x)
  /\ exists w1 w2,
      CachedDownload (Sample.serving ["hel"; "lo"]) 1 "http://host/a" EmptyString
        EmptyString true None Sample.plain_options Sample.empty_world
      = Some (Ok "/home/user/.cache/gdown/http-COLON--SLASH--SLASH-host-SLASH-a", w1)
      /\ length (requests w1) = 1%nat
      /\ CachedDownload (Sample.serving ["hel"; "lo"]) 0 "http://host/a" EmptyString
           EmptyString true None Sample.plain_options w1
         = Some (Ok "/home/user/.cache/gdown/http-COLON--SLASH--SLASH-host-SLASH-a", w2)
      /\ requests w2 = requests w1.
Proof.
  split.
  { apply (proj1 (CachedDownload_idempotent Sample.offline) 0%nat "http://host/a"
             EmptyString true None Sample.plain_options Sample.cached_world).
    reflexivity. }
  destruct (CachedDownload (Sample.serving ["hel"; "lo"]) 1 "http://host/a" EmptyString
              EmptyString true None Sample.plain_options Sample.empty_world)
    as [[[p|e] w1]|] eqn:Hfirst; try (vm_compute in Hfirst; discriminate Hfirst).
  assert (p = "/home/user/.cache/gdown/http-COLON--SLASH--SLASH-host-SLASH-a"
          /\ length (requests w1) = 1%nat) as [-> Hone].
  { vm_compute in Hfirst. injection Hfirst as <- <-. split; reflexivity. }
  destruct (proj2 (CachedDownload_idempotent (Sample.serving ["hel"; "lo"]))
              1%nat 0%nat "http://host/a" EmptyString true None Sample.plain_options
              Sample.empty_world _ w1 Hfirst) as (w2 & Hsecond & Hreq).
  - reflexivity.
  - vm_compute. reflexivity.
  - intros f wa r wb [=].
  - exists w1, w2. repeat split; assumption.
Defined.





(** ** The URL resolver *)

Lemma ParseUrl_unparsed (E : Env) (urlStr : string) (warn : bool) (w : World) (e : error) :
  url_Parse E urlStr = Err e ->
  ParseUrl E urlStr warn w = ((EmptyString, false, Some e), w).
Proof. intros H. unfold ParseUrl. now rewrite H. Qed.

(** C1.  For a URL whose host is [drive.google.com] or [docs.google.com]
    and whose query carries the key [id], [ParseUrl] returns the (first)
    value of that key as the identifier, with a nil error, whatever the
    path; for a URL with any other host it returns the empty identifier and
    a nil error.  Nothing is printed in either case. *)
Theorem ParseUrl_id_and_foreign_host
    (E : Env) (urlStr : string) (warn : bool) (w : World) (u : URL) :
  url_Parse E urlStr = Ok u ->
  (Hostname u = "drive.google.com" \/ Hostname u = "docs.google.com" ->
   forall values,
     Query u !! "id" = Some values ->
     ParseUrl E urlStr warn w
     = ((Values.Get (Query u) "id", strings.HasSuffix (Path u) "/uc", None), w)
     /\ Values.Get (Query u) "id" = List.hd EmptyString values)
  /\ (Hostname u <> "drive.google.com" -> Hostname u <> "docs.google.com" ->
      ParseUrl E urlStr warn w = ((EmptyString, false, None), w)).
Proof.
  intros Hparse. unfold ParseUrl, IsGoogleDriveUrl. rewrite Hparse. split.
  - intros Hhost values Hid.
    assert (String.eqb (Hostname u) "drive.google.com"
            || String.eqb (Hostname u) "docs.google.com" = true) as ->.
    { apply orb_true_iff. destruct Hhost as [-> | ->]; [left | right]; reflexivity. }
    unfold Values.Has, Values.Get. rewrite Hid. simpl.
    split; [reflexivity | now destruct values].
  - intros Hdrive Hdocs.
    apply String.eqb_neq in Hdrive, Hdocs. rewrite Hdrive, Hdocs. reflexivity.
Qed.

(** The theorem at work on two URLs of the sample environment. *)
Lemma ParseUrl_id_and_foreign_host_witness :
  ParseUrl Sample.offline "https://drive.google.com/some/odd/path?x=1&id=ABC123&id=Z"
    true Sample.empty_world
  = (("ABC123", false, None), Sample.empty_world)
  /\ ParseUrl Sample.offline "https://example.com/file/d/XYZ/view?id=ABC123"
       true Sample.empty_world
     = ((EmptyString, false, None), Sample.empty_world).
Proof.
  split.
  - destruct (ParseUrl_id_and_foreign_host Sample.offline
                "https://drive.google.com/some/odd/path?x=1&id=ABC123&id=Z"
                true Sample.empty_world _ eq_refl) as [Hid _].
    destruct (Hid (or_introl eq_refl) ["ABC123"; "Z"] eq_refl) as [Hrun _].
    exact Hrun.
  - destruct (ParseUrl_id_and_foreign_host Sample.offline
                "https://example.com/file/d/XYZ/view?id=ABC123"
                true Sample.empty_world _ eq_refl) as [_ Hforeign].
    apply Hforeign; discriminate.
Defined.

Example ParseUrl_view_link :
  ParseUrl Sample.offline "https://drive.google.com/file/d/ABC123/view"
    true Sample.empty_world
  = (("ABC123", false, None), eprint direct_link_warning Sample.empty_world).
Proof. reflexivity. Qed.

Example ParseUrl_user_index :
  ParseUrl Sample.offline "https://docs.google.com/spreadsheets/u/12/d/K9/htmlview"
    false Sample.empty_world
  = (("K9", false, None), Sample.empty_world).
Proof. reflexivity. Qed.

(** ** The throttled writer *)
Section Throttle.
Context (E : Env).

Lemma wrap64_small (z : Z) : (- 2 ^ 63 <= z < 2 ^ 63)%Z -> wrap64 z = z.
Proof.
  intros Hz. unfold wrap64. rewrite Z.mod_small by lia. lia.
Qed.

(** One write re-establishes the pace, whatever it was before. *)
Lemma ThrottledWriter_Write_paced (tw tw' : ThrottledWriter) (p : string)
    (w w' : World) (n : Z) (err : option error) :
  (forall t d, t + d <= time_Sleep E t d)%Z ->
  (0 < speed tw)%Z -> (0 <= written tw)%Z -> (0 <= n)%Z ->
  ((written tw + n) * Second < 2 ^ 63)%Z ->
  (0 <= now (snd (writer tw p w)) - start tw < 2 ^ 63)%Z ->
  fst (fst (writer tw p w)) = n ->
  ThrottledWriter_Write E tw p w = (((n, err), tw'), w') ->
  written tw' = (written tw + n)%Z /\ speed tw' = speed tw /\ start tw' = start tw
  /\ writer tw' = writer tw /\ paced tw' w'.
Proof.
  intros Hsleep Hspeed Hwritten Hn Hbound Hclock Hfst.
  unfold ThrottledWriter_Write.
  destruct (writer tw p w) as [[n0 err0] w1] eqn:Hw. simpl in Hfst, Hclock. subst n0.
  assert (0 < Second)%Z as Hsec by (unfold Second; lia).
  assert (written tw + n < 2 ^ 63)%Z as Hsmall by (unfold Second in *; lia).
  rewrite (wrap64_small (written tw + n)) by lia.
  assert (0 <= Z.quot (written tw + n) (speed tw) <= written tw + n)%Z as Hq.
  { split; [apply Z.quot_pos; lia|].
    rewrite Z.quot_div_nonneg by lia.
    apply Z.div_le_upper_bound; nia. }
  rewrite (wrap64_small (Duration_of_quotient _ _ * Second)) by
    (unfold Duration_of_quotient; nia).
  unfold Duration_of_quotient.
  intros [= <- <- <-]. cbn [written speed start writer].
  repeat split. unfold paced. cbn [written speed start].
  destruct (Z.gtb_spec (Z.quot (written tw + n) (speed tw) * Second) (now w1 - start tw))
    as [Hgt|Hle].
  - cbn [now set_now].
    rewrite wrap64_small by nia.
    specialize (Hsleep (now w1)
                  (Z.quot (written tw + n) (speed tw) * Second - (now w1 - start tw))%Z).
    lia.
  - lia.
Qed.

End Throttle.

(** C9, the code at the failing input: 1999 bytes (and 999 bytes) written
    in one piece through a writer limited to 1000 bytes per second, on a
    clock where nothing but sleeping takes time.  The expected duration is
    computed in whole seconds, 1 (and 0), so the writer sleeps one second
    (and not at all): the transfer is over after 1 s (and 0 s), short of the
    1.999 s (and 0.999 s) that the configured rate asks for. *)
Theorem ThrottledWriter_whole_seconds_only :
  (exists w',
      Download (Sample.serving [Sample.payload 1999]) 1 "http://host/a" "out"
        (Sample.throttled 1000) Sample.empty_world
      = Some (Ok "out", w')
      /\ fs w' !! "out" = Some (File (Sample.payload 1999))
      /\ (now w' - now Sample.empty_world = 1 * Second)%Z
      /\ ((now w' - now Sample.empty_world) * 1000 < 1999 * Second)%Z)
  /\ (exists w',
         Download (Sample.serving [Sample.payload 999]) 1 "http://host/a" "out"
           (Sample.throttled 1000) Sample.empty_world
         = Some (Ok "out", w')
         /\ fs w' !! "out" = Some (File (Sample.payload 999))
         /\ (now w' - now Sample.empty_world = 0)%Z
         /\ ((now w' - now Sample.empty_world) * 1000 < 999 * Second)%Z).
Proof.
  split; eexists; (split; [vm_compute; reflexivity|]);
    (split; [vm_compute; reflexivity|]); split; vm_compute; reflexivity.
Qed.

(** The same on the writer alone: one [Write] of 1999 bytes at 1000 bytes
    per second over a writer that takes everything at once. *)
Example ThrottledWriter_Write_1999 :
  let sink : io_Writer := fun p w => ((Z.of_nat (String.length p), None), w) in
  let tw := NewThrottledWriter sink 1000 Sample.empty_world in
  let '((_, tw'), w') :=
    ThrottledWriter_Write Sample.offline tw (Sample.payload 1999) Sample.empty_world in
  written tw' = 1999%Z /\ (now w' - start tw' = Second)%Z.
Proof. vm_compute. split; reflexivity. Qed.

(** ** The destination of a download *)
Section Filename.
Context (E : Env).
Import strings Regexp.










(** A byte at which [old] does not start is copied. *)
Lemma replace_cuts_miss (n : nat) (x : ascii) (s old new : string) :
  strip_prefix old (String x s) = None ->
  replace_cuts n (String x s) old new = String x (replace_cuts n s old new).
Proof.
  intros Hmiss. destruct n as [|n]; [reflexivity|].
  cbn [replace_cuts Cut]. rewrite Hmiss.
  destruct (Cut s old) as [[b a]|]; reflexivity.
Qed.

(** Replacing a one-byte string by a one-byte string maps the bytes. *)
Lemma ReplaceAll_byte (s : string) (c d : ascii) :
  ReplaceAll s (String c EmptyString) (String d EmptyString)
  = map_bytes (fun x => if Ascii.eqb c x then d else x) s.
Proof.
  unfold ReplaceAll. simpl String.eqb.
  induction s as [|x s IH]; [reflexivity|].
  cbn [String.length map_bytes]. destruct (Ascii.eqb c x) eqn:Hx.
  - cbn [replace_cuts Cut strip_prefix]. rewrite Hx. cbn [append]. f_equal. exact IH.
  - rewrite replace_cuts_miss by (cbn [strip_prefix]; now rewrite Hx).
    f_equal. rewrite <- IH. apply replace_cuts_enough; [discriminate | lia | lia].
Qed.

Lemma sanitizeFilename_bytes (name : string) :
  sanitizeFilename E name
  = map_bytes (fun x => if Ascii.eqb (os_PathSeparator E) x then "_"%char else x) name.
Proof. apply ReplaceAll_byte. Qed.

(** [destination] reads the world and leaves it alone. *)
Lemma destination_run (urlStr output : string) (resp : Response) (w : World) :
  destination E urlStr output resp w
  = match (if String.eqb output EmptyString
           then match url_Parse E urlStr with
                | Ok u => Ok (path_Base E (Path u))
                | Err e => Err e
                end
           else Ok output) with
    | Err e => Some (Err e, w)
    | Ok out =>
        Some (Ok (if is_directory E w out
                  then filepath_Join E [out; getFilenameFromResponse E resp]
                  else out), w)
    end.
Proof.
  unfold destination, is_directory, bind, lift, ret, get_world.
  destruct (String.eqb output EmptyString).
  - destruct (url_Parse E urlStr) as [u|e]; [|reflexivity].
    destruct (os_Stat E w (path_Base E (Path u))) as [fi|]; [|reflexivity].
    destruct (IsDir fi); reflexivity.
  - destruct (os_Stat E w output) as [fi|]; [|reflexivity].
    destruct (IsDir fi); reflexivity.
Qed.


End Filename.



Example getFilenameFromResponse_sample :
  getFilenameFromResponse Sample.attaching Sample.attachment = "my_re port.pdf"
  /\ getFilenameFromResponse Sample.attaching Sample.quoted_attachment = "a_b.pdf".
Proof. split; reflexivity. Qed.

(** ** The folder tree resolver *)
Section Resolver.
Context (E : Env).

(** A parsed page starts without children. *)
Lemma parseGoogleDriveFile_fresh (urlStr content : string)
    (gfile : GoogleDriveFile) (children : list child_row) :
  parseGoogleDriveFile E urlStr content = Ok (gfile, children) ->
  Children gfile = [].
Proof.
  unfold parseGoogleDriveFile.
  destruct (goquery_NewDocument E content) as [doc|]; [|discriminate].
  destruct (String.eqb _ EmptyString); [discriminate|].
  destruct (decodeUnicodeEscapes E _) as [decoded|]; [|discriminate].
  destruct (match json_Unmarshal E decoded with
            | Ok (JArray items) => Ok items
            | Ok JNull => Ok []
            | Ok _ => Err _
            | Err e => Err e
            end) as [folderArr|]; [|discriminate].
  destruct (length _ <? 2)%nat; [discriminate|].
  now intros [= <- _].
Qed.

(** The loop attaches one child per row, in the order of the rows. *)
Lemma attach_children_Ok (resolve : string -> M GoogleDriveFile) (quiet : bool)
    (children : list child_row) :
  forall (gfile gfile' : GoogleDriveFile) (w w' : World),
    attach_children resolve quiet children gfile w = Some (Ok gfile', w') ->
    exists nodes,
      Children gfile' = Children gfile ++ nodes
      /\ Forall2 (child_of_row resolve) children nodes.
Proof.
  induction children as [|child rest IH]; intros gfile gfile' w w'.
  - cbn [attach_children]. unfold ret. intros [= <- _].
    exists []. split; [now rewrite app_nil_r | constructor].
  - cbn [attach_children].
    destruct (String.eqb (row_Type child) folder_type) eqn:Htype; cbn [negb].
    + unfold bind at 1. unfold log_unless at 1, modify at 1. cbv beta iota.
      unfold bind at 1.
      destruct (resolve _ _) as [[[sub|e] w1]|] eqn:Hsub; try discriminate.
      intros Hrest. apply IH in Hrest as (nodes & Hnodes & Hall).
      exists (sub :: nodes). split.
      * rewrite Hnodes. cbn [append_child Children]. now rewrite <- app_assoc.
      * constructor; [|assumption]. unfold child_of_row. rewrite Htype. eauto.
    + unfold bind at 1. unfold log_unless at 1, modify at 1. cbv beta iota.
      intros Hrest. apply IH in Hrest as (nodes & Hnodes & Hall).
      exists (leaf_of_row child :: nodes). split.
      * rewrite Hnodes. cbn [append_child Children]. now rewrite <- app_assoc.
      * constructor; [|assumption]. unfold child_of_row. now rewrite Htype.
Qed.

(** Rows that are all plain files need no recursive call. *)
Lemma attach_children_leaves (resolve : string -> M GoogleDriveFile) (quiet : bool)
    (children : list child_row) :
  Forall (fun child => row_Type child <> folder_type) children ->
  forall (gfile : GoogleDriveFile) (w : World),
    exists w',
      attach_children resolve quiet children gfile w
      = Some (Ok (Build_GoogleDriveFile (ID gfile) (Name gfile) (Type_ gfile)
                    (Children gfile ++ map leaf_of_row children)), w')
      /\ requests w' = requests w /\ fs w' = fs w.
Proof.
  induction 1 as [|child rest Hchild _ IH]; intros gfile w.
  - exists w. cbn [attach_children map]. rewrite app_nil_r. now destruct gfile.
  - cbn [attach_children]. apply String.eqb_neq in Hchild. rewrite Hchild. cbn [negb].
    unfold bind at 1. unfold log_unless at 1, modify at 1. cbv beta iota.
    match goal with
    | |- context [attach_children _ _ _ ?g ?w0] =>
        destruct (IH g w0) as (w' & Hrun & Hreq & Hfs)
    end.
    exists w'. rewrite Hrun. cbn [append_child ID Name Type_ Children map].
    rewrite <- app_assoc. split; [reflexivity|]. now destruct quiet.
Qed.

(** One level of [downloadAndParseGoogleDriveLink] on a page that was
    fetched and parsed. *)
Lemma downloadAndParseGoogleDriveLink_page (fuel : nat) (client : http_Client)
    (quiet remainingOk verify : bool) (urlStr : string) (w w1 : World)
    (gfile : GoogleDriveFile) (children : list child_row) :
  folder_page E client urlStr w gfile children w1 ->
  downloadAndParseGoogleDriveLink E (S fuel) client quiet remainingOk verify urlStr w
  = match attach_children
            (downloadAndParseGoogleDriveLink E fuel client quiet remainingOk verify)
            quiet children gfile w1 with
    | None => None
    | Some (Err e, w2) => Some (Err e, w2)
    | Some (Ok gfile', w2) =>
        if (length (Children gfile') =? MAX_NUMBER_FILES)%nat && negb remainingOk
        then Some (Err (errors_New "folder has more than 50 files"), w2)
        else Some (Ok gfile', w2)
    end.
Proof.
  intros (resp & body & Hget & Hstatus & Hbody & Hparse).
  cbn [downloadAndParseGoogleDriveLink]. unfold bind at 1. rewrite Hget, Hstatus.
  cbn [Z.eqb Pos.eqb negb]. unfold bind at 1. unfold lift at 1. rewrite Hbody.
  unfold bind at 1. unfold lift at 1. rewrite Hparse.
  unfold bind at 1.
  destruct (attach_children _ quiet children gfile w1) as [[[gfile'|e] w2]|];
    try reflexivity.
  destruct ((length (Children gfile') =? MAX_NUMBER_FILES)%nat && negb remainingOk);
    reflexivity.
Qed.

End Resolver.

(** C4.  A folder with exactly 50 direct children is refused unless large
    folders are allowed.  Let the page of a folder be fetched and parsed
    into 50 rows.  Without [remainingOk] the resolution never succeeds,
    and once all children have been attached it fails with the
    [folder has more than 50 files] error.  With [remainingOk], once all
    children have been attached it succeeds, and the node it returns has
    one child per row, in the order of the rows: 50 children.  When the 50
    rows are plain files nothing else can go wrong: the resolution fails
    with that error without [remainingOk] and returns the 50 leaves with
    it. *)
Theorem folder_of_fifty
    (E : Env) (fuel : nat) (client : http_Client) (quiet verify : bool)
    (urlStr : string) (w w1 : World) (gfile : GoogleDriveFile)
    (children : list child_row) :
  folder_page E client urlStr w gfile children w1 ->
  length children = MAX_NUMBER_FILES ->
  (forall r wf,
      downloadAndParseGoogleDriveLink E (S fuel) client quiet false verify urlStr w
      = Some (r, wf) ->
      exists e, r = Err e)
  /\ (forall gfile' w2,
         attach_children
           (downloadAndParseGoogleDriveLink E fuel client quiet false verify)
           quiet children gfile w1 = Some (Ok gfile', w2) ->
         downloadAndParseGoogleDriveLink E (S fuel) client quiet false verify urlStr w
         = Some (Err (errors_New "folder has more than 50 files"), w2))
  /\ (forall gfile' w2,
         attach_children
           (downloadAndParseGoogleDriveLink E fuel client quiet true verify)
           quiet children gfile w1 = Some (Ok gfile', w2) ->
         downloadAndParseGoogleDriveLink E (S fuel) client quiet true verify urlStr w
         = Some (Ok gfile', w2)
         /\ length (Children gfile') = 50%nat
         /\ Forall2
              (child_of_row (downloadAndParseGoogleDriveLink E fuel client quiet true verify))
              children (Children gfile'))
  /\ (Forall (fun child => row_Type child <> folder_type) children ->
      (exists w2,
          downloadAndParseGoogleDriveLink E (S fuel) client quiet false verify urlStr w
          = Some (Err (errors_New "folder has more than 50 files"), w2))
      /\ (exists gfile' w2,
             downloadAndParseGoogleDriveLink E (S fuel) client quiet true verify urlStr w
             = Some (Ok gfile', w2)
             /\ Children gfile' = map leaf_of_row children
             /\ length (Children gfile') = 50%nat)).
Proof.
  intros Hpage Hfifty.
  assert (Children gfile = []) as Hfresh.
  { destruct Hpage as (resp & body & _ & _ & _ & Hparse).
    eapply parseGoogleDriveFile_fresh; eassumption. }
  assert (forall resolve gfile' w2,
             attach_children resolve quiet children gfile w1 = Some (Ok gfile', w2) ->
             length (Children gfile') = MAX_NUMBER_FILES
             /\ Forall2 (child_of_row resolve) children (Children gfile')) as Hcount.
  { intros resolve gfile' w2 Hattach.
    apply attach_children_Ok in Hattach as (nodes & Hnodes & Hall).
    rewrite Hfresh in Hnodes. cbn [app] in Hnodes. rewrite Hnodes.
    split; [|assumption]. rewrite <- Hfifty. symmetry. eapply Forall2_length; eassumption. }
  split; [|split; [|split]].
  - intros r wf. rewrite (downloadAndParseGoogleDriveLink_page E _ _ _ _ _ _ _ _ _ _ Hpage).
    destruct (attach_children _ quiet children gfile w1) as [[[gfile'|e] w2]|] eqn:Hattach;
      try discriminate.
    + destruct (Hcount _ _ _ Hattach) as [Hlen _]. rewrite Hlen, Nat.eqb_refl.
      cbn [negb andb]. intros [= <- _]. eauto.
    + intros [= <- _]. eauto.
  - intros gfile' w2 Hattach.
    rewrite (downloadAndParseGoogleDriveLink_page E _ _ _ _ _ _ _ _ _ _ Hpage), Hattach.
    destruct (Hcount _ _ _ Hattach) as [Hlen _]. now rewrite Hlen, Nat.eqb_refl.
  - intros gfile' w2 Hattach.
    rewrite (downloadAndParseGoogleDriveLink_page E _ _ _ _ _ _ _ _ _ _ Hpage), Hattach.
    destruct (Hcount _ _ _ Hattach) as [Hlen Hall]. rewrite andb_false_r.
    split; [reflexivity|]. split; assumption.
  - intros Hleaves. split.
    + destruct (attach_children_leaves
                  (downloadAndParseGoogleDriveLink E fuel client quiet false verify)
                  quiet children Hleaves gfile w1) as (w2 & Hattach & _).
      exists w2.
      rewrite (downloadAndParseGoogleDriveLink_page E _ _ _ _ _ _ _ _ _ _ Hpage), Hattach.
      destruct (Hcount _ _ _ Hattach) as [Hlen _]. now rewrite Hlen, Nat.eqb_refl.
    + destruct (attach_children_leaves
                  (downloadAndParseGoogleDriveLink E fuel client quiet true verify)
                  quiet children Hleaves gfile w1) as (w2 & Hattach & _).
      eexists _, w2.
      rewrite (downloadAndParseGoogleDriveLink_page E _ _ _ _ _ _ _ _ _ _ Hpage), Hattach.
      destruct (Hcount _ _ _ Hattach) as [Hlen _]. rewrite andb_false_r.
      split; [reflexivity|]. cbn [Children]. rewrite Hfresh. cbn [app].
      split; [reflexivity|]. rewrite length_map. exact Hfifty.
Qed.

(** The theorem at work on a folder of 50 plain files. *)
Lemma folder_of_fifty_witness :
  (forall r wf,
      downloadAndParseGoogleDriveLink (Sample.folder_of 50) 1 Sample.plain_client
        true false true "https://drive.google.com/drive/folders/ROOT" Sample.empty_world
      = Some (r, wf) ->
      exists e, r = Err e)
  /\ (exists w2,
         downloadAndParseGoogleDriveLink (Sample.folder_of 50) 1 Sample.plain_client
           true false true "https://drive.google.com/drive/folders/ROOT" Sample.empty_world
         = Some (Err (errors_New "folder has more than 50 files"), w2))
  /\ (exists gfile' w2,
         downloadAndParseGoogleDriveLink (Sample.folder_of 50) 1 Sample.plain_client
           true true true "https://drive.google.com/drive/folders/ROOT" Sample.empty_world
         = Some (Ok gfile', w2)
         /\ Children gfile'
            = map leaf_of_row
                (List.repeat {| row_ID := "id1"; row_Name := "report.txt";
                                row_Type := "text/plain" |} 50)
         /\ length (Children gfile') = 50%nat).
Proof.
  assert (exists gfile w1,
             folder_page (Sample.folder_of 50) Sample.plain_client
               "https://drive.google.com/drive/folders/ROOT" Sample.empty_world gfile
               (List.repeat {| row_ID := "id1"; row_Name := "report.txt";
                               row_Type := "text/plain" |} 50) w1)
    as (gfile & w1 & Hpage).
  { do 2 eexists. unfold folder_page. do 2 eexists.
    split; [vm_compute; reflexivity|]. split; [reflexivity|].
    split; [reflexivity|]. vm_compute. reflexivity. }
  pose proof (folder_of_fifty (Sample.folder_of 50) 0 Sample.plain_client
                true true "https://drive.google.com/drive/folders/ROOT"
                Sample.empty_world w1 gfile _ Hpage eq_refl)
    as (Hnever & _ & _ & Hleaves).
  split; [exact Hnever|]. apply Hleaves.
  apply Forall_forall. intros child Hin.
  apply list_elem_of_In, repeat_spec in Hin. subst child. discriminate.
Defined.

(** The row of the manifest that is a plain file, listed. *)
Example ListFolder_one_file :
  exists w',
    ListFolder (Sample.folder_of 1) 1 "https://drive.google.com/drive/folders/ROOT"
      EmptyString (Sample.folder_options false) Sample.empty_world
    = Some (Ok [ {| info_ID := "id1"; info_Path := "report.txt";
                    info_DownloadURL := "https://drive.google.com/uc?id=id1";
                    info_IsFolder := false |} ], w').
Proof. eexists. vm_compute. reflexivity. Qed.

(** ** The entry points for folders *)

(** C10.  [ListFolder] and [DownloadFolder] want exactly one of the URL
    and the identifier.  With both empty or both given they return the
    error at once: the world (file system, requests sent, output) is as it
    was.  With the identifier alone they behave as with the folder URL
    made from it, [https://drive.google.com/drive/folders/] followed by the
    identifier. *)
Theorem folder_entry_points_arguments (E : Env) :
  (forall fuel urlStr id output opts w,
      (id = EmptyString /\ urlStr = EmptyString)
      \/ (id <> EmptyString /\ urlStr <> EmptyString) ->
      ListFolder E fuel urlStr id opts w
      = Some (Err (errors_New "either url or id must be specified"), w)
      /\ DownloadFolder E fuel urlStr id output opts w
         = Some (Err (errors_New "either url or id must be specified"), w))
  /\ (forall fuel id output opts w,
         id <> EmptyString ->
         folder_url id = "https://drive.google.com/drive/folders/" +:+ id
         /\ ListFolder E fuel EmptyString id opts w
            = ListFolder E fuel (folder_url id) EmptyString opts w
         /\ DownloadFolder E fuel EmptyString id output opts w
            = DownloadFolder E fuel (folder_url id) EmptyString output opts w).
Proof.
  split.
  - intros fuel urlStr id output opts w Hargs.
    assert (String.eqb id EmptyString && String.eqb urlStr EmptyString
            || negb (String.eqb id EmptyString) && negb (String.eqb urlStr EmptyString)
            = true) as Hguard.
    { destruct Hargs as [[-> ->] | [Hid Hurl]]; [reflexivity|].
      apply String.eqb_neq in Hid, Hurl. now rewrite Hid, Hurl. }
    unfold ListFolder, DownloadFolder. rewrite Hguard. split; reflexivity.
  - intros fuel id output opts w Hid. split; [reflexivity|].
    assert (String.eqb (folder_url id) EmptyString = false) as Hurl by reflexivity.
    apply String.eqb_neq in Hid.
    unfold ListFolder, DownloadFolder. rewrite Hid, Hurl. cbn [String.eqb negb andb orb].
    split; reflexivity.
Qed.

(** The theorem at work: both arguments given, then the identifier alone. *)
Lemma folder_entry_points_arguments_witness :
  (ListFolder Sample.offline 3 "https://drive.google.com/drive/folders/ROOT" "ROOT"
     (Sample.folder_options false) Sample.empty_world
   = Some (Err (errors_New "either url or id must be specified"), Sample.empty_world)
   /\ DownloadFolder Sample.offline 3 "https://drive.google.com/drive/folders/ROOT" "ROOT"
        "out" (Sample.folder_options false) Sample.empty_world
      = Some (Err (errors_New "either url or id must be specified"), Sample.empty_world))
  /\ (folder_url "ROOT" = "https://drive.google.com/drive/folders/" +:+ "ROOT"
      /\ ListFolder Sample.offline 3 EmptyString "ROOT"
           (Sample.folder_options false) Sample.empty_world
         = ListFolder Sample.offline 3 (folder_url "ROOT") EmptyString
             (Sample.folder_options false) Sample.empty_world
      /\ DownloadFolder Sample.offline 3 EmptyString "ROOT" "out"
           (Sample.folder_options false) Sample.empty_world
         = DownloadFolder Sample.offline 3 (folder_url "ROOT") EmptyString "out"
             (Sample.folder_options false) Sample.empty_world).
Proof.
  split.
  - apply (proj1 (folder_entry_points_arguments Sample.offline)).
    right. split; discriminate.
  - apply (proj2 (folder_entry_points_arguments Sample.offline)). discriminate.
Defined.

(** ** The confirmation loop of [Download] *)
Section Loop.
Context (E : Env).

(** One pass on a confirmation page: stop on the original URL, go on with
    the rewritten URL otherwise. *)
Lemma Download_loop_page (fuel : nat) (client : http_Client) (opts : DownloadOptions)
    (origUrl urlStr output next : string) (w w' : World) :
  confirmation_page E client opts urlStr output w next w' ->
  Download_loop E (S fuel) client opts origUrl urlStr output w
  = if String.eqb origUrl next then Some (Ok output, w')
    else Download_loop E fuel client opts origUrl next output w'.
Proof.
  intros (req & resp & body & Hreq & Hresp & Hct & Hbody & Hnext & ->).
  cbn [Download_loop]. unfold bind at 1. unfold get_world. cbv beta iota.
  unfold bind at 1. unfold lift at 1. rewrite Hreq.
  unfold bind at 1. unfold client_Do. rewrite Hresp, Hct.
  unfold bind at 1. unfold lift at 1. rewrite Hbody.
  unfold bind at 1. unfold lift at 1. rewrite Hnext.
  destruct (String.eqb origUrl next); reflexivity.
Qed.



End Loop.



(** The stop depends on the page linking back to the URL asked for: when
    every confirmation page links somewhere else, no amount of fuel makes
    [Download] return. *)
Lemma Download_loop_elsewhere (fuel : nat) :
  forall (urlStr : string) (w : World),
    is_Ok (Sample.parse urlStr) = true ->
    Download_loop Sample.elsewhere fuel Sample.plain_client
      (effective_options Sample.plain_options)
      "https://docs.google.com/uc?export=download&id=0" urlStr "out" w
    = None.
Proof.
  induction fuel as [|fuel IH]; intros urlStr w Hparse; [reflexivity|].
  rewrite (Download_loop_page Sample.elsewhere fuel _ _ _ urlStr "out"
             "https://docs.google.com/uc?export=download&id=1" w
             (log_request w
                {| req_client := Sample.plain_client; req_url := urlStr;
                   req_header := [("User-Agent", default_UserAgent)] |})).
  - apply IH. reflexivity.
  - eexists _, _, _. split.
    + unfold http_NewRequest. cbn [url_Parse Sample.elsewhere Sample.env].
      destruct (Sample.parse urlStr); [reflexivity | discriminate].
    + repeat (split; [reflexivity|]). reflexivity.
Qed.

Lemma Download_keeps_following (fuel : nat) :
  Download Sample.elsewhere fuel "https://docs.google.com/uc?export=download&id=0" "out"
    Sample.plain_options Sample.empty_world
  = None.
Proof. apply (Download_loop_elsewhere fuel). reflexivity. Qed.

(** * Further properties of the package *)

(** ** The path templates of the URL resolver *)
Section Templates.
Import strings Regexp.

Lemma free_of_append (c : ascii) (x y : string) :
  free_of c (x +:+ String c y) = false.
Proof.
  induction x as [|d x IH]; simpl.
  - now rewrite Ascii.eqb_refl.
  - rewrite IH. apply andb_false_r.
Qed.

Lemma action_at_end_In (actions : list string) (a : string) :
  In a actions -> action_at_end actions ("/" +:+ a) = Some a.
Proof.
  induction actions as [|a' actions IH]; intros Hin; [destruct Hin|].
  cbn [action_at_end]. destruct (String.eqb_spec ("/" +:+ a) ("/" +:+ a')) as [Heq|Hne].
  - now injection Heq as ->.
  - destruct Hin as [->|Hin]; [congruence | auto].
Qed.

Lemma action_at_end_None (actions : list string) (s : string) :
  (forall a, In a actions -> s <> "/" +:+ a) -> action_at_end actions s = None.
Proof.
  induction actions as [|a' actions IH]; intros Hno; [reflexivity|].
  cbn [action_at_end]. destruct (String.eqb_spec s ("/" +:+ a')) as [Heq|Hne].
  - exfalso. apply (Hno a'); [now left | exact Heq].
  - apply IH. intros a Hin. apply Hno. now right.
Qed.

(** The lazy group takes the whole identifier: the text has to end right
    after the action, and no action holds a slash. *)
Lemma lazy_id_spec (actions : list string) (id a : string) :
  (forall a', In a' actions -> free_of "/" a' = true) ->
  In a actions -> all_bytes not_lf id = true ->
  lazy_id actions (id +:+ "/" +:+ a) = Some (id, a).
Proof.
  intros Hfree Hin. induction id as [|c id IH]; intros Hid.
  - change (EmptyString +:+ "/" +:+ a) with (String "/" a).
    cbn [lazy_id]. change (String "/" a) with ("/" +:+ a).
    now rewrite action_at_end_In.
  - simpl in Hid. apply andb_true_iff in Hid as [Hc Hid].
    change (String c id +:+ "/" +:+ a) with (String c (id +:+ "/" +:+ a)).
    cbn [lazy_id]. rewrite action_at_end_None.
    + rewrite Hc, (IH Hid). reflexivity.
    + intros a' Ha' Heq. injection Heq as _ Heq.
      specialize (Hfree a' Ha'). rewrite <- Heq in Hfree.
      change (id +:+ "/" +:+ a) with (id +:+ String "/" a) in Hfree.
      now rewrite free_of_append in Hfree.
Qed.

Lemma substring_skip (x y : string) (k m : nat) :
  String.substring (String.length x + k) m (x +:+ y) = String.substring k m y.
Proof. induction x as [|c x IH]; [reflexivity | exact IH]. Qed.

(** A suffix no longer than the second part is looked for there. *)
Lemma HasSuffix_append (x y suffix : string) :
  (String.length suffix <= String.length y)%nat ->
  HasSuffix (x +:+ y) suffix = HasSuffix y suffix.
Proof.
  intros Hlen. unfold HasSuffix. rewrite length_append.
  replace (String.length x + String.length y - String.length suffix)%nat
    with (String.length x + (String.length y - String.length suffix))%nat by lia.
  rewrite substring_skip. f_equal.
  destruct (Nat.leb_spec (String.length suffix) (String.length y)); [|lia].
  destruct (Nat.leb_spec (String.length suffix) (String.length x + String.length y));
    [reflexivity | lia].
Qed.

Lemma template_actions_free (kind a : string) :
  In a (template_actions kind) -> free_of "/" a = true.
Proof.
  unfold template_actions. destruct (String.eqb kind "file"); simpl;
    intuition (subst; reflexivity).
Qed.

Lemma template_not_download_link (kind : string) (user : option string) (id action : string) :
  In action (template_actions kind) ->
  HasSuffix (template_path kind user id action) "/uc" = false.
Proof.
  intros Hin. unfold template_path. rewrite <- !append_assoc.
  unfold template_actions in Hin.
  destruct (String.eqb kind "file"); simpl in Hin;
    intuition (subst; rewrite HasSuffix_append; [reflexivity | simpl; lia]).
Qed.

(** The digits of a user index, up to the slash that follows them. *)
Lemma span_digits (n rest : string) :
  all_bytes is_digit n = true ->
  span is_digit (n +:+ "/" +:+ rest) = (n, "/" +:+ rest).
Proof. intros Hn. now apply span_unique. Qed.

(** One pattern against a template path: it matches when its kind and
    its use of a user index are those of the path. *)
Lemma path_FindStringSubmatch_template (p : path_pattern) (kind : string)
    (user : option string) (id action : string) :
  In kind template_kinds -> In (pat_kind p) template_kinds ->
  (forall n, user = Some n -> n <> EmptyString /\ all_bytes is_digit n = true) ->
  path_FindStringSubmatch p (template_path kind user id action)
  = if String.eqb (pat_kind p) kind
       && Bool.eqb (pat_user p) (match user with Some _ => true | None => false end)
    then match lazy_id (pat_actions p) (id +:+ "/" +:+ action) with
         | Some (i, a) => [template_path kind user id action; i; a]
         | None => []
         end
    else [].
Proof.
  intros Hkind Hpat Huser. unfold path_FindStringSubmatch.
  destruct (String.eqb_spec (pat_kind p) kind) as [->|Hne].
  - destruct user as [n|].
    + destruct (Huser n eq_refl) as [Hn Hdigits].
      assert (template_path kind (Some n) id action
              = ("/" +:+ kind +:+ "/")
                  +:+ "u/" +:+ n +:+ "/" +:+ "d/" +:+ id +:+ "/" +:+ action) as Hshape
          by (unfold template_path; cbn [append]; now rewrite !append_assoc).
      rewrite Hshape at 1. rewrite strip_prefix_append.
      destruct (pat_user p); cbn [andb Bool.eqb].
      * rewrite (strip_prefix_append "u/"), span_digits by assumption.
        destruct n as [|c n]; [congruence|].
        rewrite (strip_prefix_append "/"), (strip_prefix_append "d/"). reflexivity.
      * reflexivity.
    + assert (template_path kind None id action
              = ("/" +:+ kind +:+ "/") +:+ "d/" +:+ id +:+ "/" +:+ action) as Hshape
          by (unfold template_path; cbn [append]; now rewrite !append_assoc).
      rewrite Hshape at 1. rewrite strip_prefix_append.
      destruct (pat_user p); cbn [andb Bool.eqb].
      * reflexivity.
      * rewrite (strip_prefix_append "d/"). reflexivity.
  - cbn [andb].
    assert (strip_prefix ("/" +:+ pat_kind p +:+ "/") (template_path kind user id action)
            = None) as ->; [|reflexivity].
    unfold template_path, template_kinds in *. simpl in Hkind, Hpat.
    destruct Hkind as [<-|[<-|[<-|[<-|[]]]]];
      destruct Hpat as [Hp|[Hp|[Hp|[Hp|[]]]]]; rewrite <- Hp in *;
      try congruence; reflexivity.
Qed.

Lemma first_capture_template (kind : string) (user : option string) (id action : string) :
  In kind template_kinds -> In action (template_actions kind) ->
  (forall n, user = Some n -> n <> EmptyString /\ all_bytes is_digit n = true) ->
  all_bytes not_lf id = true ->
  first_capture patterns (template_path kind user id action) = id.
Proof.
  intros Hkind Haction Huser Hid.
  pose proof (template_actions_free kind) as Hfree.
  assert (lazy_id (template_actions kind) (id +:+ "/" +:+ action) = Some (id, action)) as Hlazy
      by (apply lazy_id_spec; auto).
  unfold patterns. cbn [first_capture].
  rewrite !path_FindStringSubmatch_template
    by (assumption || (cbn [pat_kind template_kinds In]; tauto)).
  cbn [pat_kind pat_user pat_actions].
  simpl in Hkind.
  destruct Hkind as [<-|[<-|[<-|[<-|[]]]]]; destruct user;
    cbn [template_actions String.eqb Ascii.eqb Bool.eqb andb] in *;
    rewrite Hlazy; reflexivity.
Qed.

End Templates.

(** X1.  The path templates of [ParseUrl].  For a Drive URL
    ([drive.google.com] or [docs.google.com]) without an [id] key in its
    query, whose path is [/KIND/d/ID/ACTION] or [/KIND/u/N/d/ID/ACTION]
    (KIND one of file, document, presentation, spreadsheets; ACTION one of
    edit, view and, except for file, htmlview; N a non-empty run of
    digits; ID any text without a line feed, slashes included), the
    identifier returned is ID, the link is not a download link and the
    error is nil; the warning about a link that is not a direct download
    link is printed exactly when it is asked for and ID is not empty. *)
Theorem ParseUrl_path_template
    (E : Env) (urlStr : string) (warn : bool) (w : World) (u : URL)
    (kind : string) (user : option string) (id action : string) :
  url_Parse E urlStr = Ok u ->
  Hostname u = "drive.google.com" \/ Hostname u = "docs.google.com" ->
  Query u !! "id" = None ->
  In kind template_kinds -> In action (template_actions kind) ->
  (forall n, user = Some n ->
             n <> EmptyString /\ strings.all_bytes Regexp.is_digit n = true) ->
  strings.all_bytes Regexp.not_lf id = true ->
  Path u = template_path kind user id action ->
  ParseUrl E urlStr warn w
  = ((id, false, None),
     if warn && negb (String.eqb id EmptyString)
     then eprint direct_link_warning w else w).
Proof.
  intros Hparse Hhost Hquery Hkind Haction Huser Hid Hpath.
  unfold ParseUrl, IsGoogleDriveUrl. rewrite Hparse.
  assert (String.eqb (Hostname u) "drive.google.com"
          || String.eqb (Hostname u) "docs.google.com" = true) as ->.
  { apply orb_true_iff. destruct Hhost as [-> | ->]; [left | right]; reflexivity. }
  unfold Values.Has. rewrite Hquery, Hpath. cbn [negb].
  rewrite first_capture_template by assumption.
  rewrite template_not_download_link by assumption.
  cbn [negb]. now rewrite andb_true_r.
Qed.

(** The theorem at work: a view link with a user index, and an edit link
    whose identifier holds a slash. *)
Lemma ParseUrl_path_template_witness :
  ParseUrl Sample.offline "https://docs.google.com/spreadsheets/u/12/d/K9/htmlview"
    true Sample.empty_world
  = (("K9", false, None), eprint direct_link_warning Sample.empty_world)
  /\ ParseUrl Sample.offline "https://drive.google.com/file/d/a/view/b/edit"
       false Sample.empty_world
     = (("a/view/b", false, None), Sample.empty_world).
Proof.
  split.
  - apply (ParseUrl_path_template Sample.offline
             "https://docs.google.com/spreadsheets/u/12/d/K9/htmlview" true
             Sample.empty_world
             {| Hostname := "docs.google.com"; Path := "/spreadsheets/u/12/d/K9/htmlview";
                Query := ∅ |}
             "spreadsheets" (Some "12") "K9" "htmlview").
    + reflexivity.
    + now right.
    + reflexivity.
    + simpl. tauto.
    + simpl. tauto.
    + intros n [= <-]. split; [discriminate | reflexivity].
    + reflexivity.
    + reflexivity.
  - apply (ParseUrl_path_template Sample.offline
             "https://drive.google.com/file/d/a/view/b/edit" false
             Sample.empty_world
             {| Hostname := "drive.google.com"; Path := "/file/d/a/view/b/edit";
                Query := ∅ |}
             "file" None "a/view/b" "edit").
    + reflexivity.
    + now left.
    + reflexivity.
    + simpl. tauto.
    + simpl. tauto.
    + intros n [=].
    + reflexivity.
    + reflexivity.
Defined.

(** ** What [ParseUrl] does besides computing its result *)

(** X2.  [ParseUrl] reports an error exactly when [url.Parse] refuses the
    string.  Its result depends neither on [warn] nor on the world; the
    only thing it ever does to the world is to print the warning about a
    link that is not a direct download link, and it prints it only when
    [warn] is set, the identifier returned is not empty and the link is not
    a download link. *)
Theorem ParseUrl_only_warns (E : Env) (urlStr : string) (warn : bool) (w w0 : World) :
  fst (ParseUrl E urlStr warn w) = fst (ParseUrl E urlStr false w0)
  /\ snd (ParseUrl E urlStr false w) = w
  /\ (snd (fst (ParseUrl E urlStr warn w)) = None <-> is_Ok (url_Parse E urlStr) = true)
  /\ (snd (ParseUrl E urlStr warn w) = w
      \/ (warn = true
          /\ fst (fst (fst (ParseUrl E urlStr warn w))) <> EmptyString
          /\ snd (fst (fst (ParseUrl E urlStr warn w))) = false
          /\ snd (ParseUrl E urlStr warn w) = eprint direct_link_warning w)).
Proof.
  unfold ParseUrl. destruct (url_Parse E urlStr) as [parsed|e]; cbn [is_Ok].
  - destruct (negb (IsGoogleDriveUrl E urlStr)).
    + cbn [fst snd]. repeat split; auto.
    + destruct (Values.Has (Query parsed) "id").
      * cbn [fst snd]. repeat split; auto.
      * cbn [fst snd andb]. split; [reflexivity|]. split; [reflexivity|].
        split; [split; reflexivity|].
        destruct warn; cbn [andb]; [|now left].
        destruct (String.eqb_spec (first_capture patterns (Path parsed)) EmptyString)
          as [Hid|Hid]; cbn [negb andb]; [now left|].
        destruct (strings.HasSuffix (Path parsed) "/uc"); cbn [negb]; [now left|].
        right. auto.
  - cbn [fst snd]. repeat split; auto; discriminate.
Qed.

(** ** File names *)
Section Names.
Context (E : Env).
Import strings.

Lemma free_of_app (c : ascii) (x y : string) :
  free_of c (x +:+ y) = free_of c x && free_of c y.
Proof.
  induction x as [|d x IH]; simpl; [reflexivity|]. now rewrite IH, andb_assoc.
Qed.

Lemma map_bytes_length (f : ascii -> ascii) (s : string) :
  String.length (map_bytes f s) = String.length s.
Proof. induction s as [|c s IH]; simpl; [reflexivity | now rewrite IH]. Qed.

Lemma map_bytes_free (c d : ascii) (s : string) :
  c <> d -> free_of c (map_bytes (fun x => if Ascii.eqb c x then d else x) s) = true.
Proof.
  intros Hne. induction s as [|x s IH]; simpl; [reflexivity|].
  rewrite IH, andb_true_r. destruct (Ascii.eqb_spec c x) as [->|Hx].
  - now apply negb_true_iff, Ascii.eqb_neq.
  - now apply negb_true_iff, Ascii.eqb_neq.
Qed.

Lemma map_bytes_id (c d : ascii) (s : string) :
  free_of c s = true -> map_bytes (fun x => if Ascii.eqb c x then d else x) s = s.
Proof.
  induction s as [|x s IH]; simpl; [reflexivity|].
  intros H. apply andb_true_iff in H as [Hx Hs].
  apply negb_true_iff in Hx. now rewrite Hx, IH.
Qed.

End Names.

(** X3.  [sanitizeFilename] leaves no path separator in a name: the name
    it returns has the length of the one it was given and holds no
    separator; a name without separators is returned as it is, so
    sanitizing twice is sanitizing once.  (The separator is not the
    underscore.) *)
Theorem sanitizeFilename_no_separator (E : Env) (name : string) :
  os_PathSeparator E <> "_"%char ->
  strings.free_of (os_PathSeparator E) (sanitizeFilename E name) = true
  /\ String.length (sanitizeFilename E name) = String.length name
  /\ (strings.free_of (os_PathSeparator E) name = true -> sanitizeFilename E name = name)
  /\ sanitizeFilename E (sanitizeFilename E name) = sanitizeFilename E name.
Proof.
  intros Hsep. rewrite !sanitizeFilename_bytes.
  assert (strings.free_of (os_PathSeparator E)
            (strings.map_bytes
               (fun x => if Ascii.eqb (os_PathSeparator E) x then "_"%char else x) name)
          = true) as Hfree by now apply map_bytes_free.
  split; [exact Hfree|]. split; [apply map_bytes_length|].
  split; [apply map_bytes_id|]. now apply map_bytes_id.
Qed.

Lemma sanitizeFilename_no_separator_witness :
  strings.free_of "/" (sanitizeFilename Sample.offline "a/b/c.txt") = true
  /\ String.length (sanitizeFilename Sample.offline "a/b/c.txt") = 9%nat
  /\ (strings.free_of "/" "a/b/c.txt" = true
      -> sanitizeFilename Sample.offline "a/b/c.txt" = "a/b/c.txt")
  /\ sanitizeFilename Sample.offline (sanitizeFilename Sample.offline "a/b/c.txt")
     = sanitizeFilename Sample.offline "a/b/c.txt".
Proof.
  apply (sanitizeFilename_no_separator Sample.offline "a/b/c.txt"). discriminate.
Defined.

(** X4.  The file name that [getFilenameFromResponse] derives from an
    answer never holds a path separator, whatever the Content-Disposition
    header says: it is a single path component.  (The separator is the
    slash or the backslash.) *)
Theorem getFilenameFromResponse_no_separator (E : Env) (resp : Response) :
  os_PathSeparator E = "/"%char \/ os_PathSeparator E = Regexp.backslash ->
  strings.free_of (os_PathSeparator E) (getFilenameFromResponse E resp) = true.
Proof.
  intros Hsep.
  assert (os_PathSeparator E <> "_"%char) as Hne
      by (destruct Hsep as [-> | ->]; [discriminate | vm_compute; discriminate]).
  assert (strings.free_of (os_PathSeparator E) "downloaded_file" = true) as Hdefault
      by (destruct Hsep as [-> | ->]; reflexivity).
  assert (forall name, strings.free_of (os_PathSeparator E) (sanitizeFilename E name) = true)
    as Hclean by (intros name; rewrite sanitizeFilename_bytes; now apply map_bytes_free).
  unfold getFilenameFromResponse.
  assert (strings.free_of (os_PathSeparator E)
            match Regexp.basic_FindStringSubmatch
                    (Header_Get (Header resp) "Content-Disposition") with
            | [_; name] => sanitizeFilename E name
            | _ => "downloaded_file"
            end = true) as Hbasic.
  { destruct (Regexp.basic_FindStringSubmatch _) as [|x [|name [|y l]]]; auto. }
  destruct (String.eqb _ EmptyString); [exact Hdefault|].
  destruct (Regexp.ext_FindStringSubmatch _) as [|x [|escaped [|y l]]]; auto.
  destruct (url_QueryUnescape E escaped); auto.
Qed.

Lemma getFilenameFromResponse_no_separator_witness :
  strings.free_of "/" (getFilenameFromResponse Sample.attaching Sample.attachment) = true.
Proof.
  apply (getFilenameFromResponse_no_separator Sample.attaching Sample.attachment).
  now left.
Defined.

(** ** The key of a cached download *)
Section CacheKey.
Import strings.

Lemma Replacer_single (c : ascii) (s : string) :
  Replacer_go
    [("/", "-SLASH-"); (":", "-COLON-"); ("=", "-EQUAL-"); ("?", "-QUESTION-")]
    0 (String c s)
  = key_bytes c
    +:+ Replacer_go
          [("/", "-SLASH-"); (":", "-COLON-"); ("=", "-EQUAL-"); ("?", "-QUESTION-")]
          0 s.
Proof.
  assert (forall d, HasPrefix (String c s) (String d EmptyString)
                    && negb (String.eqb (String d EmptyString) EmptyString)
                    = Ascii.eqb c d) as Hhead.
  { intros d. unfold HasPrefix. cbn [strip_prefix]. rewrite (Ascii.eqb_sym d c).
    destruct (Ascii.eqb c d); reflexivity. }
  cbn [Replacer_go first_match]. rewrite !Hhead. unfold key_bytes.
  destruct (Ascii.eqb c "/"); [reflexivity|].
  destruct (Ascii.eqb c ":"); [reflexivity|].
  destruct (Ascii.eqb c "="); [reflexivity|].
  destruct (Ascii.eqb c "?"); reflexivity.
Qed.

Lemma concat_cons (x : string) (l : list string) :
  String.concat EmptyString (x :: l) = x +:+ String.concat EmptyString l.
Proof. destruct l; [now rewrite append_nil_r | reflexivity]. Qed.

Lemma key_bytes_free (c d : ascii) :
  In d ["/"; ":"; "="; "?"]%char -> free_of d (key_bytes c) = true.
Proof.
  intros Hd. unfold key_bytes.
  destruct (Ascii.eqb_spec c "/"); [simpl in Hd; intuition (subst; reflexivity)|].
  destruct (Ascii.eqb_spec c ":"); [simpl in Hd; intuition (subst; reflexivity)|].
  destruct (Ascii.eqb_spec c "="); [simpl in Hd; intuition (subst; reflexivity)|].
  destruct (Ascii.eqb_spec c "?"); [simpl in Hd; intuition (subst; reflexivity)|].
  simpl. rewrite andb_true_r. apply negb_true_iff, Ascii.eqb_neq.
  simpl in Hd. intuition congruence.
Qed.

End CacheKey.

(** X5.  The cache key of a URL holds none of the bytes [/], [:], [=]
    and [?]: each of them is written out as a word between dashes and every
    other byte is copied, so the key is a single path component and a URL
    without those bytes is its own key. *)
Theorem cache_key_plain (urlStr : string) :
  (forall d, In d ["/"; ":"; "="; "?"]%char -> strings.free_of d (cache_key urlStr) = true)
  /\ cache_key urlStr = String.concat EmptyString (map key_bytes (list_ascii_of_string urlStr))
  /\ ((forall d, In d ["/"; ":"; "="; "?"]%char -> strings.free_of d urlStr = true) ->
      cache_key urlStr = urlStr).
Proof.
  unfold cache_key, strings.Replacer_Replace.
  assert (strings.Replacer_go
            [("/", "-SLASH-"); (":", "-COLON-"); ("=", "-EQUAL-"); ("?", "-QUESTION-")]
            0 urlStr
          = String.concat EmptyString (map key_bytes (list_ascii_of_string urlStr))) as Hkey.
  { induction urlStr as [|c s IH]; [reflexivity|].
    rewrite Replacer_single, IH. cbn [list_ascii_of_string map].
    now rewrite concat_cons. }
  split; [|split; [exact Hkey|]].
  - intros d Hd. rewrite Hkey. clear Hkey.
    induction urlStr as [|c s IH]; [reflexivity|].
    cbn [list_ascii_of_string map].
    rewrite concat_cons, free_of_app, IH, andb_true_r. now apply key_bytes_free.
  - intros Hfree. clear Hkey. induction urlStr as [|c s IH]; [reflexivity|].
    rewrite Replacer_single, IH.
    + unfold key_bytes.
      assert (forall d, In d ["/"; ":"; "="; "?"]%char -> Ascii.eqb c d = false) as Hc.
      { intros d Hd. specialize (Hfree d Hd). simpl in Hfree.
        apply andb_true_iff in Hfree as [Hcd _]. apply negb_true_iff in Hcd.
        now rewrite Ascii.eqb_sym. }
      rewrite !Hc by (simpl; tauto). reflexivity.
    + intros d Hd. specialize (Hfree d Hd). simpl in Hfree.
      now apply andb_true_iff in Hfree as [_ ?].
Qed.

Lemma cache_key_plain_witness :
  (forall d, In d ["/"; ":"; "="; "?"]%char ->
             strings.free_of d (cache_key "http://host/a?id=1") = true)
  /\ cache_key "http://host/a?id=1"
     = "http-COLON--SLASH--SLASH-host-SLASH-a-QUESTION-id-EQUAL-1"
  /\ cache_key "plain-name.bin" = "plain-name.bin".
Proof.
  destruct (cache_key_plain "http://host/a?id=1") as (Hfree & Hkey & _).
  destruct (cache_key_plain "plain-name.bin") as (_ & _ & Hid).
  split; [exact Hfree|]. split; [exact Hkey|].
  apply Hid. intros d Hd. simpl in Hd. intuition (subst; reflexivity).
Defined.

(** ** Computations and what they leave alone *)
Section Preservation.
Context (R : World -> World -> Prop).
Hypothesis R_refl : forall w, R w w.
Hypothesis R_trans : forall a b c, R a b -> R b c -> R a c.

Lemma preserves_ret {A} (a : A) : preserves R (ret a).
Proof using All. intros w r w' [= _ <-]. apply R_refl. Qed.

Lemma preserves_fail {A} (e : error) : preserves R (@fail A e).
Proof using All. intros w r w' [= _ <-]. apply R_refl. Qed.

Lemma preserves_lift {A} (x : Result A) : preserves R (lift x).
Proof using All. intros w r w' [= _ <-]. apply R_refl. Qed.

Lemma preserves_get_world : preserves R get_world.
Proof using All. intros w r w' [= _ <-]. apply R_refl. Qed.

Lemma preserves_diverge {A} : preserves R (@diverge A).
Proof using All. intros w r w' [=]. Qed.

Lemma preserves_bind {A B} (c : M A) (k : A -> M B) :
  preserves R c -> (forall a, preserves R (k a)) -> preserves R (bind c k).
Proof using All.
  intros Hc Hk w r w'. unfold bind.
  destruct (c w) as [[[a|e] w1]|] eqn:Hrun; [| |discriminate].
  - intros Hrest. eapply R_trans; [eapply Hc; eassumption | eapply Hk; eassumption].
  - intros [= _ <-]. eapply Hc; eassumption.
Qed.

Lemma preserves_catch {A} (c : M A) : preserves R c -> preserves R (catch c).
Proof using All.
  intros Hc w r w'. unfold catch.
  destruct (c w) as [[x w1]|] eqn:Hrun; [|discriminate].
  intros [= _ <-]. eapply Hc; eassumption.
Qed.

Lemma preserves_modify (g : World -> World) :
  (forall w, R w (g w)) -> preserves R (modify g).
Proof using All. intros Hg w r w' [= _ <-]. apply Hg. Qed.

Lemma preserves_log_unless (quiet : bool) (line : string) :
  (forall l w, R w (eprint l w)) -> preserves R (log_unless quiet line).
Proof using All.
  intros Hprint. apply preserves_modify. intros w. destruct quiet; [apply R_refl | apply Hprint].
Qed.

Lemma preserves_with_defer {A} (cleanup : World -> World) (c : M A) :
  preserves R c -> (forall w, R w (cleanup w)) -> preserves R (with_defer cleanup c).
Proof using All.
  intros Hc Hclean w r w'. unfold with_defer.
  destruct (c w) as [[x w1]|] eqn:Hrun; [|discriminate].
  intros [= _ <-]. eapply R_trans; [eapply Hc; eassumption | apply Hclean].
Qed.

(** A copy preserves what every write preserves; [I] is what is known of
    the writer between the writes. *)
Lemma preserves_io_Copy {W : Type} (I : W -> Prop)
    (write : W -> string -> World -> ((Z * option error) * W) * World)
    (chunks : list string) (err : option error) :
  (forall dst p w, I dst -> R w (snd (write dst p w)) /\ I (snd (fst (write dst p w)))) ->
  forall dst, I dst -> preserves R (io_Copy write dst chunks err).
Proof using All.
  intros Hwrite. induction chunks as [|chunk rest IH]; intros dst Hdst.
  - cbn [io_Copy]. destruct err; [apply preserves_fail | apply preserves_ret].
  - cbn [io_Copy]. destruct (String.eqb chunk EmptyString); [now apply IH|].
    intros w r w'. destruct (Hwrite dst chunk w Hdst) as [Hw Hdst'].
    destruct (write dst chunk w) as [[[nw ew] dst'] w1]. cbn [fst snd] in Hw, Hdst'.
    destruct ew as [e|].
    + now intros [= _ <-].
    + destruct (nw =? Z.of_nat (String.length chunk))%Z.
      * intros Hrest. eapply R_trans; [exact Hw | eapply IH; eassumption].
      * now intros [= _ <-].
Qed.

(** A copy always returns. *)
Lemma io_Copy_returns {W : Type}
    (write : W -> string -> World -> ((Z * option error) * W) * World)
    (chunks : list string) (err : option error) :
  forall dst w, exists r w', io_Copy write dst chunks err w = Some (r, w').
Proof.
  induction chunks as [|chunk rest IH]; intros dst w.
  - cbn [io_Copy]. destruct err; eexists _, _; reflexivity.
  - cbn [io_Copy]. destruct (String.eqb chunk EmptyString); [apply IH|].
    destruct (write dst chunk w) as [[[nw ew] dst'] w1].
    destruct ew as [e|]; [eexists _, _; reflexivity|].
    destruct (nw =? Z.of_nat (String.length chunk))%Z;
      [apply IH | eexists _, _; reflexivity].
Qed.

End Preservation.

(** ** [Download], answer by answer *)
Section DownloadFacts.
Context (E : Env).

Lemma same_requests_refl (w : World) : same_requests w w.
Proof. reflexivity. Qed.
Lemma same_requests_trans (a b c : World) :
  same_requests a b -> same_requests b c -> same_requests a c.
Proof. unfold same_requests. congruence. Qed.
Lemma same_fs_refl (w : World) : same_fs w w.
Proof. reflexivity. Qed.
Lemma same_fs_trans (a b c : World) : same_fs a b -> same_fs b c -> same_fs a c.
Proof. unfold same_fs. congruence. Qed.

Lemma os_Create_requests (p : string) : preserves same_requests (os_Create E p).
Proof.
  intros w r w'. unfold os_Create. destruct (os_fault E "open" p); [now intros [= _ <-]|].
  destruct (fs w !! p) as [[c|]|]; now intros [= _ <-].
Qed.

Lemma os_OpenFile_append_requests (p : string) :
  preserves same_requests (os_OpenFile_append E p).
Proof.
  intros w r w'. unfold os_OpenFile_append.
  destruct (os_fault E "open" p); [now intros [= _ <-]|].
  destruct (fs w !! p) as [[c|]|]; now intros [= _ <-].
Qed.

Lemma file_Write_requests (p x : string) (w : World) :
  same_requests w (snd (file_Write E p x w)).
Proof.
  unfold file_Write. destruct (os_fault E "write" p); [reflexivity|].
  destruct (fs w !! p) as [[c|]|]; reflexivity.
Qed.

Lemma plain_write_requests (p x : string) (w : World) :
  same_requests w (snd (plain_write E p x w)).
Proof.
  unfold plain_write. pose proof (file_Write_requests p x w) as H.
  destruct (file_Write E p x w) as [r w']. exact H.
Qed.

Lemma throttled_write_requests (tw : ThrottledWriter) (x : string) (w : World) :
  same_requests w (snd (writer tw x w)) ->
  same_requests w (snd (throttled_write E tw x w)).
Proof.
  unfold throttled_write, ThrottledWriter_Write.
  destruct (writer tw x w) as [[n err] w1]. cbn [snd]. intros H.
  destruct (_ >? _)%Z; exact H.
Qed.

Lemma destination_requests (urlStr output : string) (resp : Response) :
  preserves same_requests (destination E urlStr output resp).
Proof.
  intros w r w'. rewrite destination_run.
  destruct (if String.eqb output EmptyString then _ else _); now intros [= _ <-].
Qed.

(** The headers of a request depend on the file system only. *)
Lemma request_header_fs (opts : DownloadOptions) (w w' : World) (output : string) :
  fs w' = fs w -> request_header E opts w' output = request_header E opts w output.
Proof.
  intros Hfs. unfold request_header, resume_offset, fileExists, os_Stat.
  now rewrite Hfs.
Qed.

(** The failures of a pass before anything is written. *)
Lemma Download_loop_status (fuel : nat) (client : http_Client) (opts : DownloadOptions)
    (origUrl urlStr output : string) (w : World) (req : Request) (resp : Response) :
  http_NewRequest E client urlStr (request_header E opts w output) = Ok req ->
  http_RoundTrip E (requests w) req = Ok resp ->
  strings.HasPrefix (Header_Get (Header resp) "Content-Type") "text/html" = false ->
  (StatusCode resp >= 400)%Z ->
  Download_loop E (S fuel) client opts origUrl urlStr output w
  = Some (Err (errors_New ("HTTP error: " +:+ Status resp)), log_request w req).
Proof.
  intros Hreq Hresp Hct Hstatus.
  cbn [Download_loop]. unfold bind at 1. unfold get_world at 1. cbv beta iota.
  unfold bind at 1. unfold lift at 1. rewrite Hreq.
  unfold bind at 1. unfold client_Do. rewrite Hresp, Hct.
  destruct (Z.geb_spec (StatusCode resp) 400); [reflexivity | lia].
Qed.

Lemma Download_loop_no_link (fuel : nat) (client : http_Client) (opts : DownloadOptions)
    (origUrl urlStr output : string) (w : World) (req : Request) (resp : Response)
    (body : string) :
  http_NewRequest E client urlStr (request_header E opts w output) = Ok req ->
  http_RoundTrip E (requests w) req = Ok resp ->
  strings.HasPrefix (Header_Get (Header resp) "Content-Type") "text/html" = true ->
  io_ReadAll resp = Ok body ->
  getUrlFromGDriveConfirmation body = Err ErrFileURLRetrieval ->
  Download_loop E (S fuel) client opts origUrl urlStr output w
  = Some (Err ErrFileURLRetrieval, log_request w req).
Proof.
  intros Hreq Hresp Hct Hbody Hlink.
  cbn [Download_loop]. unfold bind at 1. unfold get_world at 1. cbv beta iota.
  unfold bind at 1. unfold lift at 1. rewrite Hreq.
  unfold bind at 1. unfold client_Do. rewrite Hresp, Hct.
  unfold bind at 1. unfold lift at 1. rewrite Hbody.
  unfold bind at 1. unfold lift at 1. rewrite Hlink. reflexivity.
Qed.

(** A page without a confirmation link. *)
Lemma getUrlFromGDriveConfirmation_none (html : string) :
  (forall pre rest post,
      Regexp.confirmation_anchor html pre rest post -> rest = EmptyString) ->
  getUrlFromGDriveConfirmation html = Err ErrFileURLRetrieval.
Proof.
  intros Hnone. unfold getUrlFromGDriveConfirmation, Regexp.confirm_FindStringSubmatch.
  destruct (Regexp.confirm_find html) as [l|] eqn:Hfind; [|reflexivity].
  apply confirm_find_leftmost in Hfind as (pre & rest & post & Ha & Hne & _).
  exfalso. apply Hne. eapply Hnone; eassumption.
Qed.

End DownloadFacts.

(** X6.  An answer with an error status fails the download before anything
    is written.  When the first answer is not an HTML page and its status
    code is 400 or more, [Download] returns the error [HTTP error: ] followed
    by the status line; one request has been sent, and the file system,
    standard error and the clock are as they were (no destination file is
    created or truncated). *)
Theorem Download_http_error
    (E : Env) (fuel : nat) (urlStr output : string) (opts : DownloadOptions)
    (client : http_Client) (w : World) (req : Request) (resp : Response) :
  newHTTPClient E (effective_options opts) = Ok client ->
  http_NewRequest E client urlStr (request_header E (effective_options opts) w output)
  = Ok req ->
  http_RoundTrip E (requests w) req = Ok resp ->
  strings.HasPrefix (Header_Get (Header resp) "Content-Type") "text/html" = false ->
  (StatusCode resp >= 400)%Z ->
  exists w',
    Download E (S fuel) urlStr output opts w
    = Some (Err (errors_New ("HTTP error: " +:+ Status resp)), w')
    /\ requests w' = req :: requests w
    /\ fs w' = fs w /\ stderr w' = stderr w /\ now w' = now w.
Proof.
  intros Hclient Hreq Hresp Hct Hstatus. exists (log_request w req).
  unfold Download, bind, lift. rewrite Hclient.
  rewrite (Download_loop_status E fuel client _ urlStr urlStr output w req resp)
    by assumption.
  repeat split; reflexivity.
Qed.

(** X7.  An HTML answer without a confirmation link fails the download
    with [ErrFileURLRetrieval], whatever its status code (the status of an
    HTML answer is not looked at, so an HTML error page of the server is
    reported as a missing link, not as an HTTP error); one request has been
    sent and nothing is written. *)
Theorem Download_html_without_link
    (E : Env) (fuel : nat) (urlStr output : string) (opts : DownloadOptions)
    (client : http_Client) (w : World) (req : Request) (resp : Response) (body : string) :
  newHTTPClient E (effective_options opts) = Ok client ->
  http_NewRequest E client urlStr (request_header E (effective_options opts) w output)
  = Ok req ->
  http_RoundTrip E (requests w) req = Ok resp ->
  strings.HasPrefix (Header_Get (Header resp) "Content-Type") "text/html" = true ->
  io_ReadAll resp = Ok body ->
  (forall pre rest post,
      Regexp.confirmation_anchor body pre rest post -> rest = EmptyString) ->
  exists w',
    Download E (S fuel) urlStr output opts w = Some (Err ErrFileURLRetrieval, w')
    /\ requests w' = req :: requests w
    /\ fs w' = fs w /\ stderr w' = stderr w /\ now w' = now w.
Proof.
  intros Hclient Hreq Hresp Hct Hbody Hnone. exists (log_request w req).
  unfold Download, bind, lift. rewrite Hclient.
  rewrite (Download_loop_no_link E fuel client _ urlStr urlStr output w req resp body)
    by (assumption || now apply getUrlFromGDriveConfirmation_none).
  repeat split; reflexivity.
Qed.

Lemma Download_http_error_witness :
  exists w',
    Download (Cases.answering Cases.not_found) 1 "http://host/a" "out"
      Sample.plain_options Sample.empty_world
    = Some (Err (errors_New ("HTTP error: " +:+ "404 Not Found")), w')
    /\ requests w'
       = Cases.request "http://host/a" [("User-Agent", default_UserAgent)]
           :: requests Sample.empty_world
    /\ fs w' = fs Sample.empty_world /\ stderr w' = stderr Sample.empty_world
    /\ now w' = now Sample.empty_world.
Proof.
  apply (Download_http_error (Cases.answering Cases.not_found) 0 "http://host/a" "out"
           Sample.plain_options Sample.plain_client Sample.empty_world
           (Cases.request "http://host/a" [("User-Agent", default_UserAgent)])
           Cases.not_found).
  - reflexivity.
  - reflexivity.
  - reflexivity.
  - reflexivity.
  - simpl. lia.
Defined.

Lemma Download_html_without_link_witness :
  exists w',
    Download (Cases.answering Cases.error_page) 1 "http://host/a" "out"
      Sample.plain_options Sample.empty_world
    = Some (Err ErrFileURLRetrieval, w')
    /\ requests w'
       = Cases.request "http://host/a" [("User-Agent", default_UserAgent)]
           :: requests Sample.empty_world
    /\ fs w' = fs Sample.empty_world /\ stderr w' = stderr Sample.empty_world
    /\ now w' = now Sample.empty_world.
Proof.
  apply (Download_html_without_link (Cases.answering Cases.error_page) 0 "http://host/a"
           "out" Sample.plain_options Sample.plain_client Sample.empty_world
           (Cases.request "http://host/a" [("User-Agent", default_UserAgent)])
           Cases.error_page "<html><body>Sorry</body></html>").
  - reflexivity.
  - reflexivity.
  - reflexivity.
  - reflexivity.
  - reflexivity.
  - intros pre rest post Hanchor.
    apply (confirm_find_none "<html><body>Sorry</body></html>" eq_refl
             pre rest post Hanchor).
Defined.

(** ** The transfer of a payload *)
Section Transfer.
Context (E : Env).





Lemma effective_options_Resume (opts : DownloadOptions) :
  Resume (effective_options opts) = Resume opts
  /\ Speed (effective_options opts) = Speed opts
  /\ Quiet (effective_options opts) = Quiet opts.
Proof. unfold effective_options. destruct (String.eqb _ _); auto. Qed.



End Transfer.



(** ** The requests that [Download] sends *)
Section Requests.
Context (E : Env).

Lemma write_payload_requests (opts : DownloadOptions) (urlStr output : string)
    (resp : Response) :
  preserves same_requests (write_payload E opts urlStr output resp).
Proof.
  pose proof same_requests_refl as Hrefl. pose proof same_requests_trans as Htrans.
  unfold write_payload.
  apply (preserves_bind _ Hrefl Htrans); [apply destination_requests | intros out].
  apply (preserves_bind _ Hrefl Htrans);
    [destruct (Resume opts); [apply os_OpenFile_append_requests | apply os_Create_requests]
    | intros _].
  apply (preserves_bind _ Hrefl Htrans); [now apply preserves_get_world | intros w].
  apply (preserves_bind _ Hrefl Htrans);
    [apply (preserves_log_unless _ Hrefl Htrans); intros l w0; reflexivity | intros _].
  apply (preserves_bind _ Hrefl Htrans); [|intros _; now apply preserves_ret].
  destruct (Speed opts >? 0)%Z.
  - apply (preserves_io_Copy same_requests Hrefl Htrans
             (fun tw => writer tw = file_Write E out)); [|reflexivity].
    intros tw x w0 Hwriter. split.
    + apply throttled_write_requests. rewrite Hwriter. apply file_Write_requests.
    + unfold throttled_write, ThrottledWriter_Write.
      destruct (writer tw x w0) as [[n err] w1]. exact Hwriter.
  - apply (preserves_io_Copy same_requests Hrefl Htrans (fun _ => True)); [|exact I].
    intros dst x w0 _. split; [apply plain_write_requests | exact I].
Qed.

(** Every request of the loop is made by the same client with the same
    headers: the file system does not change before the payload arrives,
    and nothing is sent after it. *)
Lemma Download_loop_requests (client : http_Client) (opts : DownloadOptions)
    (origUrl output : string) (fuel : nat) :
  forall (urlStr : string) (w : World) (r : Result string) (w' : World),
    Download_loop E fuel client opts origUrl urlStr output w = Some (r, w') ->
    exists sent,
      requests w' = sent ++ requests w
      /\ Forall (fun req => req_client req = client
                            /\ req_header req = request_header E opts w output) sent.
Proof.
  induction fuel as [|fuel IH]; intros urlStr w r w'; [discriminate|].
  cbn [Download_loop]. unfold bind at 1. unfold get_world at 1. cbv beta iota.
  unfold bind at 1. unfold lift at 1. unfold http_NewRequest.
  destruct (url_Parse E urlStr) as [u|e]; [|intros [= _ <-]; exists []; split; [reflexivity | constructor]].
  set (req := {| req_client := client; req_url := urlStr;
                 req_header := request_header E opts w output |}).
  assert (forall w1 : World,
             requests w1 = requests (log_request w req) ->
             exists sent,
               requests w1 = sent ++ requests w
               /\ Forall (fun req => req_client req = client
                                     /\ req_header req = request_header E opts w output)
                    sent) as Hone.
  { intros w1 Hw1. exists [req]. split; [exact Hw1|]. repeat constructor. }
  unfold bind at 1. unfold client_Do.
  destruct (http_RoundTrip E (requests w) req) as [resp|e];
    [|intros [= _ <-]; now apply Hone].
  destruct (strings.HasPrefix (Header_Get (Header resp) "Content-Type") "text/html").
  - unfold bind at 1. unfold lift at 1.
    destruct (io_ReadAll resp) as [body|e]; [|intros [= _ <-]; now apply Hone].
    unfold bind at 1. unfold lift at 1.
    destruct (getUrlFromGDriveConfirmation body) as [next|e];
      [|intros [= _ <-]; now apply Hone].
    destruct (String.eqb origUrl next); [intros [= _ <-]; now apply Hone|].
    intros Hrest. apply IH in Hrest as (sent & Hsent & Hall).
    exists (sent ++ [req]). split.
    + rewrite Hsent. cbn [requests log_request]. now rewrite <- app_assoc.
    + apply Forall_app. split; [|repeat constructor].
      eapply Forall_impl; [exact Hall|]. intros x [Hc Hh]. split; [exact Hc|].
      rewrite Hh. now apply request_header_fs.
  - destruct (StatusCode resp >=? 400)%Z; [intros [= _ <-]; now apply Hone|].
    intros Hrest. apply Hone. eapply (write_payload_requests opts urlStr output resp).
    exact Hrest.
Qed.

End Requests.

(** X9.  The requests of a download.  Whatever [Download] returns, the
    requests it has sent (the confirmation loop may send several) were all
    made by the client built from the options, and all carry the same
    headers: first the User-Agent, which is the one of the options or, when
    that is empty, the default [Mozilla/5.0 (compatible; gdown-go)]; then,
    only when resuming onto an existing file that is not empty, a Range
    header that asks for the bytes from the size of that file on (the size
    the file had when [Download] was called). *)
Theorem Download_request_headers
    (E : Env) (fuel : nat) (urlStr output : string) (opts : DownloadOptions)
    (w : World) (r : Result string) (w' : World) :
  Download E fuel urlStr output opts w = Some (r, w') ->
  exists sent,
    requests w' = sent ++ requests w
    /\ Forall
         (fun req =>
            newHTTPClient E (effective_options opts) = Ok (req_client req)
            /\ req_header req = expected_header E opts w output)
         sent.
Proof.
  unfold Download, bind, lift.
  destruct (newHTTPClient E (effective_options opts)) as [client|e] eqn:Hclient.
  - intros Hrun. apply Download_loop_requests in Hrun as (sent & Hsent & Hall).
    exists sent. split; [exact Hsent|].
    eapply Forall_impl; [exact Hall|]. intros req [-> ->]. split; [reflexivity|].
    unfold request_header, resume_offset, expected_header, resumed_from.
    assert (UserAgent (effective_options opts)
            = if String.eqb (UserAgent opts) EmptyString
              then default_UserAgent else UserAgent opts) as ->.
    { unfold effective_options. now destruct (String.eqb (UserAgent opts) EmptyString). }
    destruct (effective_options_Resume opts) as (-> & _ & _). f_equal.
    unfold fileExists, os_Stat.
    destruct (Resume opts); [|reflexivity]. cbn [andb].
    destruct (os_fault E "stat" output); [reflexivity|].
    destruct (fs w !! output) as [[[|c s]|]|]; reflexivity.
  - intros [= _ <-]. exists []. split; [reflexivity | constructor].
Qed.

(** The theorem at work on the resumed download of three more bytes. *)
Lemma Download_request_headers_witness :
  exists sent,
    requests
      {| fs := <["out" := File "hello!"]> (fs (Cases.with_file "out" "hel"));
         requests := [Cases.request "http://host/a"
                        [("User-Agent", "curl/8"); ("Range", "bytes=3-")]];
         stderr := []; now := 0 |}
    = sent ++ requests (Cases.with_file "out" "hel")
    /\ Forall
         (fun req =>
            newHTTPClient (Sample.serving ["lo"; "!"]) (effective_options Cases.resuming)
            = Ok (req_client req)
            /\ req_header req = [("User-Agent", "curl/8"); ("Range", "bytes=3-")])
         sent.
Proof.
  apply (Download_request_headers (Sample.serving ["lo"; "!"]) 1 "http://host/a" "out"
           Cases.resuming (Cases.with_file "out" "hel") (Ok "out")).
  vm_compute. reflexivity.
Defined.

(** ** A loop without a bound *)

(** X10.  The confirmation loop of [Download] has no bound of its own: it
    ends on a payload, on a failure, or on a page that links back to the
    original URL, and on nothing else.  Behind a server that answers every
    request by a confirmation page whose link differs from the URL
    originally asked for, [Download] does not return, however many passes
    it is given. *)
Theorem Download_never_gives_up
    (E : Env) (origUrl output : string) (opts : DownloadOptions) (client : http_Client) :
  newHTTPClient E (effective_options opts) = Ok client ->
  is_Ok (url_Parse E origUrl) = true ->
  always_confirming E origUrl ->
  forall fuel w, Download E fuel origUrl output opts w = None.
Proof.
  intros Hclient Hparse Hserver fuel w0.
  assert (forall fuel urlStr w,
             is_Ok (url_Parse E urlStr) = true ->
             Download_loop E fuel client (effective_options opts) origUrl urlStr output w
             = None) as Hloop.
  { clear fuel w0. induction fuel as [|fuel IH]; intros urlStr w Hurl; [reflexivity|].
    destruct (Hserver (requests w)
                (sent_request E client (effective_options opts) w urlStr output))
      as (resp & body & next & Hresp & Hct & Hbody & Hnext & Hne & Hok).
    rewrite (Download_loop_page E fuel client (effective_options opts) origUrl urlStr
               output next w
               (log_request w (sent_request E client (effective_options opts) w urlStr output))).
    - assert (String.eqb origUrl next = false) as ->
          by (apply String.eqb_neq; congruence).
      now apply IH.
    - exists (sent_request E client (effective_options opts) w urlStr output), resp, body.
      repeat split; try assumption.
      unfold http_NewRequest, sent_request.
      destruct (url_Parse E urlStr); [reflexivity | discriminate]. }
  unfold Download, bind, lift. rewrite Hclient. now apply Hloop.
Qed.

Lemma Download_never_gives_up_witness :
  Download Sample.elsewhere 100 "https://docs.google.com/uc?export=download&id=0" "out"
    Sample.plain_options Sample.empty_world
  = None.
Proof.
  apply (Download_never_gives_up Sample.elsewhere
           "https://docs.google.com/uc?export=download&id=0" "out"
           Sample.plain_options Sample.plain_client).
  - reflexivity.
  - reflexivity.
  - intros history req.
    exists (Sample.confirmation "1"),
      ("<html><a href=" +:+ strings.dq +:+ "/uc?export=download&amp;id=1"
       +:+ strings.dq +:+ ">Download anyway</a></html>"),
      "https://docs.google.com/uc?export=download&id=1".
    repeat split; try reflexivity. discriminate.
Defined.

(** ** The pace of a throttled download *)
Section Pace.
Context (E : Env).
Hypothesis sleep_lasts : forall t d, (t + d <= time_Sleep E t d)%Z.




End Pace.



(** ** More on hash verification and the cache *)
Section Verification.
Context (E : Env).

(** A file whose digest is the one asked for passes. *)
Lemma assertFileHash_matches (filename content : string) (quiet : bool) (w : World) :
  os_fault E "open" filename = None ->
  fs w !! filename = Some (File content) ->
  assertFileHash E filename ("md5:" +:+ md5_hex E content) quiet w
  = Some (Ok true,
          if quiet then w
          else eprint ("Hash matches: " +:+ md5_hex E content +:+ " == " +:+ md5_hex E content) w).
Proof.
  intros Hfault Hfile. unfold assertFileHash.
  rewrite (SplitN_2_sep _ _ "md5" (md5_hex E content)) by (discriminate || reflexivity).
  rewrite String.eqb_refl. unfold bind, get_world, lift, MD5Sum, read_file.
  cbv beta iota. rewrite Hfault, Hfile, String.eqb_refl.
  unfold log_unless, modify, ret. reflexivity.
Qed.

Lemma assertFileHash_Ok (filename hash : string) (quiet : bool) (w w' : World) (b : bool) :
  assertFileHash E filename hash quiet w = Some (Ok b, w') ->
  b = true
  /\ exists content,
      os_fault E "open" filename = None
      /\ fs w !! filename = Some (File content)
      /\ hash = "md5:" +:+ md5_hex E content.
Proof.
  unfold assertFileHash.
  destruct (strings.SplitN hash ":" 2) as [|algo [|expected [|]]] eqn:Hsplit;
    try (intros [=]; fail).
  apply SplitN_2_pair in Hsplit; [|discriminate].
  destruct (String.eqb_spec algo "md5") as [->|]; [|intros [=]].
  unfold bind, get_world, lift, MD5Sum, read_file.
  destruct (os_fault E "open" filename); [intros [=]|].
  destruct (fs w !! filename) as [[content|]|]; try (intros [=]; fail).
  destruct (String.eqb_spec (md5_hex E content) expected) as [<-|]; [|intros [=]].
  unfold log_unless, modify, ret. intros [= <- <-].
  split; [reflexivity|]. exists content. auto.
Qed.

End Verification.

(** X12.  The verdict of [assertFileHash].  It always returns, and never
    with the pair (false, nil): the result is true with a nil error, or an
    error.  It is true exactly when the file can be read and the hash is
    [md5:] followed by the digest of its content.  The file system, the
    request log and the clock are left alone; the only output is the line
    that reports a match, which [quiet] suppresses. *)
Theorem assertFileHash_verdict
    (E : Env) (filename hash : string) (quiet : bool) (w : World) :
  exists r w',
    assertFileHash E filename hash quiet w = Some (r, w')
    /\ r <> Ok false
    /\ (r = Ok true <->
        exists content,
          os_fault E "open" filename = None
          /\ fs w !! filename = Some (File content)
          /\ hash = "md5:" +:+ md5_hex E content)
    /\ fs w' = fs w /\ requests w' = requests w /\ now w' = now w
    /\ (stderr w' = stderr w \/ (quiet = false /\ r = Ok true)).
Proof.
  destruct (assertFileHash E filename hash quiet w) as [[r w']|] eqn:Hrun.
  - exists r, w'. split; [reflexivity|].
    assert (r <> Ok false) as Hnot.
    { intros ->. apply assertFileHash_Ok in Hrun as [[=] _]. }
    split; [exact Hnot|]. split.
    + split.
      * intros ->. now apply assertFileHash_Ok in Hrun as [_ H].
      * intros (content & Hfault & Hfile & ->).
        rewrite assertFileHash_matches in Hrun by assumption. now injection Hrun as <- _.
    + revert Hrun. unfold assertFileHash.
      destruct (strings.SplitN hash ":" 2) as [|algo [|expected [|]]];
        try (intros [= <- <-]; auto 10; fail).
      destruct (String.eqb algo "md5"); [|intros [= <- <-]; auto 10].
      unfold bind, get_world, lift.
      destruct (MD5Sum E w filename) as [actual|e]; [|intros [= <- <-]; auto 10].
      destruct (String.eqb actual expected); [|intros [= <- <-]; auto 10].
      unfold log_unless, modify, ret. intros [= <- <-].
      destruct quiet; cbn [fs requests now stderr eprint]; auto 10.
  - exfalso. destruct (assertFileHash_effect E filename hash quiet w) as (r & w' & H & _).
    congruence.
Qed.

(** ** The cache: verified hits and the temporary directory *)
Section CacheMore.
Context (E : Env).

(** What [CachedDownload] does after the cache root has been made. *)
Lemma CachedDownload_unfold (fuel : nat) (urlStr outputPath hash : string) (quiet : bool)
    (postprocess : option (string -> M unit)) (opts : DownloadOptions) (w : World) :
  CachedDownload E fuel urlStr outputPath hash quiet postprocess opts w
  = let p := cache_path E urlStr outputPath in
    let w0 := cache_ready E w in
    if fileExists E w p && String.eqb hash EmptyString then
      Some (Ok p, if quiet then w0 else eprint ("File exists: " +:+ p) w0)
    else if fileExists E w p && negb (String.eqb hash EmptyString) then
      match assertFileHash E p hash quiet w0 with
      | None => None
      | Some (Ok true, wa) => Some (Ok p, wa)
      | Some (_, wa) =>
          download_into_cache E fuel urlStr p hash quiet postprocess opts
            (eprint ("Hash mismatch, redownloading: " +:+ p) wa)
      end
    else download_into_cache E fuel urlStr p hash quiet postprocess opts w0.
Proof.
  destruct (cache_ready_run E w) as [r Hrun].
  unfold CachedDownload. unfold bind at 1. unfold catch at 1. rewrite Hrun.
  unfold bind at 1. unfold get_world at 1. cbv beta iota zeta.
  rewrite (cache_ready_fileExists E w).
  destruct (fileExists E w (cache_path E urlStr outputPath) && String.eqb hash EmptyString).
  - unfold bind, log_unless, modify, ret. now destruct quiet.
  - destruct (fileExists E w (cache_path E urlStr outputPath)
              && negb (String.eqb hash EmptyString)); [|reflexivity].
    unfold bind at 1. unfold catch.
    destruct (assertFileHash E _ hash quiet (cache_ready E w)) as [[[[|]|e] wa]|];
      try reflexivity.
Qed.

(** The temporary directory does not outlive the second half of
    [CachedDownload]. *)
Lemma download_into_cache_clean (fuel : nat) (urlStr outputPath hash : string)
    (quiet : bool) (postprocess : option (string -> M unit)) (opts : DownloadOptions)
    (w w' : World) (r : Result string) :
  let tmp := temp_name E (fs w) (getCacheRoot E) "dl" in
  tmp <> EmptyString -> os_fault E "remove" tmp = None ->
  (forall p, within E tmp p = true -> fs w !! p = None) ->
  download_into_cache E fuel urlStr outputPath hash quiet postprocess opts w
  = Some (r, w') ->
  forall p, within E tmp p = true -> fs w' !! p = None.
Proof.
  intros tmp Htmp Hfault Hfresh. unfold download_into_cache. unfold bind at 1.
  unfold os_MkdirTemp.
  destruct (os_fault E "mkdirtemp" (getCacheRoot E)); [intros [= _ <-]; exact Hfresh|].
  destruct (fs w !! getCacheRoot E) as [[c|]|];
    [intros [= _ <-]; exact Hfresh | | intros [= _ <-]; exact Hfresh].
  fold tmp. destruct (fs w !! tmp); [intros [= _ <-]; exact Hfresh|].
  unfold with_defer.
  match goal with
  | |- context [match ?body ?w0 with _ => _ end] =>
      destruct (body w0) as [[r0 wf]|]; [|discriminate]
  end.
  intros [= _ <-] p Hp. unfold os_RemoveAll.
  apply String.eqb_neq in Htmp. rewrite Htmp, Hfault. cbn [fs set_fs].
  apply map_lookup_filter_None. right. intros x _. cbn [fst]. congruence.
Qed.

End CacheMore.

(** X13.  A verified hit of the cache.  When the cache path is a regular
    file that can be read and the hash asked for is [md5:] followed by the
    digest of its content, [CachedDownload] returns the path, whatever the
    fuel: no request is sent and no entry of the file system is lost. *)
Theorem CachedDownload_verified_hit
    (E : Env) (fuel : nat) (urlStr outputPath : string) (quiet : bool)
    (postprocess : option (string -> M unit)) (opts : DownloadOptions)
    (w : World) (content : string) :
  os_fault E "stat" (cache_path E urlStr outputPath) = None ->
  os_fault E "open" (cache_path E urlStr outputPath) = None ->
  fs w !! cache_path E urlStr outputPath = Some (File content) ->
  exists w',
    CachedDownload E fuel urlStr outputPath ("md5:" +:+ md5_hex E content) quiet
      postprocess opts w
    = Some (Ok (cache_path E urlStr outputPath), w')
    /\ requests w' = requests w
    /\ forall q x, fs w !! q = Some x -> fs w' !! q = Some x.
Proof.
  intros Hstat Hopen Hfile.
  assert (fileExists E w (cache_path E urlStr outputPath) = true) as Hexists
      by (apply fileExists_true; eauto).
  destruct (os_MkdirAll_effect E (getCacheRoot E) w)
    as (r0 & w0 & Hready & Hreq0 & _ & _ & Hkeep & _).
  assert (cache_ready E w = w0) as Hw0 by (unfold cache_ready; now rewrite Hready).
  rewrite CachedDownload_unfold. cbv zeta. rewrite Hexists, Hw0.
  cbn [String.eqb andb negb].
  rewrite (assertFileHash_matches E _ content quiet w0) by auto.
  eexists. split; [reflexivity|].
  destruct quiet; cbn [requests fs eprint]; auto.
Qed.

Lemma CachedDownload_verified_hit_witness :
  exists w',
    CachedDownload Sample.offline 0 "http://host/a" EmptyString
      ("md5:" +:+ md5_hex Sample.offline "cached") true None Sample.plain_options
      Sample.cached_world
    = Some (Ok (cache_path Sample.offline "http://host/a" EmptyString), w')
    /\ requests w' = requests Sample.cached_world
    /\ forall q x, fs Sample.cached_world !! q = Some x -> fs w' !! q = Some x.
Proof.
  apply (CachedDownload_verified_hit Sample.offline 0 "http://host/a" EmptyString true
           None Sample.plain_options Sample.cached_world "cached").
  - reflexivity.
  - reflexivity.
  - reflexivity.
Defined.

(** X14.  [CachedDownload] leaves no temporary directory behind.  Let
    [tmp] be the directory that [os.MkdirTemp] makes under the cache root,
    a name not in use.  Whatever [CachedDownload] returns (a path, or the
    error of the download, of the renaming, of the verification or of the
    post-processing), [tmp] and everything below it are gone afterwards,
    provided the system does not refuse the removal. *)
Theorem CachedDownload_removes_temporary
    (E : Env) (fuel : nat) (urlStr outputPath hash : string) (quiet : bool)
    (postprocess : option (string -> M unit)) (opts : DownloadOptions)
    (w w' : World) (r : Result string) :
  let tmp := temp_name E (fs (cache_ready E w)) (getCacheRoot E) "dl" in
  tmp <> EmptyString -> os_fault E "remove" tmp = None ->
  (forall p, within E tmp p = true -> fs (cache_ready E w) !! p = None) ->
  CachedDownload E fuel urlStr outputPath hash quiet postprocess opts w = Some (r, w') ->
  forall p, within E tmp p = true -> fs w' !! p = None.
Proof.
  intros tmp Htmp Hfault Hfresh. rewrite CachedDownload_unfold. cbv zeta.
  destruct (fileExists E w (cache_path E urlStr outputPath) && String.eqb hash EmptyString).
  { intros [= _ <-]. now destruct quiet. }
  destruct (fileExists E w (cache_path E urlStr outputPath)
            && negb (String.eqb hash EmptyString)).
  - destruct (assertFileHash_effect E (cache_path E urlStr outputPath) hash quiet
                (cache_ready E w)) as (ra & wa & Hrun & Hfs & _).
    rewrite Hrun.
    assert (forall r1,
               download_into_cache E fuel urlStr (cache_path E urlStr outputPath) hash quiet
                 postprocess opts
                 (eprint ("Hash mismatch, redownloading: " +:+ cache_path E urlStr outputPath) wa)
               = Some (r1, w') ->
               forall p, within E tmp p = true -> fs w' !! p = None) as Hagain.
    { intros r1 Hdl.
      pose proof (download_into_cache_clean E fuel urlStr (cache_path E urlStr outputPath)
                    hash quiet postprocess opts
                    (eprint ("Hash mismatch, redownloading: "
                             +:+ cache_path E urlStr outputPath) wa)
                    w' r1) as Hclean.
      cbv zeta in Hclean. cbn [fs eprint] in Hclean. rewrite Hfs in Hclean.
      now apply Hclean. }
    destruct ra as [[|]|e]; [intros [= _ <-]; now rewrite Hfs | apply Hagain | apply Hagain].
  - apply download_into_cache_clean; assumption.
Qed.


(** The directories that [os.MkdirAll] may add are the path and its
    ancestors. *)
Lemma mkdirs_new (dirs : list string) :
  forall (f f' : gmap string node) (e : option error),
    mkdirs dirs f = (e, f') ->
    forall p x, f' !! p = Some x -> f !! p = Some x \/ In p dirs.
Proof.
  induction dirs as [|d dirs IH]; intros f f' e; simpl.
  - intros [= _ <-]. auto.
  - destruct (f !! d) as [[c|]|] eqn:Hd.
    + intros [= _ <-]. auto.
    + intros Hm p x Hp. destruct (IH _ _ _ Hm p x Hp); auto.
    + intros Hm p x Hp. destruct (IH _ _ _ Hm p x Hp) as [H|H]; [|auto].
      destruct (decide (d = p)) as [->|Hne]; [auto|].
      rewrite lookup_insert_ne in H by assumption. auto.
Qed.

(** The theorem at work: after a first download into an empty cache the
    temporary directory and the file downloaded into it are gone, and the
    download is in its place. *)
Lemma CachedDownload_removes_temporary_witness :
  exists w',
    CachedDownload (Sample.serving ["hel"; "lo"]) 1 "http://host/a" EmptyString
      EmptyString true None Sample.plain_options Sample.empty_world
    = Some (Ok "/home/user/.cache/gdown/http-COLON--SLASH--SLASH-host-SLASH-a", w')
    /\ fs w' !! "/home/user/.cache/gdown/dl4" = None
    /\ fs w' !! "/home/user/.cache/gdown/dl4/dl" = None.
Proof.
  destruct (CachedDownload (Sample.serving ["hel"; "lo"]) 1 "http://host/a" EmptyString
              EmptyString true None Sample.plain_options Sample.empty_world)
    as [[r w']|] eqn:Hrun; [|vm_compute in Hrun; discriminate Hrun].
  pose proof (CachedDownload_removes_temporary (Sample.serving ["hel"; "lo"]) 1
                "http://host/a" EmptyString EmptyString true None Sample.plain_options
                Sample.empty_world w' r) as Hgone.
  cbv zeta in Hgone.
  assert (temp_name (Sample.serving ["hel"; "lo"])
            (fs (cache_ready (Sample.serving ["hel"; "lo"]) Sample.empty_world))
            (getCacheRoot (Sample.serving ["hel"; "lo"])) "dl"
          = "/home/user/.cache/gdown/dl4") as Htmp by (vm_compute; reflexivity).
  rewrite Htmp in Hgone.
  assert (forall p,
             within (Sample.serving ["hel"; "lo"]) "/home/user/.cache/gdown/dl4" p = true ->
             fs (cache_ready (Sample.serving ["hel"; "lo"]) Sample.empty_world) !! p = None)
    as Hfresh.
  { intros p Hp.
    destruct (fs (cache_ready (Sample.serving ["hel"; "lo"]) Sample.empty_world) !! p)
      as [x|] eqn:Hx; [exfalso | reflexivity].
    revert Hx. unfold cache_ready, os_MkdirAll. cbn [os_fault Sample.serving Sample.env].
    destruct (mkdirs _ _) as [[e|] f] eqn:Hm; cbn [fs set_fs]; intros Hx;
      (destruct (mkdirs_new _ _ _ _ Hm p x Hx) as [Hin|Hin];
       [discriminate Hin
       | vm_compute in Hin;
         repeat (destruct Hin as [<-|Hin]; [vm_compute in Hp; discriminate Hp|]);
         exact Hin]). }
  specialize (Hgone ltac:(discriminate) eq_refl Hfresh Hrun).
  exists w'. split.
  - vm_compute in Hrun. injection Hrun as <- _. reflexivity.
  - split; apply Hgone; vm_compute; reflexivity.
Defined.

(** ** The title of a folder page *)
Section Titles.
Import strings.

Lemma split_cuts_nonempty (n : nat) (s sep : string) : split_cuts n s sep <> [].
Proof. destruct n; cbn [split_cuts]; [discriminate|]. destruct (Cut s sep) as [[b a]|]; discriminate. Qed.

Lemma Join_cons (a : string) (l : list string) (sep : string) :
  l <> [] -> Join (a :: l) sep = a +:+ sep +:+ Join l sep.
Proof. destruct l; [congruence | reflexivity]. Qed.

(** Joining what was split gives the string back. *)
Lemma Join_split_cuts (n : nat) (s sep : string) : Join (split_cuts n s sep) sep = s.
Proof.
  revert s. induction n as [|n IH]; intros s; cbn [split_cuts]; [reflexivity|].
  destruct (Cut s sep) as [[b a]|] eqn:Hcut; [|reflexivity].
  rewrite Join_cons by apply split_cuts_nonempty. rewrite IH.
  symmetry. now apply Cut_Some.
Qed.

Lemma Join_snoc (l : list string) (x sep : string) :
  l <> [] -> Join (l ++ [x]) sep = Join l sep +:+ sep +:+ x.
Proof.
  induction l as [|a l IH]; [congruence|]. intros _.
  destruct l as [|b l]; [reflexivity|].
  change ((a :: b :: l) ++ [x]) with (a :: ((b :: l) ++ [x])).
  rewrite Join_cons by (destruct l; discriminate).
  rewrite IH by discriminate. rewrite (Join_cons a (b :: l)) by discriminate.
  now rewrite !append_assoc.
Qed.

(** With cuts to spare, the last piece holds no separator. *)
Lemma split_cuts_last (n : nat) (s sep : string) :
  sep <> EmptyString -> (String.length s <= n)%nat ->
  Cut (List.last (split_cuts n s sep) EmptyString) sep = None.
Proof.
  intros Hsep. revert s. induction n as [|n IH]; intros s Hlen.
  - destruct s; [|simpl in Hlen; lia]. cbn [split_cuts List.last]. now apply Cut_empty.
  - cbn [split_cuts]. destruct (Cut s sep) as [[b a]|] eqn:Hcut; [|exact Hcut].
    pose proof (split_cuts_nonempty n a sep) as Hne.
    destruct (split_cuts n a sep) as [|x l] eqn:Hsplit; [congruence|].
    change (List.last (b :: x :: l) EmptyString) with (List.last (x :: l) EmptyString).
    rewrite <- Hsplit. apply IH.
    apply Cut_Some in Hcut. subst s. rewrite !length_append in Hlen.
    assert (0 < String.length sep)%nat by (destruct sep; [congruence | simpl; lia]). lia.
Qed.

End Titles.

Section Parse.
Context (E : Env).

(** What a parsed page gives, read off the end of [parseGoogleDriveFile]. *)
Lemma parseGoogleDriveFile_Ok (urlStr content : string)
    (gfile : GoogleDriveFile) (children : list child_row) :
  parseGoogleDriveFile E urlStr content = Ok (gfile, children) ->
  exists doc,
    goquery_NewDocument E content = Ok doc
    /\ (2 <= length (strings.Split (doc_title doc) " - "))%nat
    /\ gfile
       = Build_GoogleDriveFile (path_Base E urlStr)
           (strings.Join (removelast (strings.Split (doc_title doc) " - ")) " - ")
           folder_type [].
Proof.
  unfold parseGoogleDriveFile.
  destruct (goquery_NewDocument E content) as [doc|]; [|discriminate].
  destruct (String.eqb _ EmptyString); [discriminate|].
  destruct (decodeUnicodeEscapes E _) as [decoded|]; [|discriminate].
  destruct (match json_Unmarshal E decoded with
            | Ok (JArray items) => Ok items
            | Ok JNull => Ok []
            | Ok _ => Err _
            | Err e => Err e
            end) as [folderArr|]; [|discriminate].
  destruct (Nat.ltb_spec (length (strings.Split (doc_title doc) " - ")) 2); [discriminate|].
  intros [= <- _]. exists doc. auto.
Qed.

End Parse.

(** X15.  The name of a folder is its page title without the last
    [ - ]-separated part.  Whenever [parseGoogleDriveFile] succeeds, the
    title of the page is the name of the node it returns, followed by
    [ - ] and a tail that holds no [ - ] (so a name may itself hold [ - ]).
    The node is a folder without children, and its identifier is the
    basename of the URL that was passed. *)
Theorem parseGoogleDriveFile_name
    (E : Env) (urlStr content : string) (gfile : GoogleDriveFile)
    (children : list child_row) :
  parseGoogleDriveFile E urlStr content = Ok (gfile, children) ->
  exists doc tail,
    goquery_NewDocument E content = Ok doc
    /\ doc_title doc = Name gfile +:+ " - " +:+ tail
    /\ strings.Contains tail " - " = false
    /\ ID gfile = path_Base E urlStr
    /\ IsFolder gfile = true
    /\ Children gfile = [].
Proof.
  intros Hparse. apply parseGoogleDriveFile_Ok in Hparse as (doc & Hdoc & Hlen & ->).
  exists doc, (List.last (strings.Split (doc_title doc) " - ") EmptyString).
  split; [exact Hdoc|]. cbn [Name ID Children]. split; [|split; [|auto]].
  - unfold strings.Split, strings.SplitN in *. cbn [String.eqb Ascii.eqb Bool.eqb Z.eqb Z.ltb Z.compare] in *.
    set (parts := strings.split_cuts (String.length (doc_title doc)) (doc_title doc) " - ") in *.
    assert (parts <> []) as Hne by apply split_cuts_nonempty.
    rewrite <- Join_snoc.
    + rewrite <- (app_removelast_last EmptyString Hne). unfold parts.
      symmetry. apply Join_split_cuts.
    + destruct parts as [|a [|b l]]; simpl in Hlen; try lia. discriminate.
  - apply Cut_None_Contains. unfold strings.Split, strings.SplitN.
    cbn [String.eqb Ascii.eqb Bool.eqb Z.eqb Z.ltb Z.compare].
    apply split_cuts_last; [discriminate | lia].
Qed.

(** The theorem at work on a page titled [Q3 - reports - Google Drive]. *)
Lemma parseGoogleDriveFile_name_witness :
  exists doc tail,
    goquery_NewDocument (Cases.titled "Q3 - reports - Google Drive") "<html>" = Ok doc
    /\ doc_title doc = Name Cases.reports_folder +:+ " - " +:+ tail
    /\ strings.Contains tail " - " = false
    /\ ID Cases.reports_folder
       = path_Base (Cases.titled "Q3 - reports - Google Drive") "https://host/folders"
    /\ IsFolder Cases.reports_folder = true
    /\ Children Cases.reports_folder = [].
Proof.
  apply (parseGoogleDriveFile_name (Cases.titled "Q3 - reports - Google Drive")
           "https://host/folders" "<html>" Cases.reports_folder
           [{| row_ID := "id1"; row_Name := "report.txt"; row_Type := "text/plain" |}]).
  vm_compute. reflexivity.
Defined.

(** ** The tree that the resolver builds *)
Section Tree.
Context (E : Env).

Lemma client_Get_requests (client : http_Client) (urlStr : string) (w w' : World)
    (r : Result Response) :
  client_Get E client urlStr w = Some (r, w') ->
  fs w' = fs w /\ now w' = now w
  /\ (forall resp, r = Ok resp -> length (requests w') = S (length (requests w))).
Proof.
  unfold client_Get, bind, lift, client_Do.
  destruct (http_NewRequest E client urlStr []) as [req|e].
  - intros [= <- <-]. repeat split; auto.
  - intros [= <- <-]. repeat split; auto. discriminate.
Qed.

Lemma list_sum_cons (a : nat) (l : list nat) : list_sum (a :: l) = (a + list_sum l)%nat.
Proof. reflexivity. Qed.

(** What the loop over the rows adds to a node, given what the recursive
    call guarantees of the node it returns. *)
Lemma attach_children_resolved (ok : nat -> bool)
    (resolve : string -> M GoogleDriveFile) (quiet : bool) :
  (forall url w g w',
      resolve url w = Some (Ok g, w') ->
      well_resolved ok g = true
      /\ length (requests w') = (length (requests w) + folder_count g)%nat) ->
  forall (children : list child_row) (gfile gfile' : GoogleDriveFile) (w w' : World),
    attach_children resolve quiet children gfile w = Some (Ok gfile', w') ->
    exists nodes,
      gfile' = Build_GoogleDriveFile (ID gfile) (Name gfile) (Type_ gfile)
                 (Children gfile ++ nodes)
      /\ forallb (well_resolved ok) nodes = true
      /\ length (requests w')
         = (length (requests w) + list_sum (map folder_count nodes))%nat.
Proof.
  intros Hresolve. induction children as [|child rest IH]; intros gfile gfile' w w'.
  - cbn [attach_children]. unfold ret. intros [= <- <-].
    exists []. rewrite app_nil_r. destruct gfile. cbn. auto.
  - cbn [attach_children].
    destruct (String.eqb (row_Type child) folder_type) eqn:Htype; cbn [negb].
    + unfold bind at 1. unfold log_unless at 1, modify at 1. cbv beta iota.
      unfold bind at 1.
      destruct (resolve _ _) as [[[sub|e] w1]|] eqn:Hsub; try discriminate.
      apply Hresolve in Hsub as [Hwell Hreq].
      intros Hrest. apply IH in Hrest as (nodes & -> & Hall & Hlen).
      exists (sub :: nodes). cbn [append_child ID Name Type_ Children] in *.
      rewrite <- app_assoc. split; [reflexivity|].
      cbn [forallb map]; rewrite list_sum_cons. rewrite Hwell, Hall. split; [reflexivity|].
      destruct quiet; cbn [requests eprint] in *; lia.
    + unfold bind at 1. unfold log_unless at 1, modify at 1. cbv beta iota.
      intros Hrest. apply IH in Hrest as (nodes & -> & Hall & Hlen).
      exists (leaf_of_row child :: nodes). cbn [append_child ID Name Type_ Children] in *.
      rewrite <- app_assoc. split; [reflexivity|].
      cbn [forallb map]; rewrite list_sum_cons; cbn [leaf_of_row well_resolved folder_count map]; change (list_sum []) with 0%nat.
      rewrite Htype, Hall. split; [reflexivity|].
      destruct quiet; cbn [requests eprint] in *; lia.
Qed.

Lemma downloadAndParseGoogleDriveLink_resolved (client : http_Client)
    (quiet remainingOk verify : bool) (fuel : nat) :
  forall (urlStr : string) (w : World) (g : GoogleDriveFile) (w' : World),
    downloadAndParseGoogleDriveLink E fuel client quiet remainingOk verify urlStr w
    = Some (Ok g, w') ->
    IsFolder g = true
    /\ well_resolved (accepted_size remainingOk) g = true
    /\ length (requests w') = (length (requests w) + folder_count g)%nat.
Proof.
  induction fuel as [|fuel IH]; intros urlStr w g w'; [discriminate|].
  cbn [downloadAndParseGoogleDriveLink]. unfold bind at 1.
  destruct (client_Get E client (with_language_hint E urlStr) w)
    as [[[resp|e] w1]|] eqn:Hget; try discriminate.
  apply client_Get_requests in Hget as (_ & _ & Hone). specialize (Hone resp eq_refl).
  destruct (negb (StatusCode resp =? 200)%Z); [discriminate|].
  unfold bind at 1. unfold lift at 1.
  destruct (io_ReadAll resp) as [body|e]; [|discriminate].
  unfold bind at 1. unfold lift at 1.
  destruct (parseGoogleDriveFile E (with_language_hint E urlStr) body)
    as [[gfile rows]|e] eqn:Hparse; [|discriminate].
  apply parseGoogleDriveFile_Ok in Hparse as (doc & _ & _ & ->).
  unfold bind at 1.
  destruct (attach_children _ quiet rows _ w1) as [[[gfile'|e] w2]|] eqn:Hattach;
    try discriminate.
  apply (attach_children_resolved (accepted_size remainingOk) _ quiet
           (fun url w0 g0 w0' H => proj2 (IH url w0 g0 w0' H))) in Hattach
    as (nodes & -> & Hall & Hlen).
  cbn [ID Name Type_ Children app] in *.
  destruct ((length nodes =? MAX_NUMBER_FILES)%nat && negb remainingOk) eqn:Hsize;
    [discriminate|].
  unfold ret. intros [= <- <-]. split; [reflexivity|].
  cbn [well_resolved folder_count].
  rewrite String.eqb_refl, Hall, andb_true_r. split.
  - unfold accepted_size. destruct (length nodes =? MAX_NUMBER_FILES)%nat; [|reflexivity].
    destruct remainingOk; [reflexivity | discriminate].
  - rewrite Hlen, Hone. lia.
Qed.

End Tree.

(** X16.  The tree that folder resolution returns, and what it costs.
    Whenever [downloadAndParseGoogleDriveLink] returns a tree, the root is a
    folder, every node that is not a folder has no children, and no folder
    of the tree, at any depth, has exactly 50 children unless [remainingOk]
    is set; and the requests sent are as many as the folders of the tree:
    one page per folder, none for a file. *)
Theorem downloadAndParseGoogleDriveLink_tree
    (E : Env) (fuel : nat) (client : http_Client) (quiet remainingOk verify : bool)
    (urlStr : string) (w : World) (g : GoogleDriveFile) (w' : World) :
  downloadAndParseGoogleDriveLink E fuel client quiet remainingOk verify urlStr w
  = Some (Ok g, w') ->
  IsFolder g = true
  /\ well_resolved (accepted_size remainingOk) g = true
  /\ length (requests w') = (length (requests w) + folder_count g)%nat.
Proof. apply downloadAndParseGoogleDriveLink_resolved. Qed.

(** The theorem at work on a folder with a sub-folder: two folders, two
    requests. *)
Lemma downloadAndParseGoogleDriveLink_tree_witness :
  exists w',
    downloadAndParseGoogleDriveLink Cases.nested 2 Sample.plain_client true false true
      "https://host/folders/root" Sample.empty_world
    = Some (Ok Cases.nested_tree, w')
    /\ IsFolder Cases.nested_tree = true
    /\ well_resolved (accepted_size false) Cases.nested_tree = true
    /\ length (requests w')
       = (length (requests Sample.empty_world) + folder_count Cases.nested_tree)%nat.
Proof.
  destruct (downloadAndParseGoogleDriveLink Cases.nested 2 Sample.plain_client true false
              true "https://host/folders/root" Sample.empty_world)
    as [[[g|e] w']|] eqn:Hrun; try (vm_compute in Hrun; discriminate Hrun).
  assert (g = Cases.nested_tree) as -> by (vm_compute in Hrun; now injection Hrun as <- _).
  exists w'. split; [reflexivity|].
  exact (downloadAndParseGoogleDriveLink_tree Cases.nested 2 Sample.plain_client true
           false true "https://host/folders/root" Sample.empty_world Cases.nested_tree w'
           Hrun).
Defined.

(** ** Listing and downloading a folder *)
Section FolderEffects.
Context (E : Env).

Lemma client_Get_fs (client : http_Client) (urlStr : string) :
  preserves same_fs (client_Get E client urlStr).
Proof. intros w r w' H. now apply client_Get_requests in H as [H _]. Qed.

Lemma attach_children_fs (resolve : string -> M GoogleDriveFile) (quiet : bool) :
  (forall url, preserves same_fs (resolve url)) ->
  forall (children : list child_row) (gfile : GoogleDriveFile),
    preserves same_fs (attach_children resolve quiet children gfile).
Proof.
  intros Hresolve. induction children as [|child rest IH]; intros gfile.
  - apply (preserves_ret _ same_fs_refl same_fs_trans).
  - cbn [attach_children]. destruct (negb _).
    + apply (preserves_bind _ same_fs_refl same_fs_trans); [|intros _; apply IH].
      apply (preserves_log_unless _ same_fs_refl same_fs_trans). reflexivity.
    + apply (preserves_bind _ same_fs_refl same_fs_trans).
      * apply (preserves_log_unless _ same_fs_refl same_fs_trans). reflexivity.
      * intros _. apply (preserves_bind _ same_fs_refl same_fs_trans); [apply Hresolve|].
        intros sub. apply IH.
Qed.

(** Resolving a folder reads pages and writes nothing. *)
Lemma downloadAndParseGoogleDriveLink_fs (client : http_Client)
    (quiet remainingOk verify : bool) (fuel : nat) :
  forall urlStr,
    preserves same_fs
      (downloadAndParseGoogleDriveLink E fuel client quiet remainingOk verify urlStr).
Proof.
  induction fuel as [|fuel IH]; intros urlStr.
  - apply (preserves_diverge _ same_fs_refl same_fs_trans).
  - cbn [downloadAndParseGoogleDriveLink].
    apply (preserves_bind _ same_fs_refl same_fs_trans); [apply client_Get_fs|].
    intros resp. destruct (negb _); [apply (preserves_fail _ same_fs_refl same_fs_trans)|].
    apply (preserves_bind _ same_fs_refl same_fs_trans);
      [apply (preserves_lift _ same_fs_refl same_fs_trans)|].
    intros body. apply (preserves_bind _ same_fs_refl same_fs_trans);
      [apply (preserves_lift _ same_fs_refl same_fs_trans)|].
    intros [gfile rows]. apply (preserves_bind _ same_fs_refl same_fs_trans).
    + now apply attach_children_fs.
    + intros g. destruct (_ && _);
        [apply (preserves_fail _ same_fs_refl same_fs_trans)
        | apply (preserves_ret _ same_fs_refl same_fs_trans)].
Qed.


End FolderEffects.



Section DownloadFolderFacts.
Context (E : Env).

Lemma made_run (path : string) (w : World) :
  exists r, os_MkdirAll E path w = Some (r, made E path w).
Proof.
  unfold made. destruct (os_MkdirAll_effect E path w) as (r & w' & H & _).
  rewrite H. eauto.
Qed.

Lemma made_effect (path : string) (w : World) :
  requests (made E path w) = requests w
  /\ (forall p, fileExists E (made E path w) p = fileExists E w p)
  /\ (forall p x, fs w !! p = Some x -> fs (made E path w) !! p = Some x).
Proof.
  destruct (made_run path w) as [r Hrun].
  destruct (os_MkdirAll_effect E path w) as (r0 & w0 & H0 & Hreq & _ & _ & Hkeep & _).
  rewrite H0 in Hrun. injection Hrun as _ <-.
  split; [exact Hreq|]. split; [|exact Hkeep].
  intros p. eapply os_MkdirAll_fileExists. exact H0.
Qed.

Lemma announce_effect (quiet : bool) (line : string) (w : World) :
  fs (announce quiet line w) = fs w /\ requests (announce quiet line w) = requests w.
Proof. unfold announce. destruct quiet; auto. Qed.

Lemma with_folder_UserAgent_keeps (opts : FolderOptions) :
  Resume (Options (with_folder_UserAgent opts)) = Resume (Options opts)
  /\ Quiet (Options (with_folder_UserAgent opts)) = Quiet (Options opts)
  /\ RemainingOk (with_folder_UserAgent opts) = RemainingOk opts.
Proof. unfold with_folder_UserAgent. destruct (String.eqb _ _); auto. Qed.

(** [DownloadFolder], once its arguments are accepted and the client is
    built. *)
Lemma DownloadFolder_unfold (fuel : nat) (urlStr id output : string)
    (opts : FolderOptions) (client : http_Client) (w : World) :
  (id = EmptyString <-> urlStr <> EmptyString) ->
  newHTTPClient E (Options (with_folder_UserAgent opts)) = Ok client ->
  let quiet := Quiet (Options (with_folder_UserAgent opts)) in
  DownloadFolder E fuel urlStr id output opts w
  = match resolve_folder E fuel client opts urlStr id
            (announce quiet "Retrieving folder contents" w) with
    | None => None
    | Some (Err e, w1) => Some (Err e, eprint "Failed to retrieve folder contents" w1)
    | Some (Ok gfile, w1) =>
        let rootDir := folder_root E output gfile in
        match download_entries E fuel (with_folder_UserAgent opts) rootDir
                (getDirectoryStructure E gfile EmptyString) []
                (made E rootDir
                   (announce quiet ("Creating directory " +:+ rootDir)
                      (announce quiet "Building directory structure" w1))) with
        | None => None
        | Some (Err e, w3) => Some (Err e, w3)
        | Some (Ok paths, w3) => Some (Ok paths, announce quiet "Download completed" w3)
        end
    end.
Proof.
  intros Hargs Hclient quiet. unfold DownloadFolder.
  assert ((String.eqb id EmptyString && String.eqb urlStr EmptyString)
          || (negb (String.eqb id EmptyString) && negb (String.eqb urlStr EmptyString))
          = false) as ->.
  { destruct (String.eqb_spec id EmptyString) as [Hid|Hid];
      destruct (String.eqb_spec urlStr EmptyString) as [Hurl|Hurl];
      try reflexivity; exfalso; tauto. }
  unfold bind at 1. unfold lift at 1. rewrite Hclient.
  unfold bind at 1. unfold log_unless at 1, modify at 1. cbv beta iota.
  unfold bind at 1. unfold catch at 1. unfold resolve_folder, folder_address.
  fold quiet. change (if quiet then w else eprint "Retrieving folder contents" w)
    with (announce quiet "Retrieving folder contents" w).
  destruct (downloadAndParseGoogleDriveLink E fuel client _ _ _ _ _) as [[[g|e] w1]|];
    [| reflexivity | reflexivity].
  unfold bind at 1. unfold log_unless at 1, modify at 1. cbv beta iota zeta.
  unfold bind at 1. unfold log_unless at 1, modify at 1. cbv beta iota.
  unfold bind at 1. unfold catch at 1.
  change (if quiet then w1 else eprint "Building directory structure" w1)
    with (announce quiet "Building directory structure" w1).
  fold (folder_root E output g).
  match goal with
  | |- context [os_MkdirAll E ?root ?w2] =>
      destruct (made_run root w2) as [r Hmade]; rewrite Hmade
  end.
  unfold bind at 1. unfold announce.
  match goal with
  | |- context [download_entries E fuel ?o ?root ?l [] ?w2] =>
      destruct (download_entries E fuel o root l [] w2) as [[[paths|e] w3]|]
  end; reflexivity.
Qed.

(** With [Resume], the files that are there are neither asked for nor
    touched. *)
Lemma download_entries_resumed (fuel : nat) (opts : FolderOptions) (rootDir : string) :
  Resume (Options opts) = true ->
  forall (files : list FileToDownload) (acc : list string) (w : World),
    (forall f, In f (file_entries files) -> fileExists E w (local_path E rootDir f) = true) ->
    exists w',
      download_entries E fuel opts rootDir files acc w
      = Some (Ok (acc ++ map (local_path E rootDir) (file_entries files)), w')
      /\ requests w' = requests w
      /\ (forall p, fileExists E w' p = fileExists E w p).
Proof.
  intros Hresume. induction files as [|f rest IH]; intros acc w Hthere.
  - exists w. cbn [download_entries file_entries List.filter map]. rewrite app_nil_r. auto.
  - cbn [download_entries]. unfold file_entries in *. cbn [List.filter] in *.
    destruct (String.eqb (ftd_ID f) EmptyString); cbn [negb] in *.
    + unfold bind at 1. unfold catch at 1.
      destruct (made_run (filepath_Join E [rootDir; ftd_Path f]) w) as [r Hmade].
      rewrite Hmade.
      destruct (made_effect (filepath_Join E [rootDir; ftd_Path f]) w) as (Hreq & Hfile & _).
      destruct (IH acc (made E (filepath_Join E [rootDir; ftd_Path f]) w))
        as (w' & Hrun & Hreq' & Hfile').
      { intros f0 Hf0. rewrite Hfile. now apply Hthere. }
      exists w'. split; [exact Hrun|]. split; [congruence|].
      intros p. now rewrite Hfile', Hfile.
    + unfold bind at 1. unfold get_world at 1. cbv beta iota.
      rewrite Hresume.
      assert (fileExists E w (filepath_Join E [rootDir; ftd_Path f]) = true) as ->
          by (apply (Hthere f); now left).
      cbn [andb]. unfold bind at 1. unfold log_unless at 1, modify at 1. cbv beta iota.
      set (w1 := if Quiet (Options opts) then w else eprint _ w).
      assert (fs w1 = fs w /\ requests w1 = requests w) as [Hfs1 Hreq1]
          by (unfold w1; destruct (Quiet _); auto).
      destruct (IH (acc ++ [filepath_Join E [rootDir; ftd_Path f]]) w1)
        as (w' & Hrun & Hreq' & Hfile').
      { intros f0 Hf0. rewrite (fileExists_same_entry E w); [|now rewrite Hfs1].
        apply Hthere. now right. }
      exists w'. rewrite Hrun. cbn [map]. rewrite <- app_assoc. split; [reflexivity|].
      split; [congruence|]. intros p. rewrite Hfile'.
      apply fileExists_same_entry. now rewrite Hfs1.
Qed.

(** One path for each file entry. *)
Lemma download_entries_length (fuel : nat) (opts : FolderOptions) (rootDir : string) :
  forall (files : list FileToDownload) (acc paths : list string) (w w' : World),
    download_entries E fuel opts rootDir files acc w = Some (Ok paths, w') ->
    length paths = (length acc + length (file_entries files))%nat.
Proof.
  induction files as [|f rest IH]; intros acc paths w w'.
  - cbn [download_entries]. unfold ret. intros [= <- _]. cbn. lia.
  - cbn [download_entries]. unfold file_entries in *. cbn [List.filter].
    destruct (String.eqb (ftd_ID f) EmptyString); cbn [negb].
    + unfold bind at 1. unfold catch at 1.
      destruct (os_MkdirAll E _ w) as [[r w1]|]; [|discriminate]. apply IH.
    + unfold bind at 1. unfold get_world at 1. cbv beta iota.
      destruct (Resume (Options opts) && fileExists E w _).
      * unfold bind at 1. unfold log_unless at 1, modify at 1. cbv beta iota.
        intros Hrest. apply IH in Hrest. rewrite Hrest, length_app. cbn [length]. lia.
      * unfold bind at 1.
        destruct (Download E fuel _ _ _ w) as [[[d|e] w1]|]; try discriminate.
        intros Hrest. apply IH in Hrest. rewrite Hrest, length_app. cbn [length]. lia.
Qed.

End DownloadFolderFacts.

(** X18.  Resuming a folder that is complete.  Let the folder resolve to
    a tree, and let every file of the tree already be in its place under
    the root directory.  With [Resume], [DownloadFolder] returns those
    places, one for each file in the order of the flattened tree, without
    asking for any file: the only requests are the pages of the folders,
    and no regular file is created, removed or changed into something
    else. *)
Theorem DownloadFolder_resumes
    (E : Env) (fuel : nat) (urlStr id output : string) (opts : FolderOptions)
    (client : http_Client) (w w1 : World) (gfile : GoogleDriveFile) :
  (id = EmptyString <-> urlStr <> EmptyString) ->
  newHTTPClient E (Options (with_folder_UserAgent opts)) = Ok client ->
  resolve_folder E fuel client opts urlStr id
    (announce (Quiet (Options (with_folder_UserAgent opts))) "Retrieving folder contents" w)
  = Some (Ok gfile, w1) ->
  Resume (Options opts) = true ->
  (forall f,
      In f (file_entries (getDirectoryStructure E gfile EmptyString)) ->
      fileExists E w (local_path E (folder_root E output gfile) f) = true) ->
  exists w',
    DownloadFolder E fuel urlStr id output opts w
    = Some (Ok (map (local_path E (folder_root E output gfile))
                  (file_entries (getDirectoryStructure E gfile EmptyString))), w')
    /\ length (requests w') = (length (requests w) + folder_count gfile)%nat
    /\ forall p, fileExists E w' p = fileExists E w p.
Proof.
  intros Hargs Hclient Hresolve Hresume Hthere.
  rewrite (DownloadFolder_unfold E fuel urlStr id output opts client w Hargs Hclient).
  cbv zeta. rewrite Hresolve.
  set (quiet := Quiet (Options (with_folder_UserAgent opts))) in *.
  pose proof (downloadAndParseGoogleDriveLink_fs E client _ _ _ fuel _ _ _ _ Hresolve) as Hfs1.
  unfold same_fs in Hfs1.
  apply downloadAndParseGoogleDriveLink_resolved in Hresolve as (_ & _ & Hreq1).
  destruct (announce_effect quiet "Retrieving folder contents" w) as [Hfs0 Hreq0].
  set (w2 := announce quiet _ (announce quiet "Building directory structure" w1)).
  assert (fs w2 = fs w /\ requests w2 = requests w1) as [Hfs2 Hreq2].
  { unfold w2. destruct (announce_effect quiet ("Creating directory " +:+ folder_root E output gfile)
                           (announce quiet "Building directory structure" w1)) as [-> ->].
    destruct (announce_effect quiet "Building directory structure" w1) as [-> ->].
    split; congruence. }
  destruct (made_effect E (folder_root E output gfile) w2) as (Hreq3 & Hfile3 & _).
  destruct (with_folder_UserAgent_keeps opts) as (Hres & _ & _).
  destruct (download_entries_resumed E fuel (with_folder_UserAgent opts)
              (folder_root E output gfile) ltac:(congruence)
              (getDirectoryStructure E gfile EmptyString) []
              (made E (folder_root E output gfile) w2))
    as (w3 & Hrun & Hreq4 & Hfile4).
  { intros f Hf. rewrite Hfile3, (fileExists_same_entry E w); [|now rewrite Hfs2].
    now apply Hthere. }
  rewrite Hrun. cbn [app]. eexists. split; [reflexivity|].
  destruct (announce_effect quiet "Download completed" w3) as [Hfs5 Hreq5].
  split.
  - rewrite Hreq5, Hreq4, Hreq3, Hreq2, Hreq1, Hreq0. reflexivity.
  - intros p. rewrite (fileExists_same_entry E w3) by now rewrite Hfs5.
    rewrite Hfile4, Hfile3. apply fileExists_same_entry. now rewrite Hfs2.
Qed.

(** The theorem at work: the folder with a sub-folder, resumed where its
    two files already are. *)
Lemma DownloadFolder_resumes_witness :
  exists w',
    DownloadFolder Cases.nested 2 "https://host/folders/root" EmptyString "out"
      Cases.resuming_folder Cases.downloaded
    = Some (Ok ["out/shared/a.txt"; "out/report.txt"], w')
    /\ length (requests w') = 2%nat
    /\ fileExists Cases.nested w' "out/report.txt" = true.
Proof.
  destruct (resolve_folder Cases.nested 2 Sample.plain_client Cases.resuming_folder
              "https://host/folders/root" EmptyString
              (announce (Quiet (Options (with_folder_UserAgent Cases.resuming_folder)))
                 "Retrieving folder contents" Cases.downloaded))
    as [[[g|e] w1]|] eqn:Hresolve; try (vm_compute in Hresolve; discriminate Hresolve).
  assert (g = Cases.nested_tree) as ->
      by (vm_compute in Hresolve; now injection Hresolve as <- _).
  destruct (DownloadFolder_resumes Cases.nested 2 "https://host/folders/root" EmptyString
              "out" Cases.resuming_folder Sample.plain_client Cases.downloaded w1
              Cases.nested_tree)
    as (w' & Hrun & Hreq & Hfiles).
  - split; [discriminate | reflexivity].
  - reflexivity.
  - exact Hresolve.
  - reflexivity.
  - intros f Hf. vm_compute in Hf. destruct Hf as [<-|[<-|[]]]; vm_compute; reflexivity.
  - exists w'. split; [exact Hrun|]. split; [exact Hreq|].
    rewrite Hfiles. vm_compute. reflexivity.
Defined.

(** X19.  One path for each file.  When [DownloadFolder] returns a list
    of paths, the folder was resolved to a tree and the list has exactly one
    path for each file entry of the flattened tree (the entries of folders
    give directories, not paths): a download that fails leaves no partial
    list. *)
Theorem DownloadFolder_one_path_per_file
    (E : Env) (fuel : nat) (urlStr id output : string) (opts : FolderOptions)
    (w : World) (paths : list string) (w' : World) :
  DownloadFolder E fuel urlStr id output opts w = Some (Ok paths, w') ->
  exists client gfile w1,
    newHTTPClient E (Options (with_folder_UserAgent opts)) = Ok client
    /\ resolve_folder E fuel client opts urlStr id
         (announce (Quiet (Options (with_folder_UserAgent opts)))
            "Retrieving folder contents" w)
       = Some (Ok gfile, w1)
    /\ length paths
       = length (file_entries (getDirectoryStructure E gfile EmptyString)).
Proof.
  intros Hrun.
  assert ((id = EmptyString <-> urlStr <> EmptyString)
          /\ exists client, newHTTPClient E (Options (with_folder_UserAgent opts)) = Ok client)
    as [Hargs [client Hclient]].
  { revert Hrun. unfold DownloadFolder.
    destruct (String.eqb_spec id EmptyString) as [Hid|Hid];
      destruct (String.eqb_spec urlStr EmptyString) as [Hurl|Hurl];
      cbn [andb orb negb]; try discriminate;
      unfold bind at 1; unfold lift at 1;
      (destruct (newHTTPClient E (Options (with_folder_UserAgent opts))) as [client|e];
       [|discriminate]); intros _; (split; [tauto | eauto]). }
  rewrite (DownloadFolder_unfold E fuel urlStr id output opts client w Hargs Hclient) in Hrun.
  cbv zeta in Hrun.
  destruct (resolve_folder E fuel client opts urlStr id _) as [[[g|e] w1]|] eqn:Hresolve;
    try discriminate.
  destruct (download_entries E fuel _ _ _ [] _) as [[[ps|e] w3]|] eqn:Hentries;
    try discriminate.
  injection Hrun as <- _. exists client, g, w1. split; [exact Hclient|].
  split; [exact Hresolve|]. now apply download_entries_length in Hentries.
Qed.

Lemma DownloadFolder_one_path_per_file_witness :
  exists client gfile w1,
    newHTTPClient Cases.nested (Options (with_folder_UserAgent Cases.resuming_folder))
    = Ok client
    /\ resolve_folder Cases.nested 2 client Cases.resuming_folder
         "https://host/folders/root" EmptyString
         (announce (Quiet (Options (with_folder_UserAgent Cases.resuming_folder)))
            "Retrieving folder contents" Sample.empty_world)
       = Some (Ok gfile, w1)
    /\ length ["out/shared/a.txt"; "out/report.txt"]
       = length (file_entries (getDirectoryStructure Cases.nested gfile EmptyString)).
Proof.
  destruct (DownloadFolder Cases.nested 2 "https://host/folders/root" EmptyString "out"
              Cases.resuming_folder Sample.empty_world)
    as [[[paths|e] w']|] eqn:Hrun; try (vm_compute in Hrun; discriminate Hrun).
  assert (paths = ["out/shared/a.txt"; "out/report.txt"]) as ->
      by (vm_compute in Hrun; now injection Hrun as <- _).
  exact (DownloadFolder_one_path_per_file Cases.nested 2 "https://host/folders/root"
           EmptyString "out" Cases.resuming_folder Sample.empty_world _ w' Hrun).
Defined.

(** ** Archive extraction *)
Section Extract.
Context (E : Env) (A : Archives).

Lemma only_adds_refl (w : World) : only_adds w w.
Proof. unfold only_adds. repeat split; eauto. Qed.

Lemma only_adds_trans (a b c : World) : only_adds a b -> only_adds b c -> only_adds a c.
Proof.
  intros (Hr1 & He1 & Hn1 & Hf1) (Hr2 & He2 & Hn2 & Hf2).
  unfold only_adds. repeat split; try congruence.
  intros p x Hp. destruct (Hf1 p x Hp) as (y & Hy & Hk).
  destruct (Hf2 p y Hy) as (z & Hz & Hk'). exists z. split; [exact Hz | congruence].
Qed.

Lemma os_MkdirAll_only_adds (path : string) : preserves only_adds (os_MkdirAll E path).
Proof.
  intros w r w' Hrun.
  destruct (os_MkdirAll_effect E path w) as (r0 & w0 & H0 & Hreq & Herr & Hnow & Hkeep & _).
  rewrite H0 in Hrun. injection Hrun as _ <-.
  unfold only_adds. repeat split; try assumption. intros p x Hp. eauto.
Qed.

Lemma insert_file_only_adds (w : World) (p c : string) :
  fs w !! p <> Some Dir ->
  only_adds w (set_fs w (<[p := File c]> (fs w))).
Proof.
  intros Hdir. unfold only_adds. cbn [requests stderr now fs set_fs].
  repeat split. intros q x Hq. destruct (decide (p = q)) as [->|Hne].
  - rewrite lookup_insert_eq. eexists. split; [reflexivity|].
    destruct x; [reflexivity | congruence].
  - rewrite lookup_insert_ne by assumption. eauto.
Qed.

Lemma os_Create_only_adds (p : string) : preserves only_adds (os_Create E p).
Proof.
  intros w r w'. unfold os_Create.
  destruct (os_fault E "open" p); [intros [= _ <-]; apply only_adds_refl|].
  destruct (fs w !! p) as [[c|]|] eqn:Hp; intros [= _ <-];
    try apply only_adds_refl; apply insert_file_only_adds; congruence.
Qed.

Lemma plain_write_only_adds (p x : string) (w : World) :
  only_adds w (snd (plain_write E p x w)).
Proof.
  unfold plain_write, file_Write.
  destruct (os_fault E "write" p); [apply only_adds_refl|].
  destruct (fs w !! p) as [[c|]|] eqn:Hp; cbn [snd];
    try apply only_adds_refl. apply insert_file_only_adds. congruence.
Qed.

Lemma io_Copy_only_adds (p : string) (chunks : list string) (err : option error) :
  preserves only_adds (io_Copy (plain_write E) p chunks err).
Proof.
  apply (preserves_io_Copy only_adds only_adds_refl only_adds_trans
           (fun _ => True)); [|exact I].
  intros dst x w _. split; [|exact I].
  unfold plain_write. pose proof (plain_write_only_adds dst x w) as H.
  unfold plain_write in H. destruct (file_Write E dst x w). exact H.
Qed.

Lemma extract_zip_only_adds (to : string) (files : list zip_File) :
  forall extracted, preserves only_adds (extract_zip E A to files extracted).
Proof.
  pose proof only_adds_refl as Hrefl. pose proof only_adds_trans as Htrans.
  induction files as [|f rest IH]; intros extracted; cbn [extract_zip].
  - now apply preserves_ret.
  - destruct (zf_IsDir f).
    + apply (preserves_bind _ Hrefl Htrans); [|intros _; apply IH].
      apply (preserves_catch _ Hrefl Htrans), os_MkdirAll_only_adds.
    + apply (preserves_bind _ Hrefl Htrans);
        [apply (preserves_catch _ Hrefl Htrans), os_MkdirAll_only_adds | intros _].
      apply (preserves_bind _ Hrefl Htrans); [apply os_Create_only_adds | intros _].
      apply (preserves_bind _ Hrefl Htrans); [now apply preserves_lift | intros rc].
      apply (preserves_bind _ Hrefl Htrans); [apply io_Copy_only_adds | intros _; apply IH].
Qed.

Lemma extract_tar_only_adds (to : string) (headers : list tar_Header) (stop : option error) :
  forall extracted, preserves only_adds (extract_tar E A to headers stop extracted).
Proof.
  pose proof only_adds_refl as Hrefl. pose proof only_adds_trans as Htrans.
  induction headers as [|h rest IH]; intros extracted; cbn [extract_tar].
  - destruct stop; [now apply preserves_fail | now apply preserves_ret].
  - destruct (Ascii.eqb (th_Typeflag h) tar_TypeDir).
    + apply (preserves_bind _ Hrefl Htrans); [|intros _; apply IH].
      apply (preserves_catch _ Hrefl Htrans), os_MkdirAll_only_adds.
    + destruct (Ascii.eqb (th_Typeflag h) tar_TypeReg); [|apply IH].
      apply (preserves_bind _ Hrefl Htrans);
        [apply (preserves_catch _ Hrefl Htrans), os_MkdirAll_only_adds | intros _].
      apply (preserves_bind _ Hrefl Htrans); [apply os_Create_only_adds | intros _].
      apply (preserves_bind _ Hrefl Htrans); [apply io_Copy_only_adds | intros _; apply IH].
Qed.

(** The loops always return: their lists are finite. *)
Lemma os_Create_returns (p : string) (w : World) :
  exists r w', os_Create E p w = Some (r, w').
Proof.
  unfold os_Create. destruct (os_fault E "open" p); [eauto|].
  destruct (fs w !! p) as [[c|]|]; eauto.
Qed.

Lemma extract_zip_returns (to : string) (files : list zip_File) :
  forall extracted w, exists r w', extract_zip E A to files extracted w = Some (r, w').
Proof.
  induction files as [|f rest IH]; intros extracted w; cbn [extract_zip].
  - unfold ret. eauto.
  - destruct (zf_IsDir f).
    + unfold bind at 1. unfold catch at 1.
      destruct (os_MkdirAll_effect E (filepath_Join E [to; zf_Name f]) w)
        as (r0 & w0 & -> & _). apply IH.
    + unfold bind at 1. unfold catch at 1.
      destruct (os_MkdirAll_effect E (filepath_Dir A (filepath_Join E [to; zf_Name f])) w)
        as (r0 & w0 & -> & _).
      unfold bind at 1.
      destruct (os_Create_returns (filepath_Join E [to; zf_Name f]) w0)
        as ([[]|e] & w1 & ->); [|eauto].
      unfold bind at 1. unfold lift at 1. destruct (zf_Open f) as [rc|e]; [|eauto].
      unfold bind at 1.
      destruct (io_Copy_returns (plain_write E) (fst rc) (snd rc)
                  (filepath_Join E [to; zf_Name f]) w1) as ([[]|e] & w2 & ->); [|eauto].
      apply IH.
Qed.

Lemma extract_tar_returns (to : string) (headers : list tar_Header) (stop : option error) :
  forall extracted w, exists r w', extract_tar E A to headers stop extracted w = Some (r, w').
Proof.
  induction headers as [|h rest IH]; intros extracted w; cbn [extract_tar].
  - destruct stop; unfold ret, fail; eauto.
  - destruct (Ascii.eqb (th_Typeflag h) tar_TypeDir).
    + unfold bind at 1. unfold catch at 1.
      destruct (os_MkdirAll_effect E (filepath_Join E [to; th_Name h]) w)
        as (r0 & w0 & -> & _). apply IH.
    + destruct (Ascii.eqb (th_Typeflag h) tar_TypeReg); [|apply IH].
      unfold bind at 1. unfold catch at 1.
      destruct (os_MkdirAll_effect E (filepath_Dir A (filepath_Join E [to; th_Name h])) w)
        as (r0 & w0 & -> & _).
      unfold bind at 1.
      destruct (os_Create_returns (filepath_Join E [to; th_Name h]) w0)
        as ([[]|e] & w1 & ->); [|eauto].
      unfold bind at 1.
      destruct (io_Copy_returns (plain_write E) (th_Body h) (th_BodyErr h)
                  (filepath_Join E [to; th_Name h]) w1) as ([[]|e] & w2 & ->); [|eauto].
      apply IH.
Qed.

(** The list that the loop over a zip archive returns. *)
Lemma extract_zip_list (to : string) (files : list zip_File) :
  forall (extracted l : list string) (w w' : World),
    extract_zip E A to files extracted w = Some (Ok l, w') ->
    l = extracted ++ zip_members E to files.
Proof.
  induction files as [|f rest IH]; intros extracted l w w'; cbn [extract_zip].
  - unfold ret. intros [= <- _]. unfold zip_members. cbn. now rewrite app_nil_r.
  - unfold zip_members in *. cbn [List.filter]. destruct (zf_IsDir f); cbn [negb].
    + unfold bind at 1. unfold catch at 1.
      destruct (os_MkdirAll E _ w) as [[r w1]|]; [|discriminate]. apply IH.
    + unfold bind at 1. unfold catch at 1.
      destruct (os_MkdirAll E _ w) as [[r w1]|]; [|discriminate].
      unfold bind at 1. destruct (os_Create E _ w1) as [[[[]|e] w2]|]; try discriminate.
      unfold bind at 1. unfold lift at 1. destruct (zf_Open f) as [rc|e]; [|discriminate].
      unfold bind at 1.
      destruct (io_Copy _ _ _ _ w2) as [[[[]|e] w3]|]; try discriminate.
      intros Hrest. apply IH in Hrest. rewrite Hrest. cbn [map]. now rewrite <- app_assoc.
Qed.

Lemma extract_tar_list (to : string) (headers : list tar_Header) (stop : option error) :
  forall (extracted l : list string) (w w' : World),
    extract_tar E A to headers stop extracted w = Some (Ok l, w') ->
    stop = None /\ l = extracted ++ tar_members E to headers.
Proof.
  induction headers as [|h rest IH]; intros extracted l w w'; cbn [extract_tar].
  - destruct stop; [discriminate|]. unfold ret. intros [= <- _].
    unfold tar_members. cbn. now rewrite app_nil_r.
  - unfold tar_members in *. cbn [List.filter].
    destruct (Ascii.eqb_spec (th_Typeflag h) tar_TypeDir) as [Hdir|Hdir].
    + rewrite Hdir. cbn [Ascii.eqb Bool.eqb tar_TypeDir tar_TypeReg].
      unfold bind at 1. unfold catch at 1.
      destruct (os_MkdirAll E _ w) as [[r w1]|]; [|discriminate]. apply IH.
    + destruct (Ascii.eqb (th_Typeflag h) tar_TypeReg); [|apply IH].
      unfold bind at 1. unfold catch at 1.
      destruct (os_MkdirAll E _ w) as [[r w1]|]; [|discriminate].
      unfold bind at 1. destruct (os_Create E _ w1) as [[[[]|e] w2]|]; try discriminate.
      unfold bind at 1.
      destruct (io_Copy _ _ _ _ w2) as [[[[]|e] w3]|]; try discriminate.
      intros Hrest. apply IH in Hrest as [-> ->]. split; [reflexivity|].
      cbn [map]. now rewrite <- app_assoc.
Qed.

End Extract.

(** X20.  What [ExtractAll] leaves alone.  Whatever the archive and
    whatever the outcome, [ExtractAll] sends no request, prints nothing and
    takes no time of its own, and it removes nothing: every entry of the
    file system is still there afterwards and is still of its kind, a
    directory or a regular file (the content of a file may have been
    replaced by that of an archive entry of the same path).  When the path
    has none of the extensions [.zip], [.tar], [.tar.gz] and [.tgz], or when
    the archive cannot be read, the result is an error and the world is
    exactly as it was. *)
Theorem ExtractAll_only_adds
    (E : Env) (A : Archives) (archivePath to : string) (w : World) :
  exists r w',
    ExtractAll E A archivePath to w = Some (r, w')
    /\ only_adds w w'
    /\ (known_archive archivePath = false ->
        r = Err (unsupported_archive_format archivePath) /\ w' = w)
    /\ (forall e, read_file E w archivePath = Err e ->
        known_archive archivePath = true -> r = Err e /\ w' = w).
Proof.
  pose proof (only_adds_refl) as Hrefl.
  unfold ExtractAll, known_archive.
  set (dest := if String.eqb to EmptyString then filepath_Dir A archivePath else to).
  destruct (strings.HasSuffix archivePath ".zip") eqn:Hzip; cbn [orb].
  - unfold bind at 1. unfold get_world at 1. cbv beta iota.
    unfold bind at 1. unfold lift at 1.
    destruct (read_file E w archivePath) as [content|e] eqn:Hread.
    + unfold bind at 1. unfold lift at 1.
      destruct (zip_NewReader A content) as [files|e].
      * destruct (extract_zip_returns E A dest files [] w) as (r & w' & Hrun).
        exists r, w'. split; [exact Hrun|].
        split; [eapply extract_zip_only_adds; exact Hrun|].
        split; [discriminate | intros e [=]].
      * exists (Err e), w. split; [reflexivity|]. split; [apply Hrefl|].
        split; [discriminate | intros e0 [=]].
    + exists (Err e), w. split; [reflexivity|]. split; [apply Hrefl|].
      split; [discriminate | intros e0 [= <-]; auto].
  - destruct (strings.HasSuffix archivePath ".tar"
              || strings.HasSuffix archivePath ".tar.gz"
              || strings.HasSuffix archivePath ".tgz") eqn:Htar.
    + unfold bind at 1. unfold get_world at 1. cbv beta iota.
      unfold bind at 1. unfold lift at 1.
      destruct (read_file E w archivePath) as [content|e] eqn:Hread.
      * assert (forall source,
                   exists r w',
                     (let '(headers, stop) := tar_NewReader A source in
                      extract_tar E A dest headers stop []) w = Some (r, w')
                     /\ only_adds w w') as Htarred.
        { intros source. destruct (tar_NewReader A source) as [headers stop].
          destruct (extract_tar_returns E A dest headers stop [] w) as (r & w' & Hrun).
          exists r, w'. split; [exact Hrun|]. eapply extract_tar_only_adds; exact Hrun. }
        unfold bind at 1.
        destruct (strings.HasSuffix archivePath ".tar").
        -- unfold ret at 1. destruct (Htarred (plain_tar content)) as (r & w' & Hrun & Hadds).
           exists r, w'. split; [exact Hrun|]. split; [exact Hadds|].
           split; [discriminate | intros e [=]].
        -- destruct (gzip_NewReader A content) as [e|].
           ++ exists (Err e), w. split; [reflexivity|]. split; [apply Hrefl|].
              split; [discriminate | intros e0 [=]].
           ++ unfold ret at 1.
              destruct (Htarred (gzipped_tar content)) as (r & w' & Hrun & Hadds).
              exists r, w'. split; [exact Hrun|]. split; [exact Hadds|].
              split; [discriminate | intros e [=]].
      * exists (Err e), w. split; [reflexivity|]. split; [apply Hrefl|].
        split; [discriminate | intros e0 [= <-]; auto].
    + exists (Err (unsupported_archive_format archivePath)), w.
      split; [reflexivity|]. split; [apply Hrefl|].
      split; [auto | intros e _ Hknown; discriminate].
Qed.

(** The theorem at work: an extension that is not known, and an archive
    that is not there. *)
Lemma ExtractAll_only_adds_witness :
  ExtractAll Sample.offline Cases.unpacking "notes.rar" EmptyString Sample.empty_world
  = Some (Err (unsupported_archive_format "notes.rar"), Sample.empty_world)
  /\ ExtractAll Sample.offline Cases.unpacking "missing.zip" EmptyString Sample.empty_world
     = Some (Err (no_such_file "open" "missing.zip"), Sample.empty_world).
Proof.
  split.
  - destruct (ExtractAll_only_adds Sample.offline Cases.unpacking "notes.rar" EmptyString
                Sample.empty_world) as (r & w' & Hrun & _ & Hunknown & _).
    destruct (Hunknown eq_refl) as [-> ->]. exact Hrun.
  - destruct (ExtractAll_only_adds Sample.offline Cases.unpacking "missing.zip" EmptyString
                Sample.empty_world) as (r & w' & Hrun & _ & _ & Hmissing).
    destruct (Hmissing (no_such_file "open" "missing.zip") eq_refl eq_refl) as [-> ->].
    exact Hrun.
Defined.

Section Members.
Context (E : Env) (A : Archives).

(** A copy into [q] leaves the other paths alone. *)
Lemma io_Copy_frame (p q : string) (chunks : list string) (err : option error)
    (w w' : World) (r : Result unit) :
  p <> q ->
  io_Copy (plain_write E) q chunks err w = Some (r, w') ->
  fs w' !! p = fs w !! p.
Proof.
  intros Hne Hrun.
  apply (preserves_io_Copy (fun a b => fs b !! p = fs a !! p)
           (fun a => eq_refl) (fun a b c H1 H2 => eq_trans H2 H1)
           (fun dst => dst = q) (plain_write E) chunks err) in Hrun; [exact Hrun | | reflexivity].
  intros dst x w0 ->. split.
  - unfold plain_write, file_Write. destruct (os_fault E "write" q); [reflexivity|].
    destruct (fs w0 !! q) as [[c|]|]; cbn [snd fs set_fs]; try reflexivity.
    now rewrite lookup_insert_ne by congruence.
  - unfold plain_write. now destruct (file_Write E q x w0).
Qed.

(** A copy that went through has appended all the chunks. *)
Lemma io_Copy_plain_Ok (p : string) (chunks : list string) (err : option error) :
  forall (w w' : World) (c : string),
    fs w !! p = Some (File c) ->
    io_Copy (plain_write E) p chunks err w = Some (Ok tt, w') ->
    err = None /\ fs w' !! p = Some (File (c +:+ String.concat EmptyString chunks)).
Proof.
  induction chunks as [|chunk rest IH]; intros w w' c Hfile.
  - cbn [io_Copy String.concat]. destruct err; [discriminate|].
    unfold ret. intros [= <-]. now rewrite append_nil_r.
  - cbn [io_Copy]. rewrite concat_cons.
    destruct (String.eqb_spec chunk EmptyString) as [->|Hne]; [now apply IH|].
    unfold plain_write at 1, file_Write.
    destruct (os_fault E "write" p); [discriminate|]. rewrite Hfile.
    rewrite Z.eqb_refl. intros Hrest.
    apply (IH _ _ (c +:+ chunk)) in Hrest; [|apply lookup_insert_eq].
    now rewrite append_assoc in Hrest.
Qed.

Lemma os_Create_Ok (p : string) (w w' : World) :
  os_Create E p w = Some (Ok tt, w') ->
  fs w' !! p = Some (File EmptyString) /\ forall q, q <> p -> fs w' !! q = fs w !! q.
Proof.
  unfold os_Create. destruct (os_fault E "open" p); [discriminate|].
  destruct (fs w !! p) as [[c|]|]; try discriminate; intros [= <-]; cbn [fs set_fs];
    (split; [apply lookup_insert_eq | intros q Hq; now rewrite lookup_insert_ne by congruence]).
Qed.

Lemma os_Create_frame (p q : string) (w w' : World) (r : Result unit) :
  q <> p -> os_Create E p w = Some (r, w') -> fs w' !! q = fs w !! q.
Proof.
  intros Hne. unfold os_Create. destruct (os_fault E "open" p); [now intros [= _ <-]|].
  destruct (fs w !! p) as [[c|]|]; intros [= _ <-]; cbn [fs set_fs];
    try reflexivity; now rewrite lookup_insert_ne by congruence.
Qed.

Lemma os_MkdirAll_file (path p c : string) (w w' : World) (r : Result unit) :
  os_MkdirAll E path w = Some (r, w') ->
  fs w !! p = Some (File c) -> fs w' !! p = Some (File c).
Proof.
  intros Hrun Hp.
  destruct (os_MkdirAll_effect E path w) as (r0 & w0 & H0 & _ & _ & _ & Hkeep & _).
  rewrite H0 in Hrun. injection Hrun as _ <-. now apply Hkeep.
Qed.

(** The files that the remaining entries do not name stay as they are. *)
Lemma extract_zip_frame (to : string) (files : list zip_File) :
  forall (extracted : list string) (w w' : World) (r : Result (list string)) (p c : string),
    extract_zip E A to files extracted w = Some (r, w') ->
    ~ In p (zip_members E to files) ->
    fs w !! p = Some (File c) -> fs w' !! p = Some (File c).
Proof.
  induction files as [|f rest IH]; intros extracted w w' r p c; cbn [extract_zip].
  - unfold ret. now intros [= _ <-].
  - unfold zip_members in *. cbn [List.filter]. destruct (zf_IsDir f); cbn [negb map].
    + unfold bind at 1. unfold catch at 1.
      destruct (os_MkdirAll E _ w) as [[r0 w0]|] eqn:Hmk; [|discriminate].
      intros Hrest Hnot Hp. eapply IH; [exact Hrest | exact Hnot |].
      eapply os_MkdirAll_file; eassumption.
    + unfold bind at 1. unfold catch at 1.
      destruct (os_MkdirAll E _ w) as [[r0 w0]|] eqn:Hmk; [|discriminate].
      intros Hrun Hnot Hp.
      assert (p <> filepath_Join E [to; zf_Name f]) as Hne by (intros ->; apply Hnot; now left).
      assert (~ In p (map (fun f => filepath_Join E [to; zf_Name f])
                        (List.filter (fun f => negb (zf_IsDir f)) rest))) as Hnot'
          by (intros Hin; apply Hnot; now right).
      pose proof (os_MkdirAll_file _ _ _ _ _ _ Hmk Hp) as Hp0.
      revert Hrun. unfold bind at 1.
      destruct (os_Create E _ w0) as [[[[]|e] w1]|] eqn:Hcreate; try discriminate.
      * pose proof (os_Create_frame _ _ _ _ _ Hne Hcreate) as Hp1.
        unfold bind at 1. unfold lift at 1. destruct (zf_Open f) as [rc|e].
        -- unfold bind at 1.
           destruct (io_Copy _ _ _ _ w1) as [[[[]|e] w2]|] eqn:Hcopy; try discriminate.
           ++ pose proof (io_Copy_frame _ _ _ _ _ _ _ Hne Hcopy) as Hp2.
              intros Hrest. eapply IH; [exact Hrest | exact Hnot' | congruence].
           ++ pose proof (io_Copy_frame _ _ _ _ _ _ _ Hne Hcopy) as Hp2.
              intros [= _ <-]. congruence.
        -- intros [= _ <-]. congruence.
      * pose proof (os_Create_frame _ _ _ _ _ Hne Hcreate) as Hp1.
        intros [= _ <-]. congruence.
Qed.

Lemma extract_tar_frame (to : string) (headers : list tar_Header) (stop : option error) :
  forall (extracted : list string) (w w' : World) (r : Result (list string)) (p c : string),
    extract_tar E A to headers stop extracted w = Some (r, w') ->
    ~ In p (tar_members E to headers) ->
    fs w !! p = Some (File c) -> fs w' !! p = Some (File c).
Proof.
  induction headers as [|h rest IH]; intros extracted w w' r p c; cbn [extract_tar].
  - destruct stop; unfold ret, fail; now intros [= _ <-].
  - unfold tar_members in *. cbn [List.filter].
    destruct (Ascii.eqb_spec (th_Typeflag h) tar_TypeDir) as [Hdir|Hdir].
    + rewrite Hdir. cbn [Ascii.eqb Bool.eqb tar_TypeDir tar_TypeReg].
      unfold bind at 1. unfold catch at 1.
      destruct (os_MkdirAll E _ w) as [[r0 w0]|] eqn:Hmk; [|discriminate].
      intros Hrest Hnot Hp. eapply IH; [exact Hrest | exact Hnot |].
      eapply os_MkdirAll_file; eassumption.
    + destruct (Ascii.eqb (th_Typeflag h) tar_TypeReg); [|apply IH]. cbn [map].
      unfold bind at 1. unfold catch at 1.
      destruct (os_MkdirAll E _ w) as [[r0 w0]|] eqn:Hmk; [|discriminate].
      intros Hrun Hnot Hp.
      assert (p <> filepath_Join E [to; th_Name h]) as Hne by (intros ->; apply Hnot; now left).
      assert (~ In p (map (fun h => filepath_Join E [to; th_Name h])
                        (List.filter (fun h => Ascii.eqb (th_Typeflag h) tar_TypeReg) rest)))
        as Hnot' by (intros Hin; apply Hnot; now right).
      pose proof (os_MkdirAll_file _ _ _ _ _ _ Hmk Hp) as Hp0.
      revert Hrun. unfold bind at 1.
      destruct (os_Create E _ w0) as [[[[]|e] w1]|] eqn:Hcreate; try discriminate.
      * pose proof (os_Create_frame _ _ _ _ _ Hne Hcreate) as Hp1.
        unfold bind at 1.
        destruct (io_Copy _ _ _ _ w1) as [[[[]|e] w2]|] eqn:Hcopy; try discriminate.
        -- pose proof (io_Copy_frame _ _ _ _ _ _ _ Hne Hcopy) as Hp2.
           intros Hrest. eapply IH; [exact Hrest | exact Hnot' | congruence].
        -- pose proof (io_Copy_frame _ _ _ _ _ _ _ Hne Hcopy) as Hp2.
           intros [= _ <-]. congruence.
      * pose proof (os_Create_frame _ _ _ _ _ Hne Hcreate) as Hp1.
        intros [= _ <-]. congruence.
Qed.

(** After a loop that went through, every regular entry is in its place
    with its content, when no two of them have the same place. *)
Lemma extract_zip_content (to : string) (files : list zip_File) :
  forall (extracted l : list string) (w w' : World),
    extract_zip E A to files extracted w = Some (Ok l, w') ->
    NoDup (zip_members E to files) ->
    forall f,
      In f files -> zf_IsDir f = false ->
      exists chunks,
        zf_Open f = Ok (chunks, None)
        /\ fs w' !! filepath_Join E [to; zf_Name f]
           = Some (File (String.concat EmptyString chunks)).
Proof.
  induction files as [|f0 rest IH]; intros extracted l w w' Hrun Hdup f Hin Hfile;
    [destruct Hin|].
  revert Hrun. cbn [extract_zip]. unfold zip_members in *. cbn [List.filter] in Hdup.
  destruct (zf_IsDir f0) eqn:Hdir0; cbn [negb map] in Hdup.
  - unfold bind at 1. unfold catch at 1.
    destruct (os_MkdirAll E _ w) as [[r0 w0]|]; [|discriminate].
    intros Hrest. destruct Hin as [->|Hin]; [congruence|].
    eapply IH; eassumption.
  - unfold bind at 1. unfold catch at 1.
    destruct (os_MkdirAll E _ w) as [[r0 w0]|]; [|discriminate].
    unfold bind at 1.
    destruct (os_Create E _ w0) as [[[[]|e] w1]|] eqn:Hcreate; try discriminate.
    apply os_Create_Ok in Hcreate as [Hempty _].
    unfold bind at 1. unfold lift at 1.
    destruct (zf_Open f0) as [[chunks err]|e] eqn:Hopen; [|discriminate].
    unfold bind at 1. cbn [fst snd].
    destruct (io_Copy _ _ chunks err w1) as [[[[]|e] w2]|] eqn:Hcopy; try discriminate.
    apply (io_Copy_plain_Ok _ _ _ _ _ _ Hempty) in Hcopy as [-> Hcontent].
    cbn [append] in Hcontent.
    apply NoDup_cons in Hdup as [Hfresh Hdup].
    intros Hrest. destruct Hin as [<-|Hin].
    + exists chunks. split; [exact Hopen|].
      assert (~ In (filepath_Join E [to; zf_Name f0])
                (map (fun f => filepath_Join E [to; zf_Name f])
                   (List.filter (fun f => negb (zf_IsDir f)) rest))) as Hnot.
      { intros H. apply Hfresh. now apply list_elem_of_In. }
      eapply extract_zip_frame; eassumption.
    + eapply IH; eassumption.
Qed.

Lemma extract_tar_content (to : string) (headers : list tar_Header) (stop : option error) :
  forall (extracted l : list string) (w w' : World),
    extract_tar E A to headers stop extracted w = Some (Ok l, w') ->
    NoDup (tar_members E to headers) ->
    forall h,
      In h headers -> th_Typeflag h = tar_TypeReg ->
      th_BodyErr h = None
      /\ fs w' !! filepath_Join E [to; th_Name h]
         = Some (File (String.concat EmptyString (th_Body h))).
Proof.
  induction headers as [|h0 rest IH]; intros extracted l w w' Hrun Hdup h Hin Hreg;
    [destruct Hin|].
  revert Hrun. cbn [extract_tar]. unfold tar_members in *. cbn [List.filter] in Hdup.
  destruct (Ascii.eqb_spec (th_Typeflag h0) tar_TypeDir) as [Hdir0|Hdir0].
  - rewrite Hdir0 in Hdup. cbn [Ascii.eqb Bool.eqb tar_TypeDir tar_TypeReg] in Hdup.
    unfold bind at 1. unfold catch at 1.
    destruct (os_MkdirAll E _ w) as [[r0 w0]|]; [|discriminate].
    intros Hrest. destruct Hin as [->|Hin]; [rewrite Hreg in Hdir0; discriminate|].
    eapply IH; eassumption.
  - destruct (Ascii.eqb_spec (th_Typeflag h0) tar_TypeReg) as [Hreg0|Hreg0].
    + cbn [map] in Hdup. unfold bind at 1. unfold catch at 1.
      destruct (os_MkdirAll E _ w) as [[r0 w0]|]; [|discriminate].
      unfold bind at 1.
      destruct (os_Create E _ w0) as [[[[]|e] w1]|] eqn:Hcreate; try discriminate.
      apply os_Create_Ok in Hcreate as [Hempty _].
      unfold bind at 1.
      destruct (io_Copy _ _ _ _ w1) as [[[[]|e] w2]|] eqn:Hcopy; try discriminate.
      apply (io_Copy_plain_Ok _ _ _ _ _ _ Hempty) in Hcopy as [Herr Hcontent].
      cbn [append] in Hcontent.
      apply NoDup_cons in Hdup as [Hfresh Hdup].
      intros Hrest. destruct Hin as [<-|Hin].
      * split; [exact Herr|].
        assert (~ In (filepath_Join E [to; th_Name h0])
                  (map (fun h => filepath_Join E [to; th_Name h])
                     (List.filter (fun h => Ascii.eqb (th_Typeflag h) tar_TypeReg) rest)))
          as Hnot.
        { intros H. apply Hfresh. now apply list_elem_of_In. }
        eapply extract_tar_frame; eassumption.
      * eapply IH; eassumption.
    + intros Hrest. destruct Hin as [->|Hin]; [congruence|].
      eapply IH; eassumption.
Qed.

(** A successful extraction, taken apart. *)
Lemma ExtractAll_Ok (archivePath to : string) (w w' : World) (l : list string) :
  ExtractAll E A archivePath to w = Some (Ok l, w') ->
  exists content,
    read_file E w archivePath = Ok content
    /\ ((strings.HasSuffix archivePath ".zip" = true
         /\ exists files,
             zip_NewReader A content = Ok files
             /\ extract_zip E A (extraction_root A archivePath to) files [] w
                = Some (Ok l, w'))
        \/ (strings.HasSuffix archivePath ".zip" = false
            /\ exists headers,
                tar_NewReader A
                  (if strings.HasSuffix archivePath ".tar"
                   then plain_tar content else gzipped_tar content)
                = (headers, None)
                /\ (strings.HasSuffix archivePath ".tar" = false ->
                    gzip_NewReader A content = None)
                /\ extract_tar E A (extraction_root A archivePath to) headers None [] w
                   = Some (Ok l, w'))).
Proof.
  unfold ExtractAll. fold (extraction_root A archivePath to).
  destruct (strings.HasSuffix archivePath ".zip").
  - unfold bind at 1. unfold get_world at 1. cbv beta iota.
    unfold bind at 1. unfold lift at 1.
    destruct (read_file E w archivePath) as [content|e]; [|discriminate].
    unfold bind at 1. unfold lift at 1.
    destruct (zip_NewReader A content) as [files|e] eqn:Hzip; [|discriminate].
    intros Hrun. exists content. split; [reflexivity|]. left. eauto.
  - destruct (_ || _); [|discriminate].
    unfold bind at 1. unfold get_world at 1. cbv beta iota.
    unfold bind at 1. unfold lift at 1.
    destruct (read_file E w archivePath) as [content|e]; [|discriminate].
    unfold bind at 1.
    destruct (strings.HasSuffix archivePath ".tar").
    + unfold ret at 1.
      destruct (tar_NewReader A (plain_tar content)) as [headers stop] eqn:Hsrc.
      intros Hrun. pose proof (extract_tar_list E A _ _ _ _ _ _ _ Hrun) as [-> _].
      exists content. split; [reflexivity|]. right. split; [reflexivity|].
      exists headers. split; [exact Hsrc|]. split; [discriminate | exact Hrun].
    + destruct (gzip_NewReader A content) as [e|] eqn:Hgz; [discriminate|].
      unfold ret at 1.
      destruct (tar_NewReader A (gzipped_tar content)) as [headers stop] eqn:Hsrc.
      intros Hrun. pose proof (extract_tar_list E A _ _ _ _ _ _ _ Hrun) as [-> _].
      exists content. split; [reflexivity|]. right. split; [reflexivity|].
      exists headers. split; [exact Hsrc|]. split; [intros _; exact Hgz | exact Hrun].
Qed.

End Members.

(** X21.  The list that [ExtractAll] returns.  When it returns a list,
    the archive could be read and the list names, in the order of the
    archive, the places of its regular entries: the name of each joined to
    the destination (the directory of the archive when none is given).  The
    entries that are directories are made but not listed, and in a tar
    archive the entries that are neither (links and the like) are passed
    over; a tar archive has been read to its end. *)
Theorem ExtractAll_members
    (E : Env) (A : Archives) (archivePath to : string) (w w' : World) (l : list string) :
  ExtractAll E A archivePath to w = Some (Ok l, w') ->
  exists content,
    read_file E w archivePath = Ok content
    /\ (strings.HasSuffix archivePath ".zip" = true ->
        exists files,
          zip_NewReader A content = Ok files
          /\ l = zip_members E (extraction_root A archivePath to) files)
    /\ (strings.HasSuffix archivePath ".zip" = false ->
        exists headers,
          tar_NewReader A
            (if strings.HasSuffix archivePath ".tar"
             then plain_tar content else gzipped_tar content)
          = (headers, None)
          /\ l = tar_members E (extraction_root A archivePath to) headers).
Proof.
  intros Hrun. apply ExtractAll_Ok in Hrun as (content & Hread & Hcase).
  exists content. split; [exact Hread|].
  destruct Hcase as [[Hzip (files & Hfiles & Hrun)] | [Hzip (headers & Hsrc & _ & Hrun)]].
  - split; [|congruence]. intros _. exists files. split; [exact Hfiles|].
    now apply extract_zip_list in Hrun.
  - split; [congruence|]. intros _. exists headers. split; [exact Hsrc|].
    now apply extract_tar_list in Hrun as [_ ->].
Qed.

(** X22.  What [ExtractAll] writes.  When it returns a list without
    repetitions (no two regular entries of the archive have the same
    place), then afterwards every regular entry of the archive is a regular
    file at its place and holds the content of the entry, which was read
    without error. *)
Theorem ExtractAll_contents
    (E : Env) (A : Archives) (archivePath to : string) (w w' : World) (l : list string) :
  ExtractAll E A archivePath to w = Some (Ok l, w') ->
  NoDup l ->
  forall content,
    read_file E w archivePath = Ok content ->
    (forall files f,
        strings.HasSuffix archivePath ".zip" = true ->
        zip_NewReader A content = Ok files ->
        In f files -> zf_IsDir f = false ->
        exists chunks,
          zf_Open f = Ok (chunks, None)
          /\ fs w' !! filepath_Join E [extraction_root A archivePath to; zf_Name f]
             = Some (File (String.concat EmptyString chunks)))
    /\ (forall headers stop h,
           strings.HasSuffix archivePath ".zip" = false ->
           tar_NewReader A
             (if strings.HasSuffix archivePath ".tar"
              then plain_tar content else gzipped_tar content)
           = (headers, stop) ->
           In h headers -> th_Typeflag h = tar_TypeReg ->
           th_BodyErr h = None
           /\ fs w' !! filepath_Join E [extraction_root A archivePath to; th_Name h]
              = Some (File (String.concat EmptyString (th_Body h)))).
Proof.
  intros Hrun Hdup content Hread.
  apply ExtractAll_Ok in Hrun as (content' & Hread' & Hcase).
  assert (content' = content) as -> by congruence.
  destruct Hcase as [[Hzip (files & Hfiles & Hrun)] | [Hzip (headers & Hsrc & _ & Hrun)]].
  - split; [|congruence]. intros files' f _ Hfiles' Hin Hfile.
    assert (files' = files) as -> by congruence.
    pose proof (extract_zip_list E A _ _ _ _ _ _ Hrun) as Hl. cbn [app] in Hl. subst l.
    eapply extract_zip_content; eassumption.
  - split; [congruence|]. intros headers' stop h _ Hsrc' Hin Hreg.
    assert (headers' = headers) as -> by congruence.
    pose proof (extract_tar_list E A _ _ _ _ _ _ _ Hrun) as [_ Hl]. cbn [app] in Hl. subst l.
    eapply extract_tar_content; eassumption.
Qed.

(** The two theorems at work: the zip archive and the gzipped tar archive
    of the samples, extracted next to themselves. *)
Lemma ExtractAll_members_witness :
  exists content,
    read_file Sample.offline Cases.archive_world "pack/a.zip" = Ok content
    /\ (strings.HasSuffix "pack/a.zip" ".zip" = true ->
        exists files,
          zip_NewReader Cases.unpacking content = Ok files
          /\ ["pack/docs/a.txt"; "pack/b.txt"]
             = zip_members Sample.offline
                 (extraction_root Cases.unpacking "pack/a.zip" EmptyString) files)
    /\ (strings.HasSuffix "pack/a.zip" ".zip" = false ->
        exists headers,
          tar_NewReader Cases.unpacking
            (if strings.HasSuffix "pack/a.zip" ".tar"
             then plain_tar content else gzipped_tar content)
          = (headers, None)
          /\ ["pack/docs/a.txt"; "pack/b.txt"]
             = tar_members Sample.offline
                 (extraction_root Cases.unpacking "pack/a.zip" EmptyString) headers).
Proof.
  destruct (ExtractAll Sample.offline Cases.unpacking "pack/a.zip" EmptyString
              Cases.archive_world)
    as [[[l|e] w']|] eqn:Hrun; try (vm_compute in Hrun; discriminate Hrun).
  assert (l = ["pack/docs/a.txt"; "pack/b.txt"]) as ->
      by (vm_compute in Hrun; now injection Hrun as <- _).
  exact (ExtractAll_members Sample.offline Cases.unpacking "pack/a.zip" EmptyString
           Cases.archive_world w' _ Hrun).
Defined.

Lemma ExtractAll_contents_witness :
  exists w',
    ExtractAll Sample.offline Cases.unpacking "pack/b.tgz" EmptyString Cases.archive_world
    = Some (Ok ["pack/docs/a.txt"; "pack/b.txt"], w')
    /\ fs w' !! "pack/docs/a.txt" = Some (File "alpha")
    /\ fs w' !! "pack/b.txt" = Some (File "beta").
Proof.
  destruct (ExtractAll Sample.offline Cases.unpacking "pack/b.tgz" EmptyString
              Cases.archive_world)
    as [[[l|e] w']|] eqn:Hrun; try (vm_compute in Hrun; discriminate Hrun).
  assert (l = ["pack/docs/a.txt"; "pack/b.txt"]) as ->
      by (vm_compute in Hrun; now injection Hrun as <- _).
  assert (NoDup ["pack/docs/a.txt"; "pack/b.txt"]) as Hdup.
  { repeat constructor; rewrite ?list_elem_of_In; simpl; intuition discriminate. }
  destruct (ExtractAll_contents Sample.offline Cases.unpacking "pack/b.tgz" EmptyString
              Cases.archive_world w' _ Hrun Hdup (Cases.gzip_magic +:+ "ustar-sample")
              eq_refl) as [_ Htar].
  exists w'. split; [reflexivity|]. split.
  - apply (Htar Cases.tarred None
             {| th_Name := "docs/a.txt"; th_Typeflag := tar_TypeReg; th_Body := ["alpha"];
                th_BodyErr := None |} eq_refl eq_refl); [simpl; tauto | reflexivity].
  - apply (Htar Cases.tarred None
             {| th_Name := "b.txt"; th_Typeflag := tar_TypeReg; th_Body := ["beta"];
                th_BodyErr := None |} eq_refl eq_refl); [simpl; tauto | reflexivity].
Defined.

(** ** Where the confirmation loop can lead *)
Section Links.
Context (E : Env).

(** A link taken from a confirmation page is a link to the provider. *)
Lemma getUrlFromGDriveConfirmation_provider (html urlStr : string) :
  getUrlFromGDriveConfirmation html = Ok urlStr -> provider_link urlStr = true.
Proof.
  unfold getUrlFromGDriveConfirmation, Regexp.confirm_FindStringSubmatch.
  destruct (Regexp.confirm_find html) as [l|] eqn:Hfind; [|discriminate].
  apply confirm_find_leftmost in Hfind as (pre & rest & post & _ & _ & -> & _).
  cbn [default]. intros [= <-].
  change ("https://docs.google.com" +:+ Regexp.confirm_prefix +:+ rest)
    with ("https://docs.google.com/uc?export=download" +:+ rest).
  rewrite (ReplaceAll_free_prefix "https://docs.google.com/uc?export=download" rest)
    by reflexivity.
  unfold provider_link, strings.HasPrefix. now rewrite strip_prefix_append.
Qed.

(** The requests of the loop, oldest first: the URL asked for, then
    links to the provider. *)
Lemma Download_loop_links (client : http_Client) (opts : DownloadOptions)
    (origUrl output : string) (fuel : nat) :
  forall (urlStr : string) (w : World) (r : Result string) (w' : World),
    Download_loop E fuel client opts origUrl urlStr output w = Some (r, w') ->
    requests w' = requests w
    \/ exists first later,
        requests w' = later ++ first :: requests w
        /\ req_url first = urlStr
        /\ Forall (fun req => provider_link (req_url req) = true) later.
Proof.
  induction fuel as [|fuel IH]; intros urlStr w r w'; [discriminate|].
  cbn [Download_loop]. unfold bind at 1. unfold get_world at 1. cbv beta iota.
  unfold bind at 1. unfold lift at 1. unfold http_NewRequest.
  destruct (url_Parse E urlStr) as [u|e]; [|intros [= _ <-]; now left].
  set (req := {| req_client := client; req_url := urlStr;
                 req_header := request_header E opts w output |}).
  assert (forall w1 : World,
             requests w1 = requests (log_request w req) ->
             requests w1 = requests w
             \/ exists first later,
                 requests w1 = later ++ first :: requests w
                 /\ req_url first = urlStr
                 /\ Forall (fun req => provider_link (req_url req) = true) later) as Hone.
  { intros w1 Hw1. right. exists req, []. split; [exact Hw1|]. split; [reflexivity|].
    constructor. }
  unfold bind at 1. unfold client_Do.
  destruct (http_RoundTrip E (requests w) req) as [resp|e];
    [|intros [= _ <-]; now apply Hone].
  destruct (strings.HasPrefix (Header_Get (Header resp) "Content-Type") "text/html").
  - unfold bind at 1. unfold lift at 1.
    destruct (io_ReadAll resp) as [body|e]; [|intros [= _ <-]; now apply Hone].
    unfold bind at 1. unfold lift at 1.
    destruct (getUrlFromGDriveConfirmation body) as [next|e] eqn:Hnext;
      [|intros [= _ <-]; now apply Hone].
    apply getUrlFromGDriveConfirmation_provider in Hnext.
    destruct (String.eqb origUrl next); [intros [= _ <-]; now apply Hone|].
    intros Hrest. right. exists req.
    apply IH in Hrest as [Hsame | (first & later & Hsent & Hfirst & Hall)].
    + exists []. split; [exact Hsame|]. split; [reflexivity | constructor].
    + exists (later ++ [first]). split.
      * rewrite Hsent. cbn [requests log_request]. now rewrite <- app_assoc.
      * split; [reflexivity|]. apply Forall_app. split; [exact Hall|].
        constructor; [congruence | constructor].
  - destruct (StatusCode resp >=? 400)%Z; [intros [= _ <-]; now apply Hone|].
    intros Hrest. apply Hone. eapply (write_payload_requests E opts urlStr output resp).
    exact Hrest.
Qed.

End Links.

(** X23.  The confirmation loop stays with the provider.  The first
    request of [Download] goes to the URL it was given; every later one
    goes to a link taken from a confirmation page, and such a link always
    begins with [https://docs.google.com/uc?export=download], whatever the
    page holds: a page cannot send the loop to another host or path. *)
Theorem Download_follows_provider_links
    (E : Env) (fuel : nat) (urlStr output : string) (opts : DownloadOptions)
    (w : World) (r : Result string) (w' : World) :
  Download E fuel urlStr output opts w = Some (r, w') ->
  requests w' = requests w
  \/ exists first later,
      requests w' = later ++ first :: requests w
      /\ req_url first = urlStr
      /\ Forall (fun req => provider_link (req_url req) = true) later.
Proof.
  unfold Download, bind, lift.
  destruct (newHTTPClient E (effective_options opts)) as [client|e].
  - apply Download_loop_links.
  - intros [= _ <-]. now left.
Qed.

(** The theorem at work: a confirmation page, then the payload. *)
Lemma Download_follows_provider_links_witness :
  exists w',
    Download Cases.confirm_then_serve 2 "http://host/a" "out" Sample.plain_options
      Sample.empty_world
    = Some (Ok "out", w')
    /\ fs w' !! "out" = Some (File "data")
    /\ (requests w' = requests Sample.empty_world
        \/ exists first later,
            requests w' = later ++ first :: requests Sample.empty_world
            /\ req_url first = "http://host/a"
            /\ Forall (fun req => provider_link (req_url req) = true) later).
Proof.
  destruct (Download Cases.confirm_then_serve 2 "http://host/a" "out" Sample.plain_options
              Sample.empty_world)
    as [[r w']|] eqn:Hrun; [|vm_compute in Hrun; discriminate Hrun].
  pose proof (Download_follows_provider_links Cases.confirm_then_serve 2 "http://host/a"
                "out" Sample.plain_options Sample.empty_world r w' Hrun) as Hlinks.
  exists w'. vm_compute in Hrun. injection Hrun as <- <-.
  split; [reflexivity|]. split; [reflexivity | exact Hlinks].
Defined.

(** ** A download that fails its verification *)

(** X24.  What a failed verification leaves in the cache.  Let nothing be
    cached for the URL, and let the download go through and be renamed into
    place, where its digest turns out not to be the one asked for.  Then
    [CachedDownload] fails with the error [hash mismatch for file], and the
    file that was downloaded stays at the cache path: it is not removed
    with the temporary directory.  So a later call for the same URL that
    asks for no hash finds it there and returns it without any request. *)
Theorem CachedDownload_keeps_unverified
    (E : Env) (fuel : nat) (urlStr outputPath hash : string) (quiet : bool)
    (postprocess : option (string -> M unit)) (opts : DownloadOptions)
    (w wb wc wd we : World) (tmpDir downloadedPath : string) (e : error) :
  fileExists E w (cache_path E urlStr outputPath) = false ->
  hash <> EmptyString ->
  os_MkdirTemp E (getCacheRoot E) "dl" (cache_ready E w) = Some (Ok tmpDir, wb) ->
  Download E fuel urlStr (filepath_Join E [tmpDir; "dl"]) opts wb
  = Some (Ok downloadedPath, wc) ->
  os_Rename E downloadedPath (cache_path E urlStr outputPath) wc = Some (Ok tt, wd) ->
  assertFileHash E (cache_path E urlStr outputPath) hash quiet wd = Some (Err e, we) ->
  within E tmpDir (cache_path E urlStr outputPath) = false ->
  exists w' c,
    CachedDownload E fuel urlStr outputPath hash quiet postprocess opts w
    = Some (Err (errors_New ("hash mismatch for file " +:+ cache_path E urlStr outputPath)),
            w')
    /\ fs wc !! downloadedPath = Some (File c)
    /\ fs w' !! cache_path E urlStr outputPath = Some (File c)
    /\ (os_fault E "stat" (cache_path E urlStr outputPath) = None ->
        forall fuel' quiet' postprocess' opts',
        exists w'',
          CachedDownload E fuel' urlStr outputPath EmptyString quiet' postprocess' opts' w'
          = Some (Ok (cache_path E urlStr outputPath), w'')
          /\ requests w'' = requests w').
Proof.
  intros Habsent Hhash Htmp Hdl Hren Hcheck Hout.
  destruct (assertFileHash_effect E (cache_path E urlStr outputPath) hash quiet wd)
    as (r0 & we0 & Hrun0 & Hfs & _).
  rewrite Hcheck in Hrun0. injection Hrun0 as _ <-.
  destruct (os_Rename_Ok E _ _ _ _ Hren) as (_ & c & Hold & Hnew).
  exists (os_RemoveAll E tmpDir we), c.
  assert (fs (os_RemoveAll E tmpDir we) !! cache_path E urlStr outputPath = Some (File c))
    as Hthere by (rewrite os_RemoveAll_outside by assumption; now rewrite Hfs).
  split; [|split; [exact Hold | split; [exact Hthere|]]].
  - rewrite CachedDownload_unfold. cbv zeta. rewrite Habsent. cbn [andb].
    eapply download_into_cache_mismatch; eassumption.
  - intros Hstat fuel' quiet' postprocess' opts'.
    eexists. split.
    + apply CachedDownload_hit. apply fileExists_true. eauto.
    + destruct quiet'; cbn [requests eprint]; apply cache_ready_requests.
Qed.

(** The theorem at work: a download of [hello] verified against another
    digest, and the call without a hash that follows it. *)
Lemma CachedDownload_keeps_unverified_witness :
  exists w' c,
    CachedDownload (Sample.serving ["hel"; "lo"]) 1 "http://host/a" EmptyString "md5:00ff"
      true None Sample.plain_options Sample.empty_world
    = Some (Err (errors_New
                   ("hash mismatch for file "
                    +:+ "/home/user/.cache/gdown/http-COLON--SLASH--SLASH-host-SLASH-a")),
            w')
    /\ c = "hello"
    /\ fs w' !! "/home/user/.cache/gdown/http-COLON--SLASH--SLASH-host-SLASH-a"
       = Some (File c)
    /\ exists w'',
        CachedDownload (Sample.serving ["hel"; "lo"]) 0 "http://host/a" EmptyString
          EmptyString true None Sample.plain_options w'
        = Some (Ok "/home/user/.cache/gdown/http-COLON--SLASH--SLASH-host-SLASH-a", w'')
        /\ requests w'' = requests w'.
Proof.
  destruct (os_MkdirTemp (Sample.serving ["hel"; "lo"])
              (getCacheRoot (Sample.serving ["hel"; "lo"])) "dl"
              (cache_ready (Sample.serving ["hel"; "lo"]) Sample.empty_world))
    as [[[tmpDir|e0] wb]|] eqn:Htmp; try (vm_compute in Htmp; discriminate Htmp).
  assert (tmpDir = "/home/user/.cache/gdown/dl4") as ->
      by (vm_compute in Htmp; now injection Htmp as <- _).
  destruct (Download (Sample.serving ["hel"; "lo"]) 1 "http://host/a"
              (filepath_Join (Sample.serving ["hel"; "lo"])
                 ["/home/user/.cache/gdown/dl4"; "dl"])
              Sample.plain_options wb)
    as [[[dp|e0] wc]|] eqn:Hdl;
    try (vm_compute in Htmp; injection Htmp as <-; vm_compute in Hdl; discriminate Hdl).
  destruct (os_Rename (Sample.serving ["hel"; "lo"]) dp
              (cache_path (Sample.serving ["hel"; "lo"]) "http://host/a" EmptyString) wc)
    as [[[[]|e0] wd]|] eqn:Hren;
    try (vm_compute in Htmp; injection Htmp as <-; vm_compute in Hdl;
         injection Hdl as <- <-; vm_compute in Hren; discriminate Hren).
  destruct (assertFileHash (Sample.serving ["hel"; "lo"])
              (cache_path (Sample.serving ["hel"; "lo"]) "http://host/a" EmptyString)
              "md5:00ff" true wd)
    as [[[b|e] we]|] eqn:Hcheck;
    try (vm_compute in Htmp; injection Htmp as <-; vm_compute in Hdl;
         injection Hdl as <- <-; vm_compute in Hren; injection Hren as <-;
         vm_compute in Hcheck; discriminate Hcheck).
  destruct (CachedDownload_keeps_unverified (Sample.serving ["hel"; "lo"]) 1
              "http://host/a" EmptyString "md5:00ff" true None Sample.plain_options
              Sample.empty_world wb wc wd we "/home/user/.cache/gdown/dl4" dp e)
    as (w' & c & Hrun & Hold & Hthere & Hlater); try assumption.
  - reflexivity.
  - discriminate.
  - reflexivity.
  - exists w', c. split; [exact Hrun|].
    split; [|split; [exact Hthere | exact (Hlater eq_refl 0%nat true None Sample.plain_options)]].
    vm_compute in Htmp. injection Htmp as <-. vm_compute in Hdl. injection Hdl as <- <-.
    vm_compute in Hold. now injection Hold as <-.
Defined.

(** ** The size of the flattened list *)
Section Count.
Context (E : Env).

Lemma length_flat_map_sum {X Y} (f : X -> list Y) (l : list X) :
  length (flat_map f l) = list_sum (map (fun x => length (f x)) l).
Proof.
  induction l as [|x l IH]; [reflexivity|].
  cbn [flat_map map]. rewrite length_app, IH. reflexivity.
Qed.

Lemma getDirectoryStructure_count (ok : nat -> bool) (g : GoogleDriveFile) :
  forall prevPath,
    well_resolved ok g = true ->
    S (length (getDirectoryStructure E g prevPath)) = node_count g.
Proof.
  induction g as [id name type children IH] using GoogleDriveFile_nested_ind.
  intros prevPath Hwell.
  rewrite getDirectoryStructure_unfold. cbn [Children node_count]. f_equal.
  rewrite length_flat_map_sum. cbn [well_resolved] in Hwell.
  destruct (String.eqb type folder_type).
  - apply andb_true_iff in Hwell as [_ Hall]. clear id name type.
    induction children as [|c rest IHrest]; [reflexivity|].
    cbn [forallb] in Hall. apply andb_true_iff in Hall as [Hc Hall].
    apply List.Forall_cons_iff in IH as [IHc IH].
    cbn [map]. rewrite !list_sum_cons, (IHrest IH Hall). f_equal.
    unfold child_entries. destruct (IsFolder c) eqn:Hfolder.
    + cbn [length]. now apply IHc.
    + destruct c as [cid cname ctype cchildren]. unfold IsFolder in Hfolder.
      cbn [Type_] in Hfolder. cbn [well_resolved] in Hc. rewrite Hfolder in Hc.
      destruct cchildren; [reflexivity | discriminate].
  - destruct children; [reflexivity | discriminate].
Qed.

End Count.

(** X25.  The flattened list loses nothing.  For a tree as the resolver
    builds it (files have no children), [getDirectoryStructure] gives
    exactly one entry for each node below the root; with the tree theorem
    above, the list made for a resolved folder has one entry for each file
    and each sub-folder at any depth. *)
Theorem getDirectoryStructure_one_entry_per_node
    (E : Env) (fuel : nat) (client : http_Client) (quiet remainingOk verify : bool)
    (urlStr prevPath : string) (w : World) (g : GoogleDriveFile) (w' : World) :
  downloadAndParseGoogleDriveLink E fuel client quiet remainingOk verify urlStr w
  = Some (Ok g, w') ->
  S (length (getDirectoryStructure E g prevPath)) = node_count g.
Proof.
  intros Hrun. apply downloadAndParseGoogleDriveLink_resolved in Hrun as (_ & Hwell & _).
  eapply getDirectoryStructure_count. exact Hwell.
Qed.

Lemma getDirectoryStructure_one_entry_per_node_witness :
  S (length (getDirectoryStructure Cases.nested Cases.nested_tree EmptyString))
  = node_count Cases.nested_tree.
Proof.
  destruct (downloadAndParseGoogleDriveLink Cases.nested 2 Sample.plain_client true false
              true "https://host/folders/root" Sample.empty_world)
    as [[[g|e] w']|] eqn:Hrun; try (vm_compute in Hrun; discriminate Hrun).
  assert (g = Cases.nested_tree) as -> by (vm_compute in Hrun; now injection Hrun as <- _).
  exact (getDirectoryStructure_one_entry_per_node Cases.nested 2 Sample.plain_client true
           false true "https://host/folders/root" EmptyString Sample.empty_world
           Cases.nested_tree w' Hrun).
Defined.

(** ** A proxy that does not parse *)

(** X26.  A proxy URL that [url.Parse] refuses fails every entry point
    that builds a client, with the error of the parse and before anything
    is done: [Download], [ListFolder] and [DownloadFolder] (the latter two
    with acceptable arguments) return that error, whatever the fuel, and the
    world is exactly as it was: no request, no output, no file. *)
Theorem invalid_proxy_fails_first (E : Env) (opts : DownloadOptions) (e : error) :
  Proxy opts <> EmptyString ->
  url_Parse E (Proxy opts) = Err e ->
  (forall fuel urlStr output w,
      Download E fuel urlStr output opts w = Some (Err e, w))
  /\ (forall fuel urlStr id remainingOk w,
         (id = EmptyString <-> urlStr <> EmptyString) ->
         ListFolder E fuel urlStr id {| Options := opts; RemainingOk := remainingOk |} w
         = Some (Err e, w)
         /\ forall output,
             DownloadFolder E fuel urlStr id output
               {| Options := opts; RemainingOk := remainingOk |} w
             = Some (Err e, w)).
Proof.
  intros Hproxy Hparse. apply String.eqb_neq in Hproxy.
  assert (forall o, Proxy o = Proxy opts -> newHTTPClient E o = Err e) as Hclient.
  { intros o Ho. unfold newHTTPClient. now rewrite Ho, Hproxy, Hparse. }
  split.
  - intros fuel urlStr output w. unfold Download, bind, lift.
    rewrite Hclient; [reflexivity|].
    unfold effective_options. now destruct (String.eqb (UserAgent opts) EmptyString).
  - intros fuel urlStr id remainingOk w Hargs.
    assert ((String.eqb id EmptyString && String.eqb urlStr EmptyString)
            || (negb (String.eqb id EmptyString) && negb (String.eqb urlStr EmptyString))
            = false) as Hok.
    { destruct (String.eqb_spec id EmptyString) as [Hid|Hid];
        destruct (String.eqb_spec urlStr EmptyString) as [Hurl|Hurl];
        try reflexivity; exfalso; tauto. }
    assert (newHTTPClient E
              (Options (with_folder_UserAgent
                          {| Options := opts; RemainingOk := remainingOk |})) = Err e)
      as Hfolder.
    { apply Hclient. unfold with_folder_UserAgent. cbn [Options].
      now destruct (String.eqb (UserAgent opts) EmptyString). }
    split; [|intros output].
    + unfold ListFolder. rewrite Hok. unfold bind, lift. now rewrite Hfolder.
    + unfold DownloadFolder. rewrite Hok. unfold bind, lift. now rewrite Hfolder.
Qed.

Lemma invalid_proxy_fails_first_witness :
  Download Sample.offline 3 "http://host/a" "out" Cases.bad_proxy Sample.empty_world
  = Some (Err (lib_error "net/url" "parse not a url: unsupported by the sample"),
          Sample.empty_world)
  /\ ListFolder Sample.offline 3 "http://host/folders/x" EmptyString
       {| Options := Cases.bad_proxy; RemainingOk := false |} Sample.empty_world
     = Some (Err (lib_error "net/url" "parse not a url: unsupported by the sample"),
             Sample.empty_world)
  /\ DownloadFolder Sample.offline 3 EmptyString "x" "out"
       {| Options := Cases.bad_proxy; RemainingOk := false |} Sample.empty_world
     = Some (Err (lib_error "net/url" "parse not a url: unsupported by the sample"),
             Sample.empty_world).
Proof.
  destruct (invalid_proxy_fails_first Sample.offline Cases.bad_proxy
              (lib_error "net/url" "parse not a url: unsupported by the sample"))
    as [Hdownload Hfolders]; [discriminate | reflexivity |].
  split; [apply Hdownload|]. split.
  - apply (Hfolders 3%nat "http://host/folders/x" EmptyString false Sample.empty_world).
    split; [discriminate | reflexivity].
  - apply (Hfolders 3%nat EmptyString "x" false Sample.empty_world).
    split; [discriminate | congruence].
Defined.

(** ** The manifest of a folder page *)
Section Manifest.
Context (E : Env).
Import strings Regexp.

Lemma hex_not_backslash (h : ascii) : is_hex h = true -> Ascii.eqb h backslash = false.
Proof.
  intros Hh. destruct (Ascii.eqb_spec h backslash) as [->|]; [|reflexivity].
  discriminate Hh.
Qed.

Lemma hex_escape_here_head (c : ascii) (s : string) :
  Ascii.eqb c backslash = false -> hex_escape_here (String c s) = false.
Proof.
  intros Hc. unfold hex_escape_here.
  destruct s as [|x [|h1 [|h2 t]]]; try reflexivity. now rewrite Hc.
Qed.

Lemma hex_escapes_go_copy (pre s : string) :
  free_of backslash pre = true ->
  hex_escapes_go 0 (pre +:+ s) = pre +:+ hex_escapes_go 0 s.
Proof.
  induction pre as [|c pre IH]; [reflexivity|]. cbn [free_of]. intros Hfree.
  apply andb_true_iff in Hfree as [Hc Hfree]. apply negb_true_iff in Hc.
  change (String c pre +:+ s) with (String c (pre +:+ s)).
  cbn [hex_escapes_go]. rewrite hex_escape_here_head by now rewrite Ascii.eqb_sym.
  now rewrite IH.
Qed.

Lemma hex_escapes_go_here (c : ascii) (s : string) :
  hex_escapes_go 0 (String c s)
  = if hex_escape_here (String c s)
    then String backslash ("u00" +:+ hex_escapes_go 1 s)
    else String c (hex_escapes_go 0 s).
Proof. reflexivity. Qed.

Lemma hex_escapes_go_match (h1 h2 : ascii) (post : string) :
  is_hex h1 = true -> is_hex h2 = true ->
  hex_escapes_go 0 (String backslash (String "x" (String h1 (String h2 post))))
  = String backslash ("u00" +:+ String h1 (String h2 (hex_escapes_go 0 post))).
Proof.
  intros Hh1 Hh2. rewrite hex_escapes_go_here.
  assert (hex_escape_here (String backslash (String "x" (String h1 (String h2 post))))
          = true) as ->.
  { unfold hex_escape_here. now rewrite Hh1, Hh2. }
  change (hex_escapes_go 1 (String "x" (String h1 (String h2 post))))
    with (hex_escapes_go 0 (String h1 (String h2 post))).
  rewrite (hex_escapes_go_here h1), (hex_escape_here_head h1)
    by now apply hex_not_backslash.
  rewrite (hex_escapes_go_here h2), (hex_escape_here_head h2)
    by now apply hex_not_backslash.
  reflexivity.
Qed.

Lemma quoted_all_skip (n : nat) (pre s : string) :
  free_of quote pre = true ->
  quoted_all (String.length pre + n) (pre +:+ s) = quoted_all n s.
Proof.
  induction pre as [|c pre IH]; [reflexivity|]. cbn [free_of]. intros Hfree.
  apply andb_true_iff in Hfree as [Hc Hfree]. apply negb_true_iff in Hc.
  change (String c pre +:+ s) with (String c (pre +:+ s)).
  cbn [String.length Nat.add quoted_all]. rewrite Ascii.eqb_sym, Hc. now apply IH.
Qed.

Lemma quoted_body_plain (body post : string) :
  all_bytes plain_byte body = true ->
  quoted_body (body +:+ String quote post) = Some (body, post).
Proof.
  induction body as [|c body IH].
  - intros _. cbn [append quoted_body]. now rewrite Ascii.eqb_refl.
  - cbn [all_bytes]. intros H. apply andb_true_iff in H as [Hc Hbody].
    unfold plain_byte in Hc. apply andb_true_iff in Hc as [Hq Hb].
    apply negb_true_iff in Hq, Hb.
    change (String c body +:+ String quote post) with (String c (body +:+ String quote post)).
    cbn [quoted_body]. now rewrite Hq, Hb, IH.
Qed.

Lemma quoted_all_literal (n : nat) (body post : string) :
  all_bytes plain_byte body = true ->
  quoted_all (S n) (String quote (body +:+ String quote post)) = body :: quoted_all n post.
Proof.
  intros Hbody. cbn [quoted_all]. now rewrite Ascii.eqb_refl, quoted_body_plain.
Qed.

Lemma quoted_all_find (n : nat) (pre body post : string) :
  free_of quote pre = true -> all_bytes plain_byte body = true ->
  quoted_all (String.length pre + S n) (pre +:+ String quote (body +:+ String quote post))
  = body :: quoted_all n post.
Proof.
  intros Hpre Hbody. rewrite quoted_all_skip by assumption.
  now apply quoted_all_literal.
Qed.

(** The expression finds the two literals first. *)
Lemma quoted_two_literals (script pre a mid b post : string) :
  two_literals script pre a mid b post ->
  exists more, quoted_FindAllStringSubmatch script = a :: b :: more.
Proof.
  intros (-> & Hpre & Hmid & Ha & Hb). unfold quoted_FindAllStringSubmatch.
  set (tail := mid +:+ String quote (b +:+ String quote post)).
  replace (String.length (pre +:+ String quote (a +:+ String quote tail)))
    with (String.length pre
          + S (String.length mid + S (String.length a + S (String.length b + S (String.length post)))))%nat.
  2:{ subst tail.
      assert (forall c s, String.length (String c s) = S (String.length s)) as Hcons
          by reflexivity.
      repeat (rewrite length_append || rewrite Hcons). lia. }
  rewrite quoted_all_find by assumption. subst tail.
  rewrite quoted_all_find by assumption. eauto.
Qed.

End Manifest.

(** X27.  What [decodeUnicodeEscapes] rewrites.  Before the text is
    decoded as a JSON string, every [\xHH] (a backslash, an [x] and two
    hexadecimal digits) that follows text without backslashes is written as
    [\u00HH], and the rewriting goes on behind it; text without any
    backslash is decoded as it is. *)
Theorem decodeUnicodeEscapes_rewrites (E : Env) :
  (forall s,
      strings.free_of Regexp.backslash s = true ->
      decodeUnicodeEscapes E s = json_string E s)
  /\ (forall pre h1 h2 post,
         strings.free_of Regexp.backslash pre = true ->
         Regexp.is_hex h1 = true -> Regexp.is_hex h2 = true ->
         Regexp.hex_escapes
           (pre +:+ String Regexp.backslash (String "x" (String h1 (String h2 post))))
         = pre +:+ String Regexp.backslash
                     ("u00" +:+ String h1 (String h2 (Regexp.hex_escapes post)))
         /\ decodeUnicodeEscapes E
              (pre +:+ String Regexp.backslash (String "x" (String h1 (String h2 post))))
            = json_string E
                (pre +:+ String Regexp.backslash
                           ("u00" +:+ String h1 (String h2 (Regexp.hex_escapes post))))).
Proof.
  assert (forall s, decodeUnicodeEscapes E s = json_string E (Regexp.hex_escapes s)) as Hdef.
  { intros s. unfold decodeUnicodeEscapes, json_string.
    destruct (json_Unmarshal E _) as [[| | | | |]|]; reflexivity. }
  split.
  - intros s Hs. rewrite Hdef. f_equal. unfold Regexp.hex_escapes.
    rewrite <- (append_nil_r s) at 1. rewrite hex_escapes_go_copy by assumption.
    cbn [Regexp.hex_escapes_go]. apply append_nil_r.
  - intros pre h1 h2 post Hpre Hh1 Hh2.
    assert (Regexp.hex_escapes
              (pre +:+ String Regexp.backslash (String "x" (String h1 (String h2 post))))
            = pre +:+ String Regexp.backslash
                        ("u00" +:+ String h1 (String h2 (Regexp.hex_escapes post)))) as Hrew.
    { unfold Regexp.hex_escapes. rewrite hex_escapes_go_copy by assumption. f_equal.
      now apply hex_escapes_go_match. }
    split; [exact Hrew|]. now rewrite Hdef, Hrew.
Qed.

Lemma decodeUnicodeEscapes_rewrites_witness :
  decodeUnicodeEscapes Sample.offline "plain text" = json_string Sample.offline "plain text"
  /\ Regexp.hex_escapes
       ("a" +:+ String Regexp.backslash (String "x" (String "2" (String "f" "b"))))
     = "a" +:+ String Regexp.backslash ("u00" +:+ String "2" (String "f" "b")).
Proof.
  destruct (decodeUnicodeEscapes_rewrites Sample.offline) as [Hplain Hrewrite].
  split.
  - apply Hplain. reflexivity.
  - destruct (Hrewrite "a" "2"%char "f"%char "b" eq_refl eq_refl eq_refl) as [H _].
    exact H.
Defined.

(** X28.  Where the manifest is taken from.  [parseGoogleDriveFile] looks
    at the scripts of the page in order, passes over those that do not hold
    the marker [_DRIVE_ivd], and takes the second single-quoted literal of
    the first one that holds it (and has two); when no script of the page
    holds the marker, it fails with the error
    [could not find the folder encoded JS string]. *)
Theorem find_encodedData_second_literal (E : Env) :
  (forall script rest pre a mid b post,
      strings.Contains (html_UnescapeString E script) "_DRIVE_ivd" = true ->
      two_literals (html_UnescapeString E script) pre a mid b post ->
      find_encodedData E (script :: rest) = b)
  /\ (forall script rest,
         strings.Contains (html_UnescapeString E script) "_DRIVE_ivd" = false ->
         find_encodedData E (script :: rest) = find_encodedData E rest)
  /\ (forall urlStr content doc,
         goquery_NewDocument E content = Ok doc ->
         Forall (fun script =>
                   strings.Contains (html_UnescapeString E script) "_DRIVE_ivd" = false)
           (doc_scripts doc) ->
         parseGoogleDriveFile E urlStr content
         = Err (errors_New "could not find the folder encoded JS string")).
Proof.
  split; [|split].
  - intros script rest pre a mid b post Hmarker Hshape.
    cbn [find_encodedData]. rewrite Hmarker.
    destruct (quoted_two_literals _ _ _ _ _ _ Hshape) as [more ->]. reflexivity.
  - intros script rest Hmarker. cbn [find_encodedData]. now rewrite Hmarker.
  - intros urlStr content doc Hdoc Hnone. unfold parseGoogleDriveFile. rewrite Hdoc.
    assert (find_encodedData E (doc_scripts doc) = EmptyString) as ->; [|reflexivity].
    induction Hnone as [|script rest Hscript _ IH]; [reflexivity|].
    cbn [find_encodedData]. now rewrite Hscript.
Qed.

Lemma find_encodedData_second_literal_witness :
  find_encodedData (Sample.folder_of 1) [ "var a = 1;"; Sample.folder_script ] = "MANIFEST"
  /\ parseGoogleDriveFile
       (Sample.env Sample.unreachable
          (fun _ => Ok {| doc_scripts := ["var a = 1;"]; doc_title := "t - Google Drive" |})
          Sample.no_json)
       "https://host/folders/x" "<html>"
     = Err (errors_New "could not find the folder encoded JS string").
Proof.
  destruct (find_encodedData_second_literal (Sample.folder_of 1)) as (Hsecond & Hskip & _).
  split.
  - rewrite Hskip by reflexivity.
    apply (Hsecond Sample.folder_script [] "window[" "_DRIVE_ivd" "] = " "MANIFEST" ";").
    + reflexivity.
    + repeat split; reflexivity.
  - apply (proj2 (proj2 (find_encodedData_second_literal
                           (Sample.env Sample.unreachable
                              (fun _ => Ok {| doc_scripts := ["var a = 1;"];
                                              doc_title := "t - Google Drive" |})
                              Sample.no_json)))
             "https://host/folders/x" "<html>"
             {| doc_scripts := ["var a = 1;"]; doc_title := "t - Google Drive" |}
             eq_refl).
    repeat constructor.
Defined.
